(** * Composable VGG and Xception builders: graph construction and its properties

    The two builder classes (zoo/vgg/vgg_c.py and zoo/xception/xception_c.py)
    assemble a layer graph by calling framework layers one after the other.
    Each layer call creates a node of the graph and hands back a tensor
    handle that carries its inferred shape; a call whose input the
    framework rejects raises, and so does the builder's own configuration
    check.  The embedding threads the graph built so far, and the [_model]
    attribute of the instance under construction, through a state and
    exception monad.

    The layers themselves belong to the framework.  What the builders
    observe of them is whether a layer can be constructed, and the shape a
    call infers, or its refusal.  These rules are written out below:

    - a convolution is constructed only with at least one filter, and a
      layer with weights only with an initialiser name that the framework
      resolves;
    - a convolution needs a known, non-zero number of input channels; a
      plain convolution takes any number of leading batch axes before rows,
      columns and channels, while a separable convolution, a pooling layer
      and global pooling take exactly one;
    - with [same] padding a window of stride [s] maps a side [n] to the
      ceiling of [n / s]; without padding a window of size [k] maps it to
      [(n - k) / s + 1] and is refused when [n < k];
    - the second half of a separable convolution is an unpadded 1x1
      convolution, so a separable convolution is refused when a side comes
      out empty, where a padded plain convolution passes it on;
    - normalisation needs a known last axis and keeps the shape, as does an
      activation; an elementwise merge broadcasts axes of size one and
      refuses other mismatches; a dense layer needs a known last axis.

    Sizes, filter counts and unit counts are natural numbers without bound:
    the memory that the weights of a layer take is not part of the model. *)

From Stdlib Require Import String Bool NArith ZArith List Lia.
Import ListNotations.

(** ** Shapes and layers *)

(** A dimension is a size, or [None] when it is left open (the batch axis). *)
Definition dim := option N.
Definition shape := list dim.

Inductive padding := valid | same.
Inductive activation := linear | relu | softmax.

(** The layer constructors the two builders use, with the hyper-parameters
    they pass (pool sizes and strides normalised to pairs). *)
Inductive layer :=
| InputLayer (batch_shape : shape)
| Conv2D (filters : N) (kernel_size strides : N * N) (pad : padding)
         (act : activation) (kernel_initializer : string)
| SeparableConv2D (filters : N) (kernel_size strides : N * N) (pad : padding)
                  (act : activation) (kernel_initializer : string)
| MaxPooling2D (pool_size strides : N * N) (pad : padding)
| BatchNormalization
| ReLU
| Flatten
| GlobalAveragePooling2D
| Dense (units : N) (act : activation) (kernel_initializer : string)
| Add.

(** A tensor handle: the node that produced it and its static shape. *)
Record tensor := { t_id : nat; t_shape : shape }.

(** A graph node records the layer, the tensors it was called on and the
    tensor it produced.  A node's identifier is its position in the graph. *)
Record node := { n_layer : layer; n_inputs : list tensor; n_output : tensor }.

Definition graph := list node.

(** ** Shape inference of the framework layers *)

(** Output length of a convolution or pooling window along one axis.
    [None] stands for the framework refusing the window: a zero stride, or
    an unpadded window larger than the axis (a negative dimension size). *)
Definition conv_output_length (input_length : dim) (filter_size : N)
    (pad : padding) (stride : N) : option dim :=
  if (stride =? 0)%N then None else
  match input_length with
  | None => Some None
  | Some n =>
      match pad with
      | same => Some (Some ((n + stride - 1) / stride)%N)
      | valid =>
          if (n <? filter_size)%N then None
          else Some (Some ((n - filter_size + stride) / stride)%N)
      end
  end.

Definition window_output_shape (s : shape) (k st : N * N) (pad : padding)
    (channels : dim) : option shape :=
  match s with
  | [b; h; w; _] =>
      match conv_output_length h (fst k) pad (fst st),
            conv_output_length w (snd k) pad (snd st) with
      | Some h', Some w' => Some [b; h'; w'; channels]
      | _, _ => None
      end
  | _ => None
  end.

Fixpoint prod_dims (s : shape) : dim :=
  match s with
  | [] => Some 1%N
  | d :: s' =>
      match d, prod_dims s' with
      | Some a, Some b => Some (a * b)%N
      | _, _ => None
      end
  end.

(** Broadcasting of two axes in an elementwise merge. *)
Definition broadcast_dim (i j : dim) : option dim :=
  match i, j with
  | None, _ | _, None => Some None
  | Some a, Some b =>
      if (a =? 1)%N then Some (Some b)
      else if (b =? 1)%N then Some (Some a)
      else if (a =? b)%N then Some (Some a)
      else None
  end.

Fixpoint broadcast_zip (s1 s2 : shape) : option shape :=
  match s1, s2 with
  | [], [] => Some []
  | i :: s1', j :: s2' =>
      match broadcast_dim i j, broadcast_zip s1' s2' with
      | Some d, Some s => Some (d :: s)
      | _, _ => None
      end
  | _, _ => None
  end.

Definition compute_elemwise_op_output_shape (s1 s2 : shape) : option shape :=
  let (big, small) :=
    if (length s1 <? length s2)%nat then (s2, s1) else (s1, s2) in
  let k := (length big - length small)%nat in
  option_map (app (firstn k big)) (broadcast_zip (skipn k big) small).

(** The batch axes of the operands of a merge must agree where known. *)
Definition merge_batch (b1 b2 : dim) : option dim :=
  match b1, b2 with
  | None, d | d, None => Some d
  | Some a, Some b => if (a =? b)%N then Some (Some a) else None
  end.

Definition merge_shapes (s1 s2 : shape) : option shape :=
  match s1, s2 with
  | b1 :: r1, b2 :: r2 =>
      match merge_batch b1 b2, compute_elemwise_op_output_shape r1 r2 with
      | Some b, Some r => Some (b :: r)
      | _, _ => None
      end
  | _, _ => None
  end.

Fixpoint merge_all (acc : shape) (rest : list shape) : option shape :=
  match rest with
  | [] => Some acc
  | s :: rest' =>
      match merge_shapes acc s with
      | Some acc' => merge_all acc' rest'
      | None => None
      end
  end.

(** A plain convolution: the last three axes are rows, columns and
    channels, and the axes before them, at least one, are batch axes that
    pass through. *)
Definition conv2d_output_shape (s : shape) (filters : N) (k st : N * N)
    (pad : padding) : option shape :=
  let n := (length s - 3)%nat in
  match firstn n s, skipn n s with
  | (_ :: _) as batch, [h; w; Some c] =>
      if (c =? 0)%N then None else
      match conv_output_length h (fst k) pad (fst st),
            conv_output_length w (snd k) pad (snd st) with
      | Some h', Some w' => Some (batch ++ [h'; w'; Some filters])
      | _, _ => None
      end
  | _, _ => None
  end.

(** A side known to have no element at all. *)
Definition empty (d : dim) : bool :=
  match d with
  | Some n => (n =? 0)%N
  | None => false
  end.

(** A separable convolution: a depthwise window over one batch of feature
    maps, then an unpadded 1x1 convolution over its result, which a side
    without elements makes fail. *)
Definition separable_output_shape (s : shape) (filters : N) (k st : N * N)
    (pad : padding) : option shape :=
  match s with
  | [b; h; w; Some c] =>
      if (c =? 0)%N then None else
      match conv_output_length h (fst k) pad (fst st),
            conv_output_length w (snd k) pad (snd st) with
      | Some h', Some w' =>
          if empty h' || empty w' then None else Some [b; h'; w'; Some filters]
      | _, _ => None
      end
  | _ => None
  end.

(** ** Constructing a layer *)

(** A layer with weights is given the name of its initialiser, which the
    framework resolves when the layer is constructed, refusing a name it
    does not know.  These are the names that every version of the
    framework resolves to an initialiser for kernels of any shape; the
    builders pass [glorot_uniform] unless told otherwise.  Any other name
    counts as not resolved. *)
Definition initializers : list string :=
  [ "glorot_uniform"; "glorot_normal"; "he_uniform"; "he_normal";
    "lecun_uniform"; "lecun_normal"; "zeros"; "ones"; "constant";
    "random_normal"; "random_uniform"; "truncated_normal";
    "variance_scaling"; "orthogonal" ]%string.

Definition known_initializer (name : string) : bool :=
  existsb (String.eqb name) initializers.

(** What the constructor of a layer checks, before the layer is called on
    any tensor. *)
Definition constructible (l : layer) : bool :=
  match l with
  | Conv2D f _ _ _ _ i | SeparableConv2D f _ _ _ _ i =>
      negb (f =? 0)%N && known_initializer i
  | Dense _ _ i => known_initializer i
  | _ => true
  end.

(** The shape a layer that has been constructed infers for its output,
    [None] when the call raises. *)
Definition call_output_shape (l : layer) (ins : list shape) : option shape :=
  match l, ins with
  | InputLayer s, [] => Some s
  | Conv2D f k st p _ _, [s] => conv2d_output_shape s f k st p
  | SeparableConv2D f k st p _ _, [s] => separable_output_shape s f k st p
  | MaxPooling2D k st p, [([_; _; _; c] as s)] =>
      window_output_shape s k st p c
  | BatchNormalization, [s] =>
      match last s None with Some _ => Some s | None => None end
  | ReLU, [s] => Some s
  | Flatten, [b :: rest] => Some [b; prod_dims rest]
  | GlobalAveragePooling2D, [[b; _; _; c]] => Some [b; c]
  | Dense u _ _, [(_ :: _ :: _) as s] =>
      match last s None with
      | Some _ => Some (removelast s ++ [Some u])
      | None => None
      end
  | Add, s1 :: s2 :: rest => merge_all s1 (s2 :: rest)
  | _, _ => None
  end.

(** [Layer(...)(xs)]: the layer is constructed, then called; [None] when
    either step raises. *)
Definition compute_output_shape (l : layer) (ins : list shape) : option shape :=
  if constructible l then call_output_shape l ins else None.

(** ** Builder state, exceptions and the construction monad *)

(** The finished model: its input and output tensors. *)
Record Model := { inputs : tensor; outputs : tensor }.

(** Values the [_model] attribute may hold. *)
Inductive pyobj :=
| PyNone
| PyModel (m : Model)
| PyInt (z : Z)
| PyStr (s : string).

(** A builder instance: both classes have the single attribute [_model]. *)
Record instance := { _model : pyobj }.

Inductive exn :=
| Exception (msg : string)
| KeyError (key : Z)
| ValueError (l : layer).

Inductive result (A : Type) :=
| Ok (a : A)
| Raise (e : exn).
Arguments Ok {A} a.
Arguments Raise {A} e.

(** What construction reads and writes: the layer graph and [self]. *)
Record state := { nodes : graph; self : instance }.

Definition M (A : Type) := state -> state * result A.

Definition ret {A} (a : A) : M A := fun st => (st, Ok a).
Definition raise {A} (e : exn) : M A := fun st => (st, Raise e).
Definition bind {A B} (m : M A) (f : A -> M B) : M B :=
  fun st =>
    match m st with
    | (st', Ok a) => f a st'
    | (st', Raise e) => (st', Raise e)
    end.

Declare Scope builder_scope.
Delimit Scope builder_scope with builder.
Notation "x <- m ;; k" := (bind m (fun x => k))
  (at level 61, m at next level, right associativity) : builder_scope.
Local Open Scope builder_scope.

(** Constructing a layer and calling it on tensors: the framework infers
    the output shape, and on success adds the node to the graph. *)
Definition call (l : layer) (xs : list tensor) : M tensor :=
  fun st =>
    match compute_output_shape l (map t_shape xs) with
    | Some s =>
        let t := {| t_id := length (nodes st); t_shape := s |} in
        ({| nodes := nodes st ++ [{| n_layer := l; n_inputs := xs; n_output := t |}];
            self := self st |}, Ok t)
    | None => (st, Raise (ValueError l))
    end.

(** [Input(shape)]: a placeholder with an open batch axis. *)
Definition Input (input_shape : shape) : M tensor :=
  call (InputLayer (None :: input_shape)) [].

(** [self._model = v] *)
Definition set_model (v : pyobj) : M unit :=
  fun st => ({| nodes := nodes st; self := {| _model := v |} |}, Ok tt).

(** A [for] loop that rebinds one variable. *)
Fixpoint for_each {A B} (xs : list A) (body : A -> B -> M B) (acc : B) : M B :=
  match xs with
  | [] => ret acc
  | a :: xs' => acc' <- body a acc ;; for_each xs' body acc'
  end.

(** [range(n)] for a Python integer. *)
Definition range (n : Z) : list nat := seq 0 (Z.to_nat n).

(** A freshly allocated instance reads [_model] from the class: [None]. *)
Definition new_instance : instance := {| _model := PyNone |}.

(** ** The VGG builder (zoo/vgg/vgg_c.py) *)

Module VGG.

Definition groups : list (Z * list (Z * N)) :=
  [ (16%Z, [ (1%Z, 64%N); (2%Z, 128%N); (3%Z, 256%N); (3%Z, 512%N); (3%Z, 512%N) ]);
    (19%Z, [ (1%Z, 64%N); (2%Z, 128%N); (4%Z, 256%N); (4%Z, 256%N); (4%Z, 256%N) ]) ].

Definition init_weights : string := "glorot_uniform"%string.

(** [groups[key]] *)
Fixpoint getitem {V} (d : list (Z * V)) (key : Z) : M V :=
  match d with
  | [] => raise (KeyError key)
  | (k, v) :: d' => if (k =? key)%Z then ret v else getitem d' key
  end.

Definition model_get (s : instance) : pyobj := _model s.
Definition model_set (s : instance) (v : pyobj) : instance := {| _model := v |}.

Definition stem (inputs : tensor) : M tensor :=
  call (Conv2D 64 (3, 3)%N (1, 1)%N same relu init_weights) [inputs].

Definition group (x : tensor) (n_layers : Z) (n_filters : N)
    (init_weights' : option string) : M tensor :=
  let init_weights' :=
    match init_weights' with None => init_weights | Some w => w end in
  x <- for_each (range n_layers)
         (fun _ x => call (Conv2D n_filters (3, 3)%N (1, 1)%N same relu init_weights') [x])
         x ;;
  call (MaxPooling2D (2, 2)%N (2, 2)%N valid) [x].

Definition learner (x : tensor) (blocks : list (Z * N)) : M tensor :=
  for_each blocks (fun '(n_layers, n_filters) x => group x n_layers n_filters None) x.

Definition classifier (x : tensor) (n_classes : N) : M tensor :=
  x <- call Flatten [x] ;;
  x <- call (Dense 4096 relu init_weights) [x] ;;
  x <- call (Dense 4096 relu init_weights) [x] ;;
  call (Dense n_classes softmax init_weights) [x].

Definition __init__ (n_layers : Z) (input_shape : shape) (n_classes : N) : M unit :=
  if negb (existsb (Z.eqb n_layers) [16%Z; 19%Z])
  then raise (Exception "VGG: Invalid value for n_layers"%string)
  else
    inputs <- Input input_shape ;;
    x <- stem inputs ;;
    blocks <- getitem groups n_layers ;;
    x <- learner x blocks ;;
    outputs <- classifier x n_classes ;;
    set_model (PyModel {| inputs := inputs; outputs := outputs |}).

Definition default_input_shape : shape := [Some 224%N; Some 224%N; Some 3%N].
Definition default_n_classes : N := 1000.

End VGG.

(** ** The Xception builder (zoo/xception/xception_c.py) *)

Module Xception.

Definition init_weights : string := "glorot_uniform"%string.

Definition model_get (s : instance) : pyobj := _model s.

(** The setter's body is [return self._model]: it assigns nothing, and the
    value a property setter returns is dropped. *)
Definition model_set (s : instance) (v : pyobj) : instance :=
  let _ := _model s in s.

Definition or_default (init_weights' : option string) : string :=
  match init_weights' with None => init_weights | Some w => w end.

Definition projection_block (x : tensor) (n_filters : N)
    (init_weights' : option string) : M tensor :=
  let init_weights' := or_default init_weights' in
  let shortcut := x in
  shortcut <- call (Conv2D n_filters (1, 1)%N (2, 2)%N same linear init_weights') [shortcut] ;;
  shortcut <- call BatchNormalization [shortcut] ;;
  x <- call (SeparableConv2D n_filters (3, 3)%N (1, 1)%N same linear init_weights') [x] ;;
  x <- call BatchNormalization [x] ;;
  x <- call ReLU [x] ;;
  x <- call (SeparableConv2D n_filters (3, 3)%N (1, 1)%N same linear init_weights') [x] ;;
  x <- call BatchNormalization [x] ;;
  x <- call ReLU [x] ;;
  x <- call (MaxPooling2D (3, 3)%N (2, 2)%N same) [x] ;;
  call Add [x; shortcut].

Definition residual_block (x : tensor) (n_filters : N)
    (init_weights' : option string) : M tensor :=
  let init_weights' := or_default init_weights' in
  let shortcut := x in
  x <- call (SeparableConv2D n_filters (3, 3)%N (1, 1)%N same linear init_weights') [x] ;;
  x <- call BatchNormalization [x] ;;
  x <- call ReLU [x] ;;
  x <- call (SeparableConv2D n_filters (3, 3)%N (1, 1)%N same linear init_weights') [x] ;;
  x <- call BatchNormalization [x] ;;
  x <- call ReLU [x] ;;
  x <- call (SeparableConv2D n_filters (3, 3)%N (1, 1)%N same linear init_weights') [x] ;;
  x <- call BatchNormalization [x] ;;
  x <- call ReLU [x] ;;
  call Add [x; shortcut].

(** The [stem] nested in [entryFlow]. *)
Definition stem (inputs : tensor) (init_weights' : string) : M tensor :=
  x <- call (Conv2D 32 (3, 3)%N (2, 2)%N valid linear init_weights') [inputs] ;;
  x <- call BatchNormalization [x] ;;
  x <- call ReLU [x] ;;
  x <- call (Conv2D 64 (3, 3)%N (1, 1)%N valid linear init_weights') [x] ;;
  x <- call BatchNormalization [x] ;;
  call ReLU [x].

Definition entryFlow (inputs : tensor) (blocks : list N)
    (init_weights' : option string) : M tensor :=
  let init_weights' := or_default init_weights' in
  x <- stem inputs init_weights' ;;
  for_each blocks
    (fun n_filters x => projection_block x n_filters (Some init_weights')) x.

Definition middleFlow (x : tensor) (blocks : list N)
    (init_weights' : option string) : M tensor :=
  let init_weights' := or_default init_weights' in
  for_each blocks
    (fun n_filters x => residual_block x n_filters (Some init_weights')) x.

(** The [classifier] nested in [exitFlow]. *)
Definition classifier (x : tensor) (n_classes : N) (init_weights' : string)
    : M tensor :=
  x <- call GlobalAveragePooling2D [x] ;;
  call (Dense n_classes softmax init_weights') [x].

Definition exitFlow (x : tensor) (n_classes : N)
    (init_weights' : option string) : M tensor :=
  let init_weights' := or_default init_weights' in
  let shortcut := x in
  shortcut <- call (Conv2D 1024 (1, 1)%N (2, 2)%N same linear init_weights') [shortcut] ;;
  shortcut <- call BatchNormalization [shortcut] ;;
  x <- call (SeparableConv2D 728 (3, 3)%N (1, 1)%N same linear init_weights') [x] ;;
  x <- call BatchNormalization [x] ;;
  x <- call (SeparableConv2D 1024 (3, 3)%N (1, 1)%N same linear init_weights') [x] ;;
  x <- call BatchNormalization [x] ;;
  x <- call ReLU [x] ;;
  x <- call (MaxPooling2D (3, 3)%N (2, 2)%N same) [x] ;;
  x <- call Add [x; shortcut] ;;
  x <- call (SeparableConv2D 1556 (3, 3)%N (1, 1)%N same linear init_weights') [x] ;;
  x <- call BatchNormalization [x] ;;
  x <- call ReLU [x] ;;
  x <- call (SeparableConv2D 2048 (3, 3)%N (1, 1)%N same linear init_weights') [x] ;;
  x <- call BatchNormalization [x] ;;
  x <- call ReLU [x] ;;
  classifier x n_classes init_weights'.

Definition __init__ (input_shape : shape) (n_classes : N) : M unit :=
  inputs <- Input input_shape ;;
  x <- entryFlow inputs [128; 256; 728]%N None ;;
  x <- middleFlow x [728; 728; 728; 728; 728; 728; 728; 728]%N None ;;
  outputs <- exitFlow x n_classes None ;;
  set_model (PyModel {| inputs := inputs; outputs := outputs |}).

Definition default_input_shape : shape := [Some 229%N; Some 229%N; Some 3%N].
Definition default_n_classes : N := 1000.

End Xception.

(** A fresh interpreter: no graph node yet, a new instance. *)
Definition fresh : state := {| nodes := []; self := new_instance |}.

(** * Vocabulary of the statements *)

(** ** Exceptions *)

(** [raises_only P m]: every exception that [m] raises satisfies [P]. *)
Definition raises_only (P : exn -> Prop) {A} (m : M A) : Prop :=
  forall st st' e, m st = (st', Raise e) -> P e.

(** An error of the framework, as opposed to one the builder raises. *)
Definition framework_error (e : exn) : Prop := exists l, e = ValueError l.

(** The exception of the selector check in [VGG.__init__]. *)
Definition invalid_n_layers : exn :=
  Exception "VGG: Invalid value for n_layers"%string.

(** ** Pipelines *)

(** [chain x ns]: the nodes [ns] form a pipeline fed by [x]; every node has
    the output of the one before it as its only input. *)
Fixpoint chain (x : tensor) (ns : list node) : Prop :=
  match ns with
  | [] => True
  | n :: ns' => n_inputs n = [x] /\ chain (n_output n) ns'
  end.

Definition chain_end (x : tensor) (ns : list node) : tensor :=
  last (map n_output ns) x.

(** [sequential ls x st st' y]: going from [st] to [st'] added a pipeline of
    the layers [ls], in this order, from [x] to [y], and nothing else. *)
Definition sequential (ls : list layer) (x : tensor) (st st' : state)
    (y : tensor) : Prop :=
  exists d, nodes st' = nodes st ++ d /\ self st' = self st /\
            map n_layer d = ls /\ chain x d /\ y = chain_end x d.

(** ** Layers of the VGG stages *)

Definition conv3x3 (n_filters : N) : layer :=
  Conv2D n_filters (3, 3)%N (1, 1)%N same relu VGG.init_weights.

Definition pool2x2 : layer := MaxPooling2D (2, 2)%N (2, 2)%N valid.

(** The layers one (repeat, width) stage stands for. *)
Definition stage_layers (stage : Z * N) : list layer :=
  repeat (conv3x3 (snd stage)) (Z.to_nat (fst stage)) ++ [pool2x2].

(** ** Shapes through VGG *)

(** Every stage halves both spatial axes, so [k] stages need [2^k] rows and
    columns. *)
Definition min_side (blocks : list (Z * N)) : N := (2 ^ N.of_nat (length blocks))%N.

(** The first axis of a tensor is the batch axis [b]. *)
Definition batch_axis (b : dim) (x : tensor) : Prop :=
  hd_error (t_shape x) = Some b.

(** The layers of the VGG classifier; the last one is the output layer. *)
Definition dense_out (n_classes : N) : layer :=
  Dense n_classes softmax VGG.init_weights.

Definition classifier_layers (n_classes : N) : list layer :=
  [ Flatten; Dense 4096 relu VGG.init_weights; Dense 4096 relu VGG.init_weights;
    dense_out n_classes ].

(** The two tables of [VGG.groups]. *)
Definition VGG16_groups : list (Z * N) :=
  [ (1%Z, 64%N); (2%Z, 128%N); (3%Z, 256%N); (3%Z, 512%N); (3%Z, 512%N) ].
Definition VGG19_groups : list (Z * N) :=
  [ (1%Z, 64%N); (2%Z, 128%N); (4%Z, 256%N); (4%Z, 256%N); (4%Z, 256%N) ].

(** ** Graphs the Xception blocks add *)

(** Stride 2 with [same] padding: the ceiling of half the length. *)
Definition half (d : dim) : dim := option_map (fun n => ((n + 1) / 2)%N) d.

(** A tensor and a node, written out. *)
Definition T (id : nat) (s : shape) : tensor := {| t_id := id; t_shape := s |}.
Definition mk (l : layer) (ins : list tensor) (id : nat) (s : shape) : node :=
  {| n_layer := l; n_inputs := ins; n_output := T id s |}.

(** The nodes of a projection block called on [x], a batch [b] of [h] by
    [w] feature maps, when the graph holds [k] nodes. *)
Definition projection_nodes (k : nat) (x : tensor) (n_filters : N) (iw : string)
    (b h w : dim) : list node :=
  let s1 := [b; h; w; Some n_filters] in
  let s2 := [b; half h; half w; Some n_filters] in
  [ mk (Conv2D n_filters (1, 1)%N (2, 2)%N same linear iw) [x] (k + 0) s2;
    mk BatchNormalization [T (k + 0) s2] (k + 1) s2;
    mk (SeparableConv2D n_filters (3, 3)%N (1, 1)%N same linear iw) [x] (k + 2) s1;
    mk BatchNormalization [T (k + 2) s1] (k + 3) s1;
    mk ReLU [T (k + 3) s1] (k + 4) s1;
    mk (SeparableConv2D n_filters (3, 3)%N (1, 1)%N same linear iw) [T (k + 4) s1] (k + 5) s1;
    mk BatchNormalization [T (k + 5) s1] (k + 6) s1;
    mk ReLU [T (k + 6) s1] (k + 7) s1;
    mk (MaxPooling2D (3, 3)%N (2, 2)%N same) [T (k + 7) s1] (k + 8) s2;
    mk Add [T (k + 8) s2; T (k + 1) s2] (k + 9) s2 ].

(** The nodes of an identity residual block, likewise. *)
Definition residual_nodes (k : nat) (x : tensor) (n_filters : N) (iw : string)
    (b h w : dim) : list node :=
  let s := [b; h; w; Some n_filters] in
  let sep := SeparableConv2D n_filters (3, 3)%N (1, 1)%N same linear iw in
  [ mk sep [x] (k + 0) s;
    mk BatchNormalization [T (k + 0) s] (k + 1) s;
    mk ReLU [T (k + 1) s] (k + 2) s;
    mk sep [T (k + 2) s] (k + 3) s;
    mk BatchNormalization [T (k + 3) s] (k + 4) s;
    mk ReLU [T (k + 4) s] (k + 5) s;
    mk sep [T (k + 5) s] (k + 6) s;
    mk BatchNormalization [T (k + 6) s] (k + 7) s;
    mk ReLU [T (k + 7) s] (k + 8) s;
    mk Add [T (k + 8) s; x] (k + 9) s ].

(** The nodes of the exit flow, likewise. *)
Definition exit_nodes (k : nat) (x : tensor) (n_classes : N) (iw : string)
    (b h w : dim) : list node :=
  let s (c : N) := [b; h; w; Some c] in
  let r (c : N) := [b; half h; half w; Some c] in
  let sep (f : N) := SeparableConv2D f (3, 3)%N (1, 1)%N same linear iw in
  [ mk (Conv2D 1024 (1, 1)%N (2, 2)%N same linear iw) [x] (k + 0) (r 1024%N);
    mk BatchNormalization [T (k + 0) (r 1024%N)] (k + 1) (r 1024%N);
    mk (sep 728%N) [x] (k + 2) (s 728%N);
    mk BatchNormalization [T (k + 2) (s 728%N)] (k + 3) (s 728%N);
    mk (sep 1024%N) [T (k + 3) (s 728%N)] (k + 4) (s 1024%N);
    mk BatchNormalization [T (k + 4) (s 1024%N)] (k + 5) (s 1024%N);
    mk ReLU [T (k + 5) (s 1024%N)] (k + 6) (s 1024%N);
    mk (MaxPooling2D (3, 3)%N (2, 2)%N same) [T (k + 6) (s 1024%N)] (k + 7) (r 1024%N);
    mk Add [T (k + 7) (r 1024%N); T (k + 1) (r 1024%N)] (k + 8) (r 1024%N);
    mk (sep 1556%N) [T (k + 8) (r 1024%N)] (k + 9) (r 1556%N);
    mk BatchNormalization [T (k + 9) (r 1556%N)] (k + 10) (r 1556%N);
    mk ReLU [T (k + 10) (r 1556%N)] (k + 11) (r 1556%N);
    mk (sep 2048%N) [T (k + 11) (r 1556%N)] (k + 12) (r 2048%N);
    mk BatchNormalization [T (k + 12) (r 2048%N)] (k + 13) (r 2048%N);
    mk ReLU [T (k + 13) (r 2048%N)] (k + 14) (r 2048%N);
    mk GlobalAveragePooling2D [T (k + 14) (r 2048%N)] (k + 15) [b; Some 2048%N];
    mk (Dense n_classes softmax iw) [T (k + 15) [b; Some 2048%N]] (k + 16)
       [b; Some n_classes] ].

(** The stem's two unpadded 3x3 convolutions, the first with stride 2. *)
Definition stem_side (n : N) : N := ((n - 1) / 2 - 2)%N.

(** The ceiling of [a / b]. *)
Definition ceil_div (a b : N) : N :=
  (a / b + if a mod b =? 0 then 0 else 1)%N.

(** ** Branches of a residual block *)

Definition is_sepconv (l : layer) : bool :=
  match l with SeparableConv2D _ _ _ _ _ _ => true | _ => false end.

Definition is_add (l : layer) : bool :=
  match l with Add => true | _ => false end.

Definition count_sepconvs (ls : list layer) : nat := length (filter is_sepconv ls).

(** The layers on the single-input path that leads to tensor [t], walking
    back from [t] until the tensor numbered [stop] (the input of the block)
    or a node that is not single-input. *)
Fixpoint upstream (fuel : nat) (g : graph) (stop : nat) (t : tensor) : list layer :=
  match fuel with
  | O => []
  | S fuel' =>
      if (t_id t =? stop)%nat then []
      else match nth_error g (t_id t) with
           | Some n =>
               match n_inputs n with
               | [t'] => upstream fuel' g stop t' ++ [n_layer n]
               | _ => []
               end
           | None => []
           end
  end.

(** The operands of the first [Add] of a graph: main branch, then shortcut. *)
Definition merge_operands (g : graph) : option (tensor * tensor) :=
  match find (fun n => is_add (n_layer n)) g with
  | Some n =>
      match n_inputs n with
      | [main; shortcut] => Some (main, shortcut)
      | _ => None
      end
  | None => None
  end.

Definition main_branch (g : graph) (x : tensor) : option (list layer) :=
  option_map (fun ops => upstream (length g) g (t_id x) (fst ops)) (merge_operands g).

Definition shortcut_branch (g : graph) (x : tensor) : option (list layer) :=
  option_map (fun ops => upstream (length g) g (t_id x) (snd ops)) (merge_operands g).

(** The layers of the exit flow: shortcut branch, main branch, and what
    follows the merge. *)
Definition exit_shortcut_layers (iw : string) : list layer :=
  [ Conv2D 1024 (1, 1)%N (2, 2)%N same linear iw; BatchNormalization ].

Definition exit_main_layers (iw : string) : list layer :=
  [ SeparableConv2D 728 (3, 3)%N (1, 1)%N same linear iw; BatchNormalization;
    SeparableConv2D 1024 (3, 3)%N (1, 1)%N same linear iw; BatchNormalization; ReLU;
    MaxPooling2D (3, 3)%N (2, 2)%N same ].

Definition exit_tail_layers (n_classes : N) (iw : string) : list layer :=
  [ SeparableConv2D 1556 (3, 3)%N (1, 1)%N same linear iw; BatchNormalization; ReLU;
    SeparableConv2D 2048 (3, 3)%N (1, 1)%N same linear iw; BatchNormalization; ReLU;
    GlobalAveragePooling2D; Dense n_classes softmax iw ].

(** ** Layers of the Xception flows *)

(** [appended ls st st']: going from [st] to [st'] added nodes of the layers
    [ls], in this order, and nothing else. *)
Definition appended (ls : list layer) (st st' : state) : Prop :=
  exists d, nodes st' = nodes st ++ d /\ self st' = self st /\ map n_layer d = ls.

(** The layers of the stem, of one projection block and of one identity
    residual block, in the order they are created. *)
Definition stem_layers (iw : string) : list layer :=
  [ Conv2D 32 (3, 3)%N (2, 2)%N valid linear iw; BatchNormalization; ReLU;
    Conv2D 64 (3, 3)%N (1, 1)%N valid linear iw; BatchNormalization; ReLU ].

Definition projection_layers (iw : string) (n_filters : N) : list layer :=
  [ Conv2D n_filters (1, 1)%N (2, 2)%N same linear iw; BatchNormalization;
    SeparableConv2D n_filters (3, 3)%N (1, 1)%N same linear iw; BatchNormalization; ReLU;
    SeparableConv2D n_filters (3, 3)%N (1, 1)%N same linear iw; BatchNormalization; ReLU;
    MaxPooling2D (3, 3)%N (2, 2)%N same;
    Add ].

Definition residual_layers (iw : string) (n_filters : N) : list layer :=
  [ SeparableConv2D n_filters (3, 3)%N (1, 1)%N same linear iw; BatchNormalization; ReLU;
    SeparableConv2D n_filters (3, 3)%N (1, 1)%N same linear iw; BatchNormalization; ReLU;
    SeparableConv2D n_filters (3, 3)%N (1, 1)%N same linear iw; BatchNormalization; ReLU;
    Add ].


(** The width lists the constructor passes. *)
Definition entry_blocks : list N := [128; 256; 728]%N.
Definition middle_blocks : list N := repeat 728%N 8.

(** ** Comparing constructions *)

(** Node numbers depend on how many nodes the graph already had.  Shifting
    adds an offset to every node number of a tensor, a node or a stored
    model, and changes nothing else. *)
Definition shift (k : nat) (t : tensor) : tensor :=
  {| t_id := t_id t + k; t_shape := t_shape t |}.

Definition shift_node (k : nat) (n : node) : node :=
  {| n_layer := n_layer n;
     n_inputs := map (shift k) (n_inputs n);
     n_output := shift k (n_output n) |}.

Definition shift_obj (k : nat) (v : pyobj) : pyobj :=
  match v with
  | PyModel m =>
      PyModel {| inputs := shift k (inputs m); outputs := shift k (outputs m) |}
  | _ => v
  end.

(** [built st run d0 m0 r0]: the run [run], started in [st], added the
    nodes [d0] (layers, hyper-parameters, wiring and shapes) renumbered by
    the size of the graph it started with, left the model [m0], renumbered
    likewise, in the instance, and ended as [r0]. *)
Definition built (st : state) (run : state * result unit)
    (d0 : list node) (m0 : pyobj) (r0 : result unit) : Prop :=
  let k := length (nodes st) in
  nodes (fst run) = nodes st ++ map (shift_node k) d0 /\
  _model (self (fst run)) = shift_obj k m0 /\
  snd run = r0.

(** Instantiating a class: [__init__] runs on a new instance. *)
Definition new (init : M unit) : M unit :=
  fun st => init {| nodes := nodes st; self := new_instance |}.

Section SimulationRelation.

(** Two runs, one on top of the graph [g1] and one on top of [g2], whose
    node numbers are [k] apart. *)
Variables (g1 g2 : graph) (k : nat).

Definition tensor_sim (t1 t2 : tensor) : Prop := t2 = shift k t1.

Definition state_sim (st1 st2 : state) : Prop :=
  exists d,
    nodes st1 = g1 ++ d /\ nodes st2 = g2 ++ map (shift_node k) d /\
    _model (self st2) = shift_obj k (_model (self st1)).

Definition result_sim {A} (R : A -> A -> Prop) (r1 r2 : result A) : Prop :=
  match r1, r2 with
  | Ok a, Ok b => R a b
  | Raise e1, Raise e2 => e1 = e2
  | _, _ => False
  end.

Definition sim {A} (R : A -> A -> Prop) (m1 m2 : M A) : Prop :=
  forall st1 st2,
    state_sim st1 st2 ->
    state_sim (fst (m1 st1)) (fst (m2 st2)) /\
    result_sim R (snd (m1 st1)) (snd (m2 st2)).

End SimulationRelation.

(** ** Sides that may be unknown *)

(** [fits m d]: a side that is known is at least [m]. *)
Definition fits (m : N) (d : dim) : Prop :=
  match d with
  | Some n => (m <= n)%N
  | None => True
  end.

(** A side divided by [m], rounding down. *)
Definition scale_down (m : N) (d : dim) : dim :=
  option_map (fun n => (n / m)%N) d.

(** The width the learner ends with: that of the last stage that has a
    convolution at all. *)
Definition learner_width (blocks : list (Z * N)) (c : N) : N :=
  fold_left (fun c (stage : Z * N) => if (0 <? fst stage)%Z then snd stage else c)
            blocks c.

(** Layers with weights of their own, as counted in the names VGG16 and
    VGG19. *)
Definition is_weight_layer (l : layer) : bool :=
  match l with
  | Conv2D _ _ _ _ _ _ | Dense _ _ _ => true
  | _ => false
  end.

Definition count_weight_layers (d : list node) : nat :=
  length (filter (fun n => is_weight_layer (n_layer n)) d).

(** A shape a plain convolution takes: batch axes, at least one, then rows,
    columns and a known number of channels that is not zero. *)
Definition conv_input (s : shape) : Prop :=
  exists batch h w c,
    s = batch ++ [h; w; Some c] /\ batch <> [] /\ (0 < c)%N.

(** One batch of feature maps with channels and without an empty side:
    what a separable convolution with [same] padding and stride 1 takes. *)
Definition nonempty_maps (s : shape) : Prop :=
  exists b h w c,
    s = [b; h; w; Some c] /\ (0 < c)%N /\ fits 1 h /\ fits 1 w.

(** A stage that has convolutions has filters for them. *)
Definition stage_has_filters (stage : Z * N) : Prop :=
  (0 < fst stage)%Z -> (0 < snd stage)%N.

(** The initialiser a VGG group uses. *)
Definition group_initializer (init_weights' : option string) : string :=
  match init_weights' with None => VGG.init_weights | Some w => w end.

(** The side the Xception stem leaves, for a side that may be unknown. *)
Definition stem_dim (d : dim) : dim := option_map stem_side d.

(** ** Consistent graphs *)

(** [known g t]: the tensor handle [t] is the output that the graph [g]
    records for the node numbered [t_id t]. *)
Definition known (g : graph) (t : tensor) : Prop :=
  option_map n_output (nth_error g (t_id t)) = Some t.

(** [consistent g]: every node of [g] is numbered by its position, and each
    of its inputs is the recorded output of a node before it. *)
Definition consistent (g : graph) : Prop :=
  forall i n, nth_error g i = Some n ->
    t_id (n_output n) = i /\ Forall (known (firstn i g)) (n_inputs n).

(** [extends g g']: [g'] is [g] with nodes added after it. *)
Definition extends (g g' : graph) : Prop := exists d, g' = g ++ d.

(** [keeps_from g0 m Q]: run in a consistent graph that extends [g0], the
    computation [m] leaves a consistent graph that extends the one it
    started in and does not touch the instance; a value it returns
    satisfies [Q] in the graph it leaves. *)
Definition keeps_from (g0 : graph) {A} (m : M A) (Q : graph -> A -> Prop) : Prop :=
  forall st, consistent (nodes st) -> extends g0 (nodes st) ->
    consistent (nodes (fst (m st))) /\
    extends (nodes st) (nodes (fst (m st))) /\
    self (fst (m st)) = self st /\
    forall a, snd (m st) = Ok a -> Q (nodes (fst (m st))) a.

(** The outcome of a constructor: when it returns, [_model] holds a model
    whose input and output are tensors of the graph; when it raises,
    [_model] is as before. *)
Definition constructed (st : state) (run : state * result unit) : Prop :=
  consistent (nodes (fst run)) /\
  extends (nodes st) (nodes (fst run)) /\
  match snd run with
  | Ok _ =>
      exists m, _model (self (fst run)) = PyModel m /\
                known (nodes (fst run)) (inputs m) /\
                known (nodes (fst run)) (outputs m)
  | Raise _ => self (fst run) = self st
  end.

Definition finishes_from (g0 : graph) (m : M unit) : Prop :=
  forall st, consistent (nodes st) -> extends g0 (nodes st) -> constructed st (m st).

(** The outcome of a block called in the state [st]: the graph is still
    consistent and extends the old one, the instance is untouched, and a
    tensor that is returned is a tensor of the new graph. *)
Definition block_outcome (st : state) (run : state * result tensor) : Prop :=
  consistent (nodes (fst run)) /\
  extends (nodes st) (nodes (fst run)) /\
  self (fst run) = self st /\
  forall y, snd run = Ok y -> known (nodes (fst run)) y.

(** ** Two runs that differ in the number of classes *)

(** [differ_in_output_layer nc1 nc2 iw run1 run2]: the two runs end the same
    way; if they raise, in the same state with the same exception; if they
    return, their graphs are equal up to the last node, which is the dense
    softmax layer of [nc1], respectively [nc2], units on the same input. *)
Definition differ_in_output_layer {A} (nc1 nc2 : N) (iw : string)
    (run1 run2 : state * result A) : Prop :=
  match snd run1, snd run2 with
  | Ok _, Ok _ =>
      exists g x id b,
        nodes (fst run1) = g ++ [mk (Dense nc1 softmax iw) [x] id [b; Some nc1]] /\
        nodes (fst run2) = g ++ [mk (Dense nc2 softmax iw) [x] id [b; Some nc2]]
  | Raise e1, Raise e2 => e1 = e2 /\ fst run1 = fst run2
  | _, _ => False
  end.

(** * Properties *)

(** ** Reasoning about runs *)

Section Runs.

Context {A B : Type}.

Lemma bind_ok (m : M A) (f : A -> M B) st st1 a :
  m st = (st1, Ok a) -> bind m f st = f a st1.
Proof. intros H. unfold bind. now rewrite H. Qed.

Lemma bind_raise (m : M A) (f : A -> M B) st st1 e :
  m st = (st1, Raise e) -> bind m f st = (st1, Raise e).
Proof. intros H. unfold bind. now rewrite H. Qed.

Lemma bind_ok_inv (m : M A) (f : A -> M B) st st' b :
  bind m f st = (st', Ok b) ->
  exists st1 a, m st = (st1, Ok a) /\ f a st1 = (st', Ok b).
Proof.
  unfold bind. destruct (m st) as [st1 [a | e]]; intros H.
  - now exists st1, a.
  - discriminate.
Qed.

End Runs.

Lemma call_ok l xs s st :
  compute_output_shape l (map t_shape xs) = Some s ->
  call l xs st =
    ({| nodes := nodes st ++
          [{| n_layer := l; n_inputs := xs;
              n_output := {| t_id := length (nodes st); t_shape := s |} |}];
        self := self st |},
     Ok {| t_id := length (nodes st); t_shape := s |}).
Proof. intros H. unfold call. now rewrite H. Qed.

Lemma call_raise l xs st :
  compute_output_shape l (map t_shape xs) = None ->
  call l xs st = (st, Raise (ValueError l)).
Proof. intros H. unfold call. now rewrite H. Qed.

Lemma call_ok_inv l xs st st' y :
  call l xs st = (st', Ok y) ->
  compute_output_shape l (map t_shape xs) = Some (t_shape y) /\
  t_id y = length (nodes st) /\
  nodes st' = nodes st ++ [{| n_layer := l; n_inputs := xs; n_output := y |}] /\
  self st' = self st.
Proof.
  unfold call. destruct (compute_output_shape l (map t_shape xs)); intros H.
  - injection H as <- <-. cbn. auto.
  - discriminate.
Qed.

Lemma call_raise_inv l xs st st' e :
  call l xs st = (st', Raise e) -> st' = st /\ e = ValueError l.
Proof.
  unfold call. destruct (compute_output_shape l (map t_shape xs)); intros H.
  - discriminate.
  - now injection H as <- <-.
Qed.

(** ** The [model] property *)

(** C1 (VGG half, and what Xception does instead): on a VGG instance, writing
    any value through the [model] property and reading it back returns that
    value.  On an Xception instance the setter leaves [_model] as it was, so
    after [x = Xception(); x.model = None] reading [x.model] still returns the
    constructed model and not the value written. *)
Theorem model_property_set_then_get :
  (forall (s : instance) (m : pyobj), VGG.model_get (VGG.model_set s m) = m) /\
  (forall (s : instance) (m : pyobj),
      Xception.model_get (Xception.model_set s m) = Xception.model_get s) /\
  (let '(st, _) :=
     Xception.__init__ Xception.default_input_shape Xception.default_n_classes fresh in
   Xception.model_get (self st) <> PyNone /\
   Xception.model_get (Xception.model_set (self st) PyNone) <> PyNone).
Proof.
  split; [reflexivity | split; [reflexivity |]].
  vm_compute. split; discriminate.
Qed.

(** ** Which exceptions a computation can raise *)

Lemma raises_only_ret P {A} (a : A) : raises_only P (ret a).
Proof. intros st st' e H. discriminate. Qed.

Lemma raises_only_call (P : exn -> Prop) l xs :
  P (ValueError l) -> raises_only P (call l xs).
Proof.
  intros HP st st' e H. apply call_raise_inv in H as [_ ->]. exact HP.
Qed.

Lemma raises_only_bind P {A B} (m : M A) (f : A -> M B) :
  raises_only P m -> (forall a, raises_only P (f a)) ->
  raises_only P (bind m f).
Proof.
  intros Hm Hf st st' e. unfold bind.
  destruct (m st) as [st1 [a | e1]] eqn:E; intros H.
  - eapply Hf; eauto.
  - injection H as <- <-. eapply Hm; eauto.
Qed.

Lemma raises_only_for_each P {A B} (xs : list A) (body : A -> B -> M B) :
  (forall a b, raises_only P (body a b)) ->
  forall acc, raises_only P (for_each xs body acc).
Proof.
  intros Hb. induction xs as [| a xs IH]; intros acc; cbn.
  - apply raises_only_ret.
  - apply raises_only_bind; auto.
Qed.

Lemma raises_only_set_model P v : raises_only P (set_model v).
Proof. intros st st' e H. discriminate. Qed.

Lemma framework_error_ValueError l : framework_error (ValueError l).
Proof. now exists l. Qed.

Create HintDb raises.
#[local] Hint Resolve raises_only_ret raises_only_set_model
  framework_error_ValueError : raises.
#[local] Hint Extern 1 (raises_only _ (call _ _)) =>
  apply raises_only_call : raises.
#[local] Hint Extern 2 (raises_only _ (bind _ _)) =>
  apply raises_only_bind; [| intros ?] : raises.
#[local] Hint Extern 2 (raises_only _ (for_each _ _ _)) =>
  apply raises_only_for_each; intros ? ? : raises.

Lemma VGG_group_framework_errors x n f w :
  raises_only framework_error (VGG.group x n f w).
Proof. unfold VGG.group. auto 10 with raises. Qed.

Lemma VGG_learner_framework_errors blocks x :
  raises_only framework_error (VGG.learner x blocks).
Proof.
  unfold VGG.learner. apply raises_only_for_each. intros [n f] b.
  apply VGG_group_framework_errors.
Qed.

Lemma VGG_classifier_framework_errors x n :
  raises_only framework_error (VGG.classifier x n).
Proof. unfold VGG.classifier. auto 10 with raises. Qed.

(** ** The selector check of the VGG constructor *)

(** C3: a selector other than 16 and 19 makes the VGG constructor raise its
    invalid-configuration exception in the state it was entered in: no graph
    node has been created (not even the input placeholder) and [_model] is
    untouched.  With selector 16 or 19 the constructor never raises that
    exception; whatever it raises then comes from a framework layer. *)
Theorem VGG_init_selector_check :
  (forall n_layers input_shape n_classes st,
      n_layers <> 16%Z -> n_layers <> 19%Z ->
      VGG.__init__ n_layers input_shape n_classes st = (st, Raise invalid_n_layers)) /\
  (forall n_layers input_shape n_classes st st' e,
      n_layers = 16%Z \/ n_layers = 19%Z ->
      VGG.__init__ n_layers input_shape n_classes st = (st', Raise e) ->
      framework_error e /\ e <> invalid_n_layers).
Proof.
  split.
  - intros n_layers input_shape n_classes st H16 H19. unfold VGG.__init__.
    cbn [existsb]. apply Z.eqb_neq in H16, H19.
    rewrite H16, H19. reflexivity.
  - intros n_layers input_shape n_classes st st' e Hn H.
    assert (Hf : framework_error e).
    { revert H. apply (fun P => P st st' e).
      change (raises_only framework_error
                (VGG.__init__ n_layers input_shape n_classes)).
      destruct Hn as [-> | ->]; unfold VGG.__init__, VGG.stem, Input; cbn;
        repeat (apply raises_only_bind; [| intros ?]);
        auto using VGG_learner_framework_errors, VGG_classifier_framework_errors
          with raises. }
    split; [exact Hf |]. destruct Hf as [l ->]. discriminate.
Qed.

Lemma VGG_init_selector_check_witness :
  VGG.__init__ 17 VGG.default_input_shape VGG.default_n_classes fresh
    = (fresh, Raise invalid_n_layers) /\
  (framework_error (ValueError (MaxPooling2D (2, 2)%N (2, 2)%N valid)) /\
   ValueError (MaxPooling2D (2, 2)%N (2, 2)%N valid) <> invalid_n_layers).
Proof.
  split.
  - apply (proj1 VGG_init_selector_check 17%Z); discriminate.
  - refine (proj2 VGG_init_selector_check 19%Z [Some 8; Some 8; Some 3]%N
              VGG.default_n_classes fresh _ _ (or_intror eq_refl) _).
    vm_compute. reflexivity.
Defined.

(** ** Sequential pieces of graph *)

Lemma last_default_irrelevant {A} (l : list A) d d' :
  l <> [] -> last l d = last l d'.
Proof.
  induction l as [| a l IH]; intros H; [contradiction |].
  destruct l as [| b l]; [reflexivity |].
  cbn [last] in *. apply IH. discriminate.
Qed.

Lemma last_app_default {A} (a b : list A) d :
  last (a ++ b) d = last b (last a d).
Proof.
  induction a as [| x a IH]; [reflexivity |].
  destruct a as [| y a].
  - cbn [app last]. destruct b as [| z b]; [reflexivity |].
    apply last_default_irrelevant. discriminate.
  - change (last (y :: a ++ b) d = last b (last (y :: a) d)). exact IH.
Qed.

Lemma chain_end_app x a b : chain_end x (a ++ b) = chain_end (chain_end x a) b.
Proof. unfold chain_end. now rewrite map_app, last_app_default. Qed.

Lemma chain_end_cons x n ns : chain_end x (n :: ns) = chain_end (n_output n) ns.
Proof. apply (chain_end_app x [n] ns). Qed.

Lemma chain_app x a b :
  chain x a -> chain (chain_end x a) b -> chain x (a ++ b).
Proof.
  revert x. induction a as [| n a IH]; intros x Ha Hb; cbn [chain app] in *.
  - exact Hb.
  - destruct Ha as [Hn Ha]. split; [exact Hn |].
    apply IH; [exact Ha |]. now rewrite chain_end_cons in Hb.
Qed.

Lemma sequential_nil x st : sequential [] x st st x.
Proof. exists []. rewrite app_nil_r. cbn. auto. Qed.

Lemma sequential_app l1 l2 x y z st st1 st2 :
  sequential l1 x st st1 y -> sequential l2 y st1 st2 z ->
  sequential (l1 ++ l2) x st st2 z.
Proof.
  intros (d1 & N1 & S1 & L1 & C1 & ->) (d2 & N2 & S2 & L2 & C2 & ->).
  exists (d1 ++ d2). rewrite N2, N1, S2, S1, map_app, L1, L2, app_assoc.
  repeat split; auto using chain_app. now rewrite chain_end_app.
Qed.

Lemma sequential_call l x st st' y :
  call l [x] st = (st', Ok y) -> sequential [l] x st st' y.
Proof.
  intros H. apply call_ok_inv in H as (_ & _ & Hn & Hs).
  eexists. split; [exact Hn |]. cbn. auto.
Qed.

Lemma for_each_call_sequential {A} (l : layer) (xs : list A) x st st' y :
  for_each xs (fun _ x => call l [x]) x st = (st', Ok y) ->
  sequential (repeat l (length xs)) x st st' y.
Proof.
  revert x st. induction xs as [| a xs IH]; intros x st H; cbn in *.
  - injection H as <- <-. apply sequential_nil.
  - apply bind_ok_inv in H as (st1 & x1 & H1 & H2).
    eapply (sequential_app [l]); eauto using sequential_call.
Qed.

Lemma appended_nil st : appended [] st st.
Proof. exists []. now rewrite app_nil_r. Qed.

Lemma appended_app l1 l2 st st1 st2 :
  appended l1 st st1 -> appended l2 st1 st2 -> appended (l1 ++ l2) st st2.
Proof.
  intros (d1 & N1 & S1 & L1) (d2 & N2 & S2 & L2). exists (d1 ++ d2).
  now rewrite N2, N1, S2, S1, map_app, L1, L2, app_assoc.
Qed.

Lemma appended_call l xs st st' y :
  call l xs st = (st', Ok y) -> appended [l] st st'.
Proof.
  intros H. apply call_ok_inv in H as (_ & _ & Hn & Hs).
  eexists. split; [exact Hn |]. now split.
Qed.

Lemma appended_for_each {A B} (L : A -> list layer) (xs : list A)
    (body : A -> B -> M B) :
  (forall a b st st' b', body a b st = (st', Ok b') -> appended (L a) st st') ->
  forall acc st st' y,
    for_each xs body acc st = (st', Ok y) -> appended (flat_map L xs) st st'.
Proof.
  intros Hb. induction xs as [| a xs IH]; intros acc st st' y H; cbn in H |- *.
  - injection H as <- _. apply appended_nil.
  - apply bind_ok_inv in H as (st1 & b1 & H1 & H2).
    eapply appended_app; eauto.
Qed.

(** Take a successful run of a straight sequence of layer calls apart. *)
Ltac invert_calls H :=
  repeat (let st := fresh "st" in
          let x := fresh "x" in
          let Hc := fresh "Hc" in
          apply bind_ok_inv in H as (st & x & Hc & H);
          apply appended_call in Hc);
  apply appended_call in H;
  repeat (eapply (appended_app [_]); [eassumption |]);
  apply appended_nil.

Lemma sequential_appended ls x st st' y :
  sequential ls x st st' y -> appended ls st st'.
Proof. intros (d & Hn & Hs & Hl & _). now exists d. Qed.

(** ** The shape rules of the layers *)

Lemma compute_output_shape_inv l ins s :
  compute_output_shape l ins = Some s ->
  constructible l = true /\ call_output_shape l ins = Some s.
Proof.
  unfold compute_output_shape. destruct (constructible l); [auto | discriminate].
Qed.

Lemma nonzero_eqb n : (0 < n)%N -> (n =? 0)%N = false.
Proof. intros H. apply N.eqb_neq. lia. Qed.

Lemma constructible_conv f i :
  (0 < f)%N -> known_initializer i = true ->
  negb (f =? 0)%N && known_initializer i = true.
Proof. intros Hf ->. now rewrite nonzero_eqb. Qed.

Lemma constructible_conv_inv f i :
  negb (f =? 0)%N && known_initializer i = true ->
  (0 < f)%N /\ known_initializer i = true.
Proof.
  intros H. apply andb_prop in H as [Hf Hi]. split; [| exact Hi].
  destruct (N.eqb_spec f 0); [discriminate | lia].
Qed.

Lemma batch_split (batch : shape) h w c :
  let s := batch ++ [h; w; c] in
  firstn (length s - 3) s = batch /\ skipn (length s - 3) s = [h; w; c].
Proof.
  cbn zeta. rewrite length_app. cbn [length].
  replace (length batch + 3 - 3)%nat with (length batch) by lia.
  rewrite firstn_app, skipn_app, firstn_all, skipn_all, Nat.sub_diag.
  cbn [firstn skipn app]. now rewrite app_nil_r.
Qed.

(** A plain convolution on any number of batch axes. *)
Lemma shape_Conv2D_batch f k st p a i batch h w c h' w' :
  (0 < f)%N -> known_initializer i = true -> batch <> [] -> (0 < c)%N ->
  conv_output_length h (fst k) p (fst st) = Some h' ->
  conv_output_length w (snd k) p (snd st) = Some w' ->
  compute_output_shape (Conv2D f k st p a i) [batch ++ [h; w; Some c]] =
  Some (batch ++ [h'; w'; Some f]).
Proof.
  intros Hf Hi Hb Hc Hh Hw. unfold compute_output_shape.
  cbn [constructible call_output_shape]. rewrite constructible_conv by assumption.
  unfold conv2d_output_shape. cbv zeta.
  destruct (batch_split batch h w (Some c)) as [E1 E2].
  unfold dim in *. rewrite E1, E2.
  destruct batch as [| d batch]; [contradiction |].
  now rewrite nonzero_eqb, Hh, Hw.
Qed.

Lemma shape_Conv2D f k st p a i b h w c h' w' :
  (0 < f)%N -> known_initializer i = true -> (0 < c)%N ->
  conv_output_length h (fst k) p (fst st) = Some h' ->
  conv_output_length w (snd k) p (snd st) = Some w' ->
  compute_output_shape (Conv2D f k st p a i) [[b; h; w; Some c]] =
  Some [b; h'; w'; Some f].
Proof.
  intros Hf Hi Hc Hh Hw.
  apply (shape_Conv2D_batch f k st p a i [b]); auto. discriminate.
Qed.

Lemma Conv2D_ok_inv f k st p a i s s' :
  compute_output_shape (Conv2D f k st p a i) [s] = Some s' ->
  (0 < f)%N /\ known_initializer i = true /\
  exists batch h w c h' w',
    s = batch ++ [h; w; Some c] /\ batch <> [] /\ (0 < c)%N /\
    conv_output_length h (fst k) p (fst st) = Some h' /\
    conv_output_length w (snd k) p (snd st) = Some w' /\
    s' = batch ++ [h'; w'; Some f].
Proof.
  intros H. apply compute_output_shape_inv in H as [Hc H].
  apply constructible_conv_inv in Hc as [Hf Hi].
  split; [exact Hf |]. split; [exact Hi |].
  cbn [call_output_shape] in H. unfold conv2d_output_shape in H. cbv zeta in H.
  pose proof (firstn_skipn (length s - 3) s) as Hs.
  destruct (firstn (length s - 3) s) as [| d batch]; [discriminate |].
  destruct (skipn (length s - 3) s) as [| h [| w [| [c |] [| ? ?]]]]; try discriminate.
  destruct (N.eqb_spec c 0) as [| Hc]; [discriminate |].
  destruct (conv_output_length h _ _ _) as [h' |] eqn:Hh; [| discriminate].
  destruct (conv_output_length w _ _ _) as [w' |] eqn:Hw; [| discriminate].
  injection H as <-. exists (d :: batch), h, w, c, h', w'.
  repeat split; auto; [discriminate | lia].
Qed.

Lemma fits_1_not_empty d : fits 1 d -> empty d = false.
Proof.
  destruct d as [n |]; [| reflexivity]. cbn [fits empty]. intros H.
  apply N.eqb_neq. lia.
Qed.

Lemma not_empty_fits_1 d : empty d = false -> fits 1 d.
Proof.
  destruct d as [n |]; [| exact (fun _ => I)]. cbn [fits empty]. intros H.
  apply N.eqb_neq in H. lia.
Qed.

Lemma shape_SeparableConv2D f k st p a i b h w c h' w' :
  (0 < f)%N -> known_initializer i = true -> (0 < c)%N ->
  conv_output_length h (fst k) p (fst st) = Some h' ->
  conv_output_length w (snd k) p (snd st) = Some w' ->
  fits 1 h' -> fits 1 w' ->
  compute_output_shape (SeparableConv2D f k st p a i) [[b; h; w; Some c]] =
  Some [b; h'; w'; Some f].
Proof.
  intros Hf Hi Hc Hh Hw Eh Ew. unfold compute_output_shape.
  cbn [constructible call_output_shape]. rewrite constructible_conv by assumption.
  unfold separable_output_shape.
  now rewrite nonzero_eqb, Hh, Hw, !fits_1_not_empty.
Qed.

Lemma SeparableConv2D_ok_inv f k st p a i s s' :
  compute_output_shape (SeparableConv2D f k st p a i) [s] = Some s' ->
  (0 < f)%N /\ known_initializer i = true /\
  exists b h w c h' w',
    s = [b; h; w; Some c] /\ (0 < c)%N /\
    conv_output_length h (fst k) p (fst st) = Some h' /\
    conv_output_length w (snd k) p (snd st) = Some w' /\
    fits 1 h' /\ fits 1 w' /\
    s' = [b; h'; w'; Some f].
Proof.
  intros H. apply compute_output_shape_inv in H as [Hc H].
  apply constructible_conv_inv in Hc as [Hf Hi].
  split; [exact Hf |]. split; [exact Hi |].
  cbn [call_output_shape] in H. unfold separable_output_shape in H.
  destruct s as [| b [| h [| w [| [c |] [| ? ?]]]]]; try discriminate.
  destruct (N.eqb_spec c 0) as [| Hc]; [discriminate |].
  destruct (conv_output_length h _ _ _) as [h' |] eqn:Hh; [| discriminate].
  destruct (conv_output_length w _ _ _) as [w' |] eqn:Hw; [| discriminate].
  destruct (empty h') eqn:Eh; [discriminate |].
  destruct (empty w') eqn:Ew; [discriminate |].
  injection H as <-. exists b, h, w, c, h', w'.
  repeat split; auto using not_empty_fits_1. lia.
Qed.

Lemma conv_output_length_same_1 h k :
  conv_output_length (Some h) k same 1 = Some (Some h).
Proof.
  unfold conv_output_length. cbn [N.eqb].
  now rewrite N.add_sub, N.div_1_r.
Qed.

Lemma conv_output_length_same_stride1 d k :
  conv_output_length d k same 1 = Some d.
Proof. destruct d as [n |]; [apply conv_output_length_same_1 | reflexivity]. Qed.

Lemma conv_output_length_same_stride2 d k :
  conv_output_length d k same 2 = Some (half d).
Proof.
  destruct d as [n |]; [| reflexivity].
  unfold conv_output_length, half. cbn [N.eqb option_map].
  do 2 f_equal. f_equal. lia.
Qed.

Lemma conv_output_length_valid_2_2 h :
  conv_output_length (Some h) 2 valid 2 =
  if (h <? 2)%N then None else Some (Some (h / 2)%N).
Proof.
  unfold conv_output_length. cbn [N.eqb Pos.eqb].
  destruct (N.ltb_spec h 2) as [H | H]; [reflexivity |].
  now rewrite N.sub_add.
Qed.

Lemma conv_output_length_valid_2_2_dim d :
  fits 2 d -> conv_output_length d 2 valid 2 = Some (scale_down 2 d).
Proof.
  destruct d as [n |]; [| reflexivity]. cbn [fits]. intros H.
  rewrite conv_output_length_valid_2_2.
  apply N.ltb_ge in H. now rewrite H.
Qed.

Lemma conv_output_length_valid_3_2 n :
  (3 <= n)%N -> conv_output_length (Some n) 3 valid 2 = Some (Some ((n - 1) / 2)%N).
Proof.
  intros H. unfold conv_output_length. cbn [N.eqb].
  pose proof H as H'. apply N.ltb_ge in H' as ->. do 3 f_equal. lia.
Qed.

Lemma conv_output_length_valid_3_1 n :
  (3 <= n)%N -> conv_output_length (Some n) 3 valid 1 = Some (Some (n - 2)%N).
Proof.
  intros H. unfold conv_output_length. cbn [N.eqb].
  pose proof H as H'. apply N.ltb_ge in H' as ->.
  rewrite N.div_1_r. do 2 f_equal. lia.
Qed.

Lemma conv_output_length_valid_3_2_dim d :
  fits 3 d ->
  conv_output_length d 3 valid 2 = Some (option_map (fun n => ((n - 1) / 2)%N) d).
Proof.
  destruct d as [n |]; [| reflexivity]. apply conv_output_length_valid_3_2.
Qed.

Lemma conv_output_length_valid_3_1_dim d :
  fits 3 d ->
  conv_output_length d 3 valid 1 = Some (option_map (fun n => (n - 2)%N) d).
Proof.
  destruct d as [n |]; [| reflexivity]. apply conv_output_length_valid_3_1.
Qed.

Lemma conv_output_length_valid_small n k s :
  (n < k)%N -> conv_output_length (Some n) k valid s = None.
Proof.
  intros H. unfold conv_output_length. destruct (s =? 0)%N; [reflexivity |].
  apply N.ltb_lt in H. now rewrite H.
Qed.

Lemma shape_Conv2D_same_stride1 f k a i b h w c :
  (0 < f)%N -> known_initializer i = true -> (0 < c)%N ->
  compute_output_shape (Conv2D f k (1, 1)%N same a i) [[b; h; w; Some c]] =
  Some [b; h; w; Some f].
Proof.
  intros Hf Hi Hc. apply shape_Conv2D; auto using conv_output_length_same_stride1.
Qed.

Lemma shape_Conv2D_same_stride2 f k a i b h w c :
  (0 < f)%N -> known_initializer i = true -> (0 < c)%N ->
  compute_output_shape (Conv2D f k (2, 2)%N same a i) [[b; h; w; Some c]] =
  Some [b; half h; half w; Some f].
Proof.
  intros Hf Hi Hc. apply shape_Conv2D; auto using conv_output_length_same_stride2.
Qed.

Lemma shape_SeparableConv2D_same_stride1 f k a i b h w c :
  (0 < f)%N -> known_initializer i = true -> (0 < c)%N ->
  fits 1 h -> fits 1 w ->
  compute_output_shape (SeparableConv2D f k (1, 1)%N same a i) [[b; h; w; Some c]] =
  Some [b; h; w; Some f].
Proof.
  intros Hf Hi Hc Hh Hw.
  apply shape_SeparableConv2D; auto using conv_output_length_same_stride1.
Qed.

Lemma shape_MaxPooling2D_same_stride2 k b h w c :
  compute_output_shape (MaxPooling2D k (2, 2)%N same) [[b; h; w; c]] =
  Some [b; half h; half w; c].
Proof.
  unfold compute_output_shape.
  cbn [constructible call_output_shape window_output_shape fst snd].
  now rewrite !conv_output_length_same_stride2.
Qed.

Lemma shape_pool2x2_dim b h w c :
  fits 2 h -> fits 2 w ->
  compute_output_shape pool2x2 [[b; h; w; c]] =
  Some [b; scale_down 2 h; scale_down 2 w; c].
Proof.
  intros Hh Hw. unfold compute_output_shape.
  cbn [constructible call_output_shape pool2x2 window_output_shape fst snd].
  now rewrite !conv_output_length_valid_2_2_dim.
Qed.

Lemma pool2x2_small b h w c :
  (h < 2)%N \/ (w < 2)%N ->
  compute_output_shape pool2x2 [[b; Some h; Some w; c]] = None.
Proof.
  intros H. unfold compute_output_shape.
  cbn [constructible call_output_shape pool2x2 window_output_shape fst snd].
  rewrite !conv_output_length_valid_2_2.
  destruct H as [H | H]; apply N.ltb_lt in H; rewrite H; [reflexivity |].
  now destruct (h <? 2)%N.
Qed.

Lemma shape_BatchNormalization b h w c :
  compute_output_shape BatchNormalization [[b; h; w; Some c]] =
  Some [b; h; w; Some c].
Proof. reflexivity. Qed.

Lemma shape_ReLU s : compute_output_shape ReLU [s] = Some s.
Proof. reflexivity. Qed.

Lemma broadcast_dim_same d : broadcast_dim d d = Some d.
Proof.
  destruct d as [n |]; [| reflexivity]. cbn.
  destruct (N.eqb_spec n 1) as [-> | _]; [reflexivity |].
  now rewrite N.eqb_refl.
Qed.

Lemma broadcast_zip_same s : broadcast_zip s s = Some s.
Proof.
  induction s as [| d s IH]; [reflexivity |].
  cbn [broadcast_zip]. now rewrite broadcast_dim_same, IH.
Qed.

Lemma merge_batch_same b : merge_batch b b = Some b.
Proof. destruct b as [n |]; cbn; [now rewrite N.eqb_refl | reflexivity]. Qed.

Lemma merge_shapes_same b s : merge_shapes (b :: s) (b :: s) = Some (b :: s).
Proof.
  unfold merge_shapes, compute_elemwise_op_output_shape.
  rewrite Nat.ltb_irrefl, Nat.sub_diag. cbn [firstn skipn].
  rewrite broadcast_zip_same. cbn [option_map app].
  now rewrite merge_batch_same.
Qed.

Lemma shape_Add_same b s :
  compute_output_shape Add [b :: s; b :: s] = Some (b :: s).
Proof.
  unfold compute_output_shape. cbn [constructible call_output_shape merge_all].
  now rewrite merge_shapes_same.
Qed.

Lemma shape_Add_width_mismatch b h w n c :
  n <> c -> n <> 1%N -> c <> 1%N ->
  compute_output_shape Add [[b; h; w; Some n]; [b; h; w; Some c]] = None.
Proof.
  intros Hnc Hn Hc. unfold compute_output_shape.
  cbn [constructible call_output_shape merge_all merge_shapes].
  unfold compute_elemwise_op_output_shape. cbn [length Nat.ltb Nat.leb Nat.sub firstn skipn].
  cbn [broadcast_zip]. rewrite !broadcast_dim_same.
  cbn [broadcast_dim].
  apply N.eqb_neq in Hnc, Hn, Hc. rewrite Hn, Hc, Hnc.
  now destruct (merge_batch b b).
Qed.

Lemma shape_GlobalAveragePooling2D b h w c :
  compute_output_shape GlobalAveragePooling2D [[b; h; w; c]] = Some [b; c].
Proof. reflexivity. Qed.

Lemma shape_Dense u a i b c :
  known_initializer i = true ->
  compute_output_shape (Dense u a i) [[b; Some c]] = Some [b; Some u].
Proof.
  intros Hi. unfold compute_output_shape. cbn [constructible]. now rewrite Hi.
Qed.

Lemma Dense_ok_inv u a i b p s' :
  compute_output_shape (Dense u a i) [[b; p]] = Some s' ->
  known_initializer i = true /\ (exists c, p = Some c) /\ s' = [b; Some u].
Proof.
  intros H. apply compute_output_shape_inv in H as [Hi H].
  split; [exact Hi |]. cbn in H. destruct p as [c |]; [| discriminate].
  injection H as <-. split; [now exists c | reflexivity].
Qed.

Lemma window_output_shape_batch s k st p ch s' :
  window_output_shape s k st p ch = Some s' ->
  exists b h w c h' w', s = [b; h; w; c] /\ s' = [b; h'; w'; ch].
Proof.
  unfold window_output_shape.
  destruct s as [| b [| h [| w [| c [| ? ?]]]]]; try discriminate.
  destruct (conv_output_length h _ _ _) as [h' |]; [| discriminate].
  destruct (conv_output_length w _ _ _) as [w' |]; [| discriminate].
  intros [= <-]. now exists b, h, w, c, h', w'.
Qed.

Lemma BatchNormalization_shape s s' :
  compute_output_shape BatchNormalization [s] = Some s' ->
  s' = s /\ exists c, last s None = Some c.
Proof.
  unfold compute_output_shape. cbn [constructible call_output_shape].
  destruct (last s None) as [c |] eqn:E; [| discriminate].
  intros [= <-]. split; [reflexivity | now exists c].
Qed.

(** *** Sides that stay large enough *)

Lemma fits_half d : fits 1 d -> fits 1 (half d).
Proof.
  destruct d as [n |]; [| trivial]. cbn [fits half option_map]. intros H.
  apply N.div_le_lower_bound; lia.
Qed.

Lemma fits_iter_half k d : fits 1 d -> fits 1 (Nat.iter k half d).
Proof. intros H. induction k as [| k IH]; [exact H | now apply fits_half]. Qed.

Lemma fits_scale_down m d : fits (2 * m) d -> fits m (scale_down 2 d).
Proof.
  destruct d as [n |]; [| trivial]. cbn [fits scale_down option_map]. intros H.
  apply N.div_le_lower_bound; lia.
Qed.

Lemma fits_weaken m m' d : (m <= m')%N -> fits m' d -> fits m d.
Proof. destruct d as [n |]; [| trivial]. cbn [fits]. lia. Qed.

Lemma scale_down_scale_down m d :
  scale_down m (scale_down 2 d) = scale_down (2 * m) d.
Proof.
  destruct d as [n |]; [| reflexivity]. cbn [scale_down option_map].
  now rewrite N.Div0.div_div.
Qed.

Lemma scale_down_1 d : scale_down 1 d = d.
Proof.
  destruct d as [n |]; [| reflexivity]. cbn [scale_down option_map].
  now rewrite N.div_1_r.
Qed.

Lemma glorot_uniform_known : known_initializer "glorot_uniform" = true.
Proof. reflexivity. Qed.

Create HintDb shapes.
#[local] Hint Resolve fits_half fits_iter_half glorot_uniform_known : shapes.

(** Side conditions of the shape rules: positive counts, a known
    initialiser, sides that are not empty. *)
Ltac shape_side :=
  solve [ assumption | reflexivity | lia | auto with shapes ].

(** A call in a state whose graph is [g] followed by the nodes [d] added so
    far. *)
Lemma call_at l xs s g d o :
  compute_output_shape l (map t_shape xs) = Some s ->
  call l xs {| nodes := g ++ d; self := o |} =
    ({| nodes := g ++ (d ++ [mk l xs (length g + length d) s]); self := o |},
     Ok (T (length g + length d) s)).
Proof.
  intros H. rewrite (call_ok _ _ s) by exact H.
  cbn [nodes self]. now rewrite length_app, app_assoc.
Qed.

Ltac shape_goal :=
  cbn [map t_shape T];
  first [ apply shape_ReLU
        | apply shape_BatchNormalization
        | apply shape_Add_same
        | apply shape_GlobalAveragePooling2D
        | apply shape_MaxPooling2D_same_stride2
        | apply shape_Conv2D_same_stride2; shape_side
        | apply shape_Conv2D_same_stride1; shape_side
        | apply shape_SeparableConv2D_same_stride1; shape_side
        | apply shape_Dense; shape_side ].

Ltac run_call :=
  first [ erewrite bind_ok by (apply call_at; shape_goal)
        | erewrite call_at by shape_goal ];
  cbn [app length].

Ltac start_at g o :=
  replace {| nodes := g; self := o |} with {| nodes := g ++ []; self := o |}
    by (now rewrite app_nil_r).

(** ** The batch axis *)

Lemma merge_all_batch b rest : forall s s',
  hd_error s = Some b -> Forall (fun r => hd_error r = Some b) rest ->
  merge_all s rest = Some s' -> hd_error s' = Some b.
Proof.
  induction rest as [| r rest IH]; intros s s' Hs Hall H; cbn [merge_all] in H.
  - now injection H as <-.
  - inversion Hall as [| ? ? Hr Hrest]; subst.
    destruct (merge_shapes s r) as [s1 |] eqn:E; [| discriminate].
    apply (IH s1 s'); [| exact Hrest | exact H].
    unfold merge_shapes in E.
    destruct s as [| b1 r1]; [discriminate |]. destruct r as [| b2 r2]; [discriminate |].
    cbn [hd_error] in Hs, Hr. injection Hs as ->. injection Hr as ->.
    rewrite merge_batch_same in E.
    destruct (compute_elemwise_op_output_shape r1 r2); [| discriminate].
    now injection E as <-.
Qed.

(** Every layer of the builders hands the batch axis of its operands on. *)
Lemma call_batch_axis l xs st st' y b :
  xs <> [] -> Forall (batch_axis b) xs ->
  call l xs st = (st', Ok y) -> batch_axis b y.
Proof.
  intros Hne Hall H. apply call_ok_inv in H as (E & _). unfold batch_axis in *.
  destruct xs as [| x xs]; [contradiction |].
  inversion Hall as [| ? ? Hx Hxs]; subst. clear Hne Hall.
  destruct l.
  - apply compute_output_shape_inv in E as [_ E]. discriminate.
  - destruct xs; [| apply compute_output_shape_inv in E as [_ E]; discriminate].
    apply Conv2D_ok_inv in E
      as (_ & _ & batch & h & w & c & h' & w' & Es & Hb & _ & _ & _ & ->).
    rewrite Es in Hx. destruct batch; [contradiction | exact Hx].
  - destruct xs; [| apply compute_output_shape_inv in E as [_ E]; discriminate].
    apply SeparableConv2D_ok_inv in E
      as (_ & _ & b0 & h & w & c & h' & w' & Es & _ & _ & _ & _ & _ & ->).
    now rewrite Es in Hx.
  - apply compute_output_shape_inv in E as [_ E].
    destruct xs; [| cbn in E; now destruct (t_shape x) as [| ? [| ? [| ? [| ? [| ? ?]]]]] ].
    cbn [map call_output_shape] in E.
    destruct (t_shape x) as [| ? [| ? [| ? [| ? [| ? ?]]]]]; try discriminate.
    apply window_output_shape_batch in E as (? & ? & ? & ? & ? & ? & [= <- _ _ _] & ->).
    exact Hx.
  - destruct xs; [| apply compute_output_shape_inv in E as [_ E]; discriminate].
    apply BatchNormalization_shape in E as [-> _]. exact Hx.
  - apply compute_output_shape_inv in E as [_ E].
    destruct xs; [| discriminate]. injection E as <-. exact Hx.
  - apply compute_output_shape_inv in E as [_ E].
    destruct xs; [| cbn in E; now destruct (t_shape x)].
    cbn [map call_output_shape] in E.
    destruct (t_shape x) as [| b0 rest]; [discriminate |]. injection E as <-. exact Hx.
  - apply compute_output_shape_inv in E as [_ E].
    destruct xs; [| cbn in E; now destruct (t_shape x) as [| ? [| ? [| ? [| ? [| ? ?]]]]] ].
    cbn [map call_output_shape] in E.
    destruct (t_shape x) as [| ? [| ? [| ? [| ? [| ? ?]]]]]; try discriminate.
    injection E as <-. exact Hx.
  - apply compute_output_shape_inv in E as [_ E].
    destruct xs; [| cbn in E; now destruct (t_shape x) as [| ? [| ? ?]] ].
    cbn [map call_output_shape] in E.
    destruct (t_shape x) as [| d1 [| d2 r]]; try discriminate.
    destruct (last _ _); [| discriminate]. injection E as <-. exact Hx.
  - apply compute_output_shape_inv in E as [_ E].
    destruct xs as [| x2 xs]; [discriminate |].
    cbn [map call_output_shape] in E.
    apply (merge_all_batch b) in E; [exact E | exact Hx |].
    change (Forall (fun r => hd_error r = Some b) (map t_shape (x2 :: xs))).
    apply Forall_map. exact Hxs.
Qed.

(** Take a successful run of layer calls apart, one call at a time, handing
    the batch axis on. *)
Ltac batch_calls H b :=
  repeat (let st := fresh "st" in
          let x := fresh "x" in
          let Hc := fresh "Hc" in
          apply bind_ok_inv in H as (st & x & Hc & H);
          apply (call_batch_axis _ _ _ _ _ b) in Hc;
          [| discriminate | repeat constructor; assumption]);
  apply (call_batch_axis _ _ _ _ _ b) in H;
  [exact H | discriminate | repeat constructor; assumption].

(** A loop keeps what every round of its body keeps. *)
Lemma for_each_invariant {A B} (P : B -> Prop) (xs : list A) (body : A -> B -> M B) :
  (forall a b st st' b', P b -> body a b st = (st', Ok b') -> P b') ->
  forall acc st st' y,
    P acc -> for_each xs body acc st = (st', Ok y) -> P y.
Proof.
  intros Hb. induction xs as [| a xs IH]; intros acc st st' y Hacc H; cbn in H.
  - now injection H as <- <-.
  - apply bind_ok_inv in H as (st1 & b1 & H1 & H2). eauto.
Qed.

(** ** The VGG learner *)

Lemma range_length n : length (range n) = Z.to_nat n.
Proof. apply length_seq. Qed.

Lemma range_nonpositive n : (n <= 0)%Z -> range n = [].
Proof. intros H. unfold range. now replace (Z.to_nat n) with 0%nat by lia. Qed.

Lemma range_width {B} n (f c : B) :
  match range n with [] => c | _ => f end = if (0 <? n)%Z then f else c.
Proof.
  destruct (Z.ltb_spec 0 n) as [H | H].
  - unfold range. destruct (Z.to_nat n) eqn:E; [lia | reflexivity].
  - now rewrite range_nonpositive.
Qed.

Lemma VGG_group_sequential x n f st st' y :
  VGG.group x n f None st = (st', Ok y) ->
  sequential (stage_layers (n, f)) x st st' y.
Proof.
  unfold VGG.group. intros H.
  apply bind_ok_inv in H as (st1 & x1 & H1 & H2).
  apply for_each_call_sequential in H1. rewrite range_length in H1.
  eapply sequential_app; eauto using sequential_call.
Qed.

Lemma VGG_learner_sequential blocks x st st' y :
  VGG.learner x blocks st = (st', Ok y) ->
  sequential (flat_map stage_layers blocks) x st st' y.
Proof.
  unfold VGG.learner. revert x st.
  induction blocks as [| [n f] blocks IH]; intros x st H; cbn in *.
  - injection H as <- <-. apply sequential_nil.
  - apply bind_ok_inv in H as (st1 & x1 & H1 & H2).
    eapply sequential_app; eauto using VGG_group_sequential.
Qed.

(** *** Shapes through the learner *)

Lemma conv_loop_dims {A} (xs : list A) f k a i x st batch h w c :
  t_shape x = batch ++ [h; w; Some c] -> batch <> [] ->
  (xs <> [] -> (0 < f)%N /\ (0 < c)%N /\ known_initializer i = true) ->
  exists st' y,
    for_each xs (fun _ x => call (Conv2D f k (1, 1)%N same a i) [x]) x st = (st', Ok y) /\
    t_shape y = batch ++ [h; w; Some (match xs with [] => c | _ => f end)] /\
    length (nodes st') = (length (nodes st) + length xs)%nat /\
    self st' = self st.
Proof.
  intros Hx Hb. revert x st c Hx.
  induction xs as [| e xs IH]; intros x st c Hx Hpos; cbn [for_each].
  - exists st, x. cbn [length]. rewrite Nat.add_0_r. auto.
  - destruct Hpos as (Hf & Hc & Hi); [discriminate |].
    erewrite bind_ok.
    2:{ apply call_ok. cbn [map]. rewrite Hx.
        apply shape_Conv2D_batch; auto using conv_output_length_same_stride1. }
    match goal with
    | |- context [for_each xs _ ?x1 ?s1] =>
        destruct (IH x1 s1 f eq_refl) as (st' & y & Hr & Hy & Hl & Hs); [auto |]
    end.
    exists st', y. split; [exact Hr |]. split.
    + rewrite Hy. now destruct xs.
    + cbn [nodes self length] in *. rewrite Hl, length_app. cbn [length]. split; [lia | exact Hs].
Qed.

Lemma VGG_group_dims x n f iw st b h w c :
  t_shape x = [b; h; w; Some c] -> fits 2 h -> fits 2 w ->
  ((0 < n)%Z ->
   (0 < f)%N /\ (0 < c)%N /\ known_initializer (group_initializer iw) = true) ->
  exists st' y,
    VGG.group x n f iw st = (st', Ok y) /\
    t_shape y = [b; scale_down 2 h; scale_down 2 w;
                 Some (if (0 <? n)%Z then f else c)] /\
    length (nodes st') = (length (nodes st) + Z.to_nat n + 1)%nat /\
    self st' = self st.
Proof.
  intros Hx Hh Hw Hpos. unfold VGG.group.
  edestruct (conv_loop_dims (range n) f (3, 3)%N relu (group_initializer iw) x st [b])
    as (st1 & x1 & H1 & Hx1 & Hl1 & Hs1); [exact Hx | discriminate | |].
  { intros Hne. apply Hpos. destruct (Z.ltb_spec 0 n) as [| Hn]; [assumption |].
    now rewrite range_nonpositive in Hne. }
  unfold group_initializer in H1. erewrite bind_ok by exact H1.
  erewrite call_ok.
  2:{ cbn [map]. rewrite Hx1. now apply shape_pool2x2_dim. }
  do 2 eexists. split; [reflexivity |]. cbn [t_shape nodes self].
  rewrite range_width, length_app, Hl1, range_length. cbn [length]. auto.
Qed.

Lemma min_side_cons s blocks : min_side (s :: blocks) = (2 * min_side blocks)%N.
Proof.
  unfold min_side. cbn [length]. now rewrite Nat2N.inj_succ, N.pow_succ_r'.
Qed.

Lemma min_side_pos blocks : (0 < min_side blocks)%N.
Proof. unfold min_side. apply N.neq_0_lt_0, N.pow_nonzero. discriminate. Qed.

Lemma stage_width_pos (stage : Z * N) c :
  stage_has_filters stage -> (0 < c)%N ->
  (0 < (if (0 <? fst stage)%Z then snd stage else c))%N.
Proof.
  intros Hs Hc. destruct (Z.ltb_spec 0 (fst stage)); [now apply Hs | exact Hc].
Qed.

Lemma VGG_learner_dims blocks x st b h w c :
  t_shape x = [b; h; w; Some c] -> (0 < c)%N ->
  Forall stage_has_filters blocks ->
  fits (min_side blocks) h -> fits (min_side blocks) w ->
  exists st' y,
    VGG.learner x blocks st = (st', Ok y) /\
    t_shape y = [b; scale_down (min_side blocks) h; scale_down (min_side blocks) w;
                 Some (learner_width blocks c)] /\
    self st' = self st.
Proof.
  unfold VGG.learner. intros Hx Hc Hall. revert x st h w c Hx Hc.
  induction Hall as [| [n f] blocks Hs _ IH]; intros x st h w c Hx Hc Hh Hw.
  - exists st, x. split; [reflexivity |]. split; [| reflexivity].
    change (min_side []) with 1%N. now rewrite !scale_down_1.
  - rewrite min_side_cons in *. pose proof (min_side_pos blocks) as Hpos.
    destruct (VGG_group_dims x n f None st b h w c Hx) as (st1 & x1 & H1 & Hx1 & _ & Hs1).
    { eapply fits_weaken; [| exact Hh]. lia. }
    { eapply fits_weaken; [| exact Hw]. lia. }
    { intros Hn. split; [now apply Hs |]. split; [exact Hc | reflexivity]. }
    cbn [for_each]. erewrite bind_ok by exact H1.
    destruct (IH x1 st1 _ _ _ Hx1) as (st' & y & H2 & Hy & Hs2);
      [now apply (stage_width_pos (n, f))
      | now apply fits_scale_down | now apply fits_scale_down |].
    exists st', y. split; [exact H2 |]. split; [| congruence].
    now rewrite Hy, !scale_down_scale_down.
Qed.

Lemma groups_have_filters :
  Forall stage_has_filters VGG16_groups /\ Forall stage_has_filters VGG19_groups.
Proof. split; repeat constructor. Qed.

Lemma VGG_group_fail x n f st b h w c :
  t_shape x = [b; Some h; Some w; Some c] ->
  (0 < f)%N -> (0 < c)%N ->
  (h < 2)%N \/ (w < 2)%N ->
  exists st' y,
    VGG.group x n f None st = (st', Raise (ValueError pool2x2)) /\
    sequential (repeat (conv3x3 f) (Z.to_nat n)) x st st' y.
Proof.
  intros Hx Hf Hc Hhw. unfold VGG.group.
  edestruct (conv_loop_dims (range n) f (3, 3)%N relu VGG.init_weights x st [b])
    as (st1 & x1 & H1 & Hx1 & _); [exact Hx | discriminate | auto |].
  erewrite bind_ok by exact H1.
  rewrite call_raise.
  - exists st1, x1. split; [reflexivity |].
    apply for_each_call_sequential in H1. now rewrite range_length in H1.
  - cbn [map]. rewrite Hx1. now apply pool2x2_small.
Qed.

Lemma removelast_app_nonempty {A} (a b : list A) :
  b <> [] -> removelast (a ++ b) = a ++ removelast b.
Proof. intros H. now apply removelast_app. Qed.

Lemma stage_layers_nonempty s : stage_layers s <> [].
Proof. unfold stage_layers. destruct (repeat _ _); discriminate. Qed.

Lemma VGG_learner_fail blocks x st b h w c :
  t_shape x = [b; Some h; Some w; Some c] -> (0 < c)%N ->
  Forall (fun stage : Z * N => (0 < snd stage)%N) blocks ->
  blocks <> [] ->
  (h < min_side blocks)%N \/ (w < min_side blocks)%N ->
  exists st' k d,
    (k < length blocks)%nat /\
    VGG.learner x blocks st = (st', Raise (ValueError pool2x2)) /\
    nodes st' = nodes st ++ d /\ self st' = self st /\
    map n_layer d = removelast (flat_map stage_layers (firstn (S k) blocks)).
Proof.
  unfold VGG.learner. intros Hx Hc Hall. revert x st h w c Hx Hc.
  induction Hall as [| [n f] blocks Hf Hall IH]; intros x st h w c Hx Hc Hne Hhw;
    [contradiction |].
  cbn [snd] in Hf. rewrite min_side_cons in Hhw. cbn [for_each].
  destruct (N.ltb_spec h 2) as [Hh | Hh]; [| destruct (N.ltb_spec w 2) as [Hw | Hw]].
  1,2: destruct (VGG_group_fail x n f st b h w c Hx Hf Hc)
         as (st' & y & H1 & d & Hn & Hs & Hl & _);
    [auto |];
    exists st', 0%nat, d; erewrite bind_raise by exact H1;
    repeat split; auto; [cbn; lia |];
    cbn [firstn flat_map]; rewrite app_nil_r; unfold stage_layers;
    cbn [fst snd]; now rewrite removelast_last.
  destruct (VGG_group_dims x n f None st b (Some h) (Some w) c Hx Hh Hw)
    as (st1 & x1 & H1 & Hx1 & _); [intros _; repeat split; assumption |].
  erewrite bind_ok by exact H1.
  assert (Hne' : blocks <> []).
  { intros ->. unfold min_side in Hhw. cbn in Hhw. lia. }
  cbn [scale_down option_map] in Hx1.
  destruct (IH x1 st1 _ _ _ Hx1) as (st' & k & d & Hk & H2 & Hn & Hs & Hl).
  { now destruct (0 <? n)%Z. }
  { exact Hne'. }
  { destruct Hhw as [H | H]; [left | right];
      apply N.Div0.div_lt_upper_bound; lia. }
  apply VGG_group_sequential in H1 as (d1 & Hn1 & Hs1 & Hl1 & _).
  exists st', (S k), (d1 ++ d). repeat split.
  - cbn. lia.
  - exact H2.
  - now rewrite Hn, Hn1, app_assoc.
  - now rewrite Hs, Hs1.
  - rewrite map_app, Hl1, Hl.
    change (firstn (S (S k)) ((n, f) :: blocks)) with ((n, f) :: firstn (S k) blocks).
    cbn [flat_map]. rewrite removelast_app_nonempty; [reflexivity |].
    destruct blocks as [| s blocks]; [contradiction |].
    cbn [firstn flat_map]. intros E. apply app_eq_nil in E as [E _].
    now apply stage_layers_nonempty in E.
Qed.

Lemma groups_filters_positive :
  Forall (fun stage : Z * N => (0 < snd stage)%N) VGG16_groups /\
  Forall (fun stage : Z * N => (0 < snd stage)%N) VGG19_groups.
Proof. split; repeat constructor. Qed.

(** *** The batch axis through VGG *)

Lemma VGG_learner_batch_axis blocks x st st' y b :
  batch_axis b x -> VGG.learner x blocks st = (st', Ok y) -> batch_axis b y.
Proof.
  unfold VGG.learner. intros Hx. apply for_each_invariant; [| exact Hx].
  intros [n f] x0 st0 st1 x1 Hx0 H. unfold VGG.group in H.
  apply bind_ok_inv in H as (st2 & x2 & H2 & H3).
  apply (call_batch_axis _ _ _ _ _ b) in H3; [exact H3 | discriminate |].
  repeat constructor. revert H2. apply for_each_invariant; [| exact Hx0].
  intros _ x3 ? ? ? Hx3 H. apply (call_batch_axis _ _ _ _ _ b) in H;
    [exact H | discriminate | now repeat constructor].
Qed.

(** *** The classifier and whole constructions *)

(** Whenever the classifier returns, the node it added last is the softmax
    dense layer of [n_classes] units, and its output has shape
    [(b, n_classes)]. *)
Lemma VGG_classifier_last x n_classes st st' y b :
  batch_axis b x ->
  VGG.classifier x n_classes st = (st', Ok y) ->
  exists g x',
    nodes st' = g ++ [{| n_layer := dense_out n_classes; n_inputs := [x'];
                         n_output := y |}] /\
    self st' = self st /\
    t_shape y = [b; Some n_classes].
Proof.
  intros Hx H. unfold VGG.classifier in H.
  apply bind_ok_inv in H as (st1 & x1 & H1 & H).
  apply bind_ok_inv in H as (st2 & x2 & H2 & H).
  apply bind_ok_inv in H as (st3 & x3 & H3 & H4).
  apply call_ok_inv in H1 as (E1 & _ & _ & S1).
  apply call_ok_inv in H2 as (E2 & _ & _ & S2).
  apply call_ok_inv in H3 as (E3 & _ & _ & S3).
  apply call_ok_inv in H4 as (E4 & _ & N4 & S4).
  exists (nodes st3), x3. split; [exact N4 |]. split; [congruence |].
  cbn [map] in *. apply compute_output_shape_inv in E1 as [_ E1].
  unfold batch_axis in Hx. cbn [call_output_shape] in E1.
  destruct (t_shape x) as [| b0 rest]; [discriminate |].
  injection Hx as ->. injection E1 as E1.
  rewrite <- E1 in E2. apply Dense_ok_inv in E2 as (_ & _ & E2).
  rewrite E2 in E3. apply Dense_ok_inv in E3 as (_ & _ & E3).
  rewrite E3 in E4. now apply Dense_ok_inv in E4 as (_ & _ & E4).
Qed.

Lemma VGG_classifier_run x n_classes st b h w c :
  t_shape x = [b; Some h; Some w; Some c] ->
  exists tail,
    VGG.classifier x n_classes st =
    ({| nodes := nodes st ++
          {| n_layer := Flatten; n_inputs := [x];
             n_output := {| t_id := length (nodes st);
                            t_shape := [b; Some (h * w * c)%N] |} |} :: tail;
        self := self st |},
     Ok {| t_id := length (nodes st) + 3; t_shape := [b; Some n_classes] |}) /\
    map n_layer tail =
      [Dense 4096 relu VGG.init_weights; Dense 4096 relu VGG.init_weights;
       Dense n_classes softmax VGG.init_weights].
Proof.
  intros Hx. unfold VGG.classifier.
  erewrite bind_ok.
  2:{ apply call_ok. cbn [map]. rewrite Hx. unfold compute_output_shape.
      cbn [constructible call_output_shape prod_dims].
      replace (h * (w * (c * 1)))%N with (h * w * c)%N by lia. reflexivity. }
  erewrite bind_ok by (apply call_ok; reflexivity).
  erewrite bind_ok by (apply call_ok; reflexivity).
  erewrite call_ok by reflexivity.
  cbn [nodes self]. rewrite !length_app. cbn [length].
  replace (length (nodes st) + 1 + 1 + 1)%nat with (length (nodes st) + 3)%nat by lia.
  eexists. rewrite <- !app_assoc. cbn [app]. split; reflexivity.
Qed.

Lemma VGG_classifier_ok x n_classes st b h w c :
  t_shape x = [b; Some h; Some w; Some c] ->
  exists st' y, VGG.classifier x n_classes st = (st', Ok y) /\ self st' = self st.
Proof.
  intros Hx.
  destruct (VGG_classifier_run x n_classes st b h w c Hx) as (tail & Hr & _).
  rewrite Hr. do 2 eexists. split; reflexivity.
Qed.

(** The constructor with a supported selector, step by step. *)
Lemma VGG_init_valid n_layers input_shape n_classes blocks :
  (n_layers = 16%Z /\ blocks = VGG16_groups) \/
  (n_layers = 19%Z /\ blocks = VGG19_groups) ->
  VGG.__init__ n_layers input_shape n_classes =
  (inputs <- Input input_shape ;;
   x <- VGG.stem inputs ;;
   x <- VGG.learner x blocks ;;
   outputs <- VGG.classifier x n_classes ;;
   set_model (PyModel {| inputs := inputs; outputs := outputs |})).
Proof. intros [[-> ->] | [-> ->]]; reflexivity. Qed.

Lemma Input_run input_shape st :
  Input input_shape st =
  ({| nodes := nodes st ++
        [{| n_layer := InputLayer (None :: input_shape); n_inputs := [];
            n_output := {| t_id := length (nodes st); t_shape := None :: input_shape |} |}];
      self := self st |},
   Ok {| t_id := length (nodes st); t_shape := None :: input_shape |}).
Proof. reflexivity. Qed.

Lemma VGG_stem_dims x st b h w c :
  t_shape x = [b; h; w; Some c] -> (0 < c)%N ->
  VGG.stem x st =
  ({| nodes := nodes st ++
        [{| n_layer := conv3x3 64; n_inputs := [x];
            n_output := {| t_id := length (nodes st);
                           t_shape := [b; h; w; Some 64%N] |} |}];
      self := self st |},
   Ok {| t_id := length (nodes st); t_shape := [b; h; w; Some 64%N] |}).
Proof.
  intros Hx Hc. apply call_ok. cbn [map]. rewrite Hx.
  now apply shape_Conv2D_same_stride1.
Qed.

Lemma VGG_classifier_appended x n_classes st st' y :
  VGG.classifier x n_classes st = (st', Ok y) ->
  appended (classifier_layers n_classes) st st'.
Proof. unfold VGG.classifier. intros H. invert_calls H. Qed.

Lemma VGG_init_appended n_layers blocks input_shape n_classes st st' :
  (n_layers = 16%Z /\ blocks = VGG16_groups) \/
  (n_layers = 19%Z /\ blocks = VGG19_groups) ->
  VGG.__init__ n_layers input_shape n_classes st = (st', Ok tt) ->
  exists d,
    nodes st' = nodes st ++ d /\
    map n_layer d =
      InputLayer (None :: input_shape) :: conv3x3 64
        :: flat_map stage_layers blocks ++ classifier_layers n_classes.
Proof.
  intros Hsel H. rewrite (VGG_init_valid _ _ _ blocks Hsel) in H.
  apply bind_ok_inv in H as (st1 & x0 & H0 & H).
  apply bind_ok_inv in H as (st2 & x1 & H1 & H).
  apply bind_ok_inv in H as (st3 & x2 & H2 & H).
  apply bind_ok_inv in H as (st4 & x3 & H3 & H4).
  apply appended_call in H0, H1.
  apply VGG_learner_sequential, sequential_appended in H2.
  apply VGG_classifier_appended in H3. injection H4 as <-.
  destruct (appended_app _ _ _ _ _ H0
              (appended_app _ _ _ _ _ H1 (appended_app _ _ _ _ _ H2 H3)))
    as (d & Hn & _ & Hl).
  exists d. split; [exact Hn | exact Hl].
Qed.

Lemma groups_min_side n_layers blocks :
  In (n_layers, blocks) VGG.groups ->
  min_side blocks = 32%N /\ Forall stage_has_filters blocks.
Proof.
  intros [[= <- <-] | [[= <- <-] | []]];
    (split; [reflexivity | apply groups_have_filters]).
Qed.

(** C7: whenever the learner returns, what it added to the graph is one
    pipeline from its input to its output whose layers are, stage by stage in
    table order, [repeat] same-padded stride-1 3x3 convolutions of the
    stage's width followed by one 2x2 stride-2 max-pool; every node has the
    previous node's output as its only input.  Selectors 16 and 19 pick the
    two five-stage tables of the class; a construction with such a selector
    that returns added the placeholder, the stem, the stages of the selected
    table and the classifier, and on feature maps of at least 32 by 32 with
    at least one channel the learner does return. *)
Theorem VGG_learner_stages :
  (forall blocks x st st' y,
      VGG.learner x blocks st = (st', Ok y) ->
      exists d,
        nodes st' = nodes st ++ d /\
        map n_layer d =
          flat_map (fun stage : Z * N =>
                      repeat (Conv2D (snd stage) (3, 3)%N (1, 1)%N same relu VGG.init_weights)
                             (Z.to_nat (fst stage))
                      ++ [MaxPooling2D (2, 2)%N (2, 2)%N valid]) blocks /\
        chain x d /\ y = chain_end x d) /\
  (forall st, VGG.getitem VGG.groups 16 st =
              (st, Ok [ (1%Z, 64%N); (2%Z, 128%N); (3%Z, 256%N); (3%Z, 512%N); (3%Z, 512%N) ])) /\
  (forall st, VGG.getitem VGG.groups 19 st =
              (st, Ok [ (1%Z, 64%N); (2%Z, 128%N); (4%Z, 256%N); (4%Z, 256%N); (4%Z, 256%N) ])) /\
  (forall n_layers blocks input_shape n_classes st st',
      In (n_layers, blocks) VGG.groups ->
      VGG.__init__ n_layers input_shape n_classes st = (st', Ok tt) ->
      length blocks = 5%nat /\
      exists d,
        nodes st' = nodes st ++ d /\
        map n_layer d =
          InputLayer (None :: input_shape) :: conv3x3 64
            :: flat_map stage_layers blocks ++ classifier_layers n_classes) /\
  (forall n_layers blocks x st b h w c,
      In (n_layers, blocks) VGG.groups ->
      t_shape x = [b; Some h; Some w; Some c] ->
      (32 <= h)%N -> (32 <= w)%N -> (0 < c)%N ->
      exists st' y, VGG.learner x blocks st = (st', Ok y)).
Proof.
  split; [| split; [| split; [| split]]].
  - intros blocks x st st' y H.
    apply VGG_learner_sequential in H as (d & Hn & _ & Hl & Hc & Hy).
    exists d. auto.
  - reflexivity.
  - reflexivity.
  - intros n_layers blocks input_shape n_classes st st' Hin H.
    assert (Hsel : (n_layers = 16%Z /\ blocks = VGG16_groups) \/
                   (n_layers = 19%Z /\ blocks = VGG19_groups)).
    { destruct Hin as [[= <- <-] | [[= <- <-] | []]]; auto. }
    split; [destruct Hsel as [[_ ->] | [_ ->]]; reflexivity |].
    now apply (VGG_init_appended n_layers).
  - intros n_layers blocks x st b h w c Hin Hx Hh Hw Hc.
    destruct (groups_min_side _ _ Hin) as [Hmin Hall].
    destruct (VGG_learner_dims blocks x st b (Some h) (Some w) c Hx Hc Hall)
      as (st' & y & Hr & _); [now rewrite Hmin | now rewrite Hmin |].
    now exists st', y.
Qed.

Lemma VGG_learner_stages_witness :
  let x := {| t_id := 1; t_shape := [None; Some 32; Some 32; Some 64]%N |} in
  let st := fst (VGG.stem {| t_id := 0; t_shape := [None; Some 32; Some 32; Some 3]%N |}
                   (fst (Input [Some 32; Some 32; Some 3]%N fresh))) in
  (exists d,
      nodes (fst (VGG.learner x VGG16_groups st)) = nodes st ++ d /\
      length d = 17%nat /\ chain x d) /\
  (length VGG16_groups = 5%nat /\
   exists d,
     nodes (fst (VGG.__init__ 16 [Some 32; Some 32; Some 3]%N 10 fresh)) = nodes fresh ++ d /\
     length d = 23%nat) /\
  (exists st' y, VGG.learner x VGG19_groups st = (st', Ok y)).
Proof.
  intros x st. split; [| split].
  - destruct (proj1 VGG_learner_stages VGG16_groups x st
                (fst (VGG.learner x VGG16_groups st))
                {| t_id := 18; t_shape := [None; Some 1; Some 1; Some 512]%N |})
      as (d & Hn & Hl & Hc & _).
    + vm_compute. reflexivity.
    + exists d. repeat split; auto.
      apply (f_equal (@length _)) in Hl. now rewrite length_map in Hl.
  - destruct (proj1 (proj2 (proj2 (proj2 VGG_learner_stages)))
                16%Z VGG16_groups [Some 32; Some 32; Some 3]%N 10%N fresh
                (fst (VGG.__init__ 16 [Some 32; Some 32; Some 3]%N 10 fresh)))
      as (Hlen & d & Hn & Hl).
    + left. reflexivity.
    + vm_compute. reflexivity.
    + split; [exact Hlen |]. exists d. split; [exact Hn |].
      apply (f_equal (@length _)) in Hl. now rewrite length_map in Hl.
  - apply (proj2 (proj2 (proj2 (proj2 VGG_learner_stages))) 19%Z VGG19_groups x st
             None 32%N 32%N 64%N).
    + right. left. reflexivity.
    + reflexivity.
    + vm_compute. discriminate.
    + vm_compute. discriminate.
    + reflexivity.
Defined.

(** C9: with selector 16 or 19, constructing VGG on an input of shape
    [(h, w, c)] with [c > 0] succeeds and stores a model when [h >= 32] and
    [w >= 32]; when [h < 32] or [w < 32] it raises in the max-pool of one of
    the five stages: the graph then holds the placeholder, the stem and
    every layer of the first [k + 1] stages but that stage's pool, for some
    [k < 5], and [_model] is untouched. *)
Theorem VGG_init_input_size n_layers blocks h w c n_classes st :
  (n_layers = 16%Z /\ blocks = VGG16_groups) \/
  (n_layers = 19%Z /\ blocks = VGG19_groups) ->
  (0 < c)%N ->
  ((32 <= h)%N -> (32 <= w)%N ->
   exists st' m,
     VGG.__init__ n_layers [Some h; Some w; Some c] n_classes st = (st', Ok tt) /\
     self st' = {| _model := PyModel m |}) /\
  ((h < 32)%N \/ (w < 32)%N ->
   exists st' k d,
     (k < 5)%nat /\
     VGG.__init__ n_layers [Some h; Some w; Some c] n_classes st
       = (st', Raise (ValueError (MaxPooling2D (2, 2)%N (2, 2)%N valid))) /\
     self st' = self st /\
     nodes st' = nodes st ++ d /\
     map n_layer d =
       InputLayer [None; Some h; Some w; Some c] :: conv3x3 64
         :: removelast (flat_map stage_layers (firstn (S k) blocks))).
Proof.
  intros Hsel Hc. rewrite (VGG_init_valid _ _ _ blocks Hsel).
  assert (Hfacts : min_side blocks = 32%N /\ length blocks = 5%nat /\ blocks <> [] /\
                   Forall stage_has_filters blocks /\
                   Forall (fun stage : Z * N => (0 < snd stage)%N) blocks).
  { destruct Hsel as [[_ ->] | [_ ->]]; repeat split;
      try discriminate; try apply groups_have_filters; apply groups_filters_positive. }
  destruct Hfacts as (Hmin & Hlen & Hne & Hall & Hpos).
  erewrite bind_ok by apply Input_run.
  erewrite bind_ok by (eapply VGG_stem_dims; [reflexivity | exact Hc]).
  cbn [nodes self].
  match goal with
  | |- context [bind (VGG.learner ?x0 _) _ ?s] => set (x := x0); set (st1 := s)
  end.
  split.
  - intros Hh Hw.
    destruct (VGG_learner_dims blocks x st1 None (Some h) (Some w) 64 eq_refl)
      as (st2 & y & H2 & Hy & _);
      [reflexivity | exact Hall | now rewrite Hmin | now rewrite Hmin |].
    erewrite bind_ok by exact H2.
    destruct (VGG_classifier_ok y n_classes st2 _ _ _ _ Hy) as (st3 & z & H3 & _).
    erewrite bind_ok by exact H3.
    do 2 eexists. split; reflexivity.
  - intros Hhw.
    destruct (VGG_learner_fail blocks x st1 None h w 64 eq_refl)
      as (st2 & k & d & Hk & H2 & Hn & Hs & Hl);
      [reflexivity | exact Hpos | exact Hne | now rewrite Hmin |].
    erewrite bind_raise by exact H2.
    exists st2, k. eexists (_ :: _ :: d). repeat split.
    + now rewrite <- Hlen.
    + exact Hs.
    + rewrite Hn. subst st1. cbn [nodes]. rewrite <- !app_assoc. reflexivity.
    + cbn [map n_layer]. now rewrite Hl.
Qed.

Lemma VGG_init_input_size_witness :
  (exists st' m,
      VGG.__init__ 16 [Some 32; Some 32; Some 3]%N 10 fresh = (st', Ok tt) /\
      self st' = {| _model := PyModel m |}) /\
  (exists st' k d,
      (k < 5)%nat /\
      VGG.__init__ 19 [Some 40; Some 31; Some 3]%N 10 fresh
        = (st', Raise (ValueError (MaxPooling2D (2, 2)%N (2, 2)%N valid))) /\
      self st' = self fresh /\
      nodes st' = nodes fresh ++ d /\
      map n_layer d =
        InputLayer [None; Some 40; Some 31; Some 3]%N :: conv3x3 64
          :: removelast (flat_map stage_layers (firstn (S k) VGG19_groups))).
Proof.
  split.
  - apply (proj1 (VGG_init_input_size 16 VGG16_groups 32 32 3 10 fresh
                    (or_introl (conj eq_refl eq_refl)) eq_refl)); discriminate.
  - apply (proj2 (VGG_init_input_size 19 VGG19_groups 40 31 3 10 fresh
                    (or_intror (conj eq_refl eq_refl)) eq_refl)).
    right. reflexivity.
Defined.

(** C6: whenever the VGG constructor returns, the node it added last is a
    dense layer of [n_classes] units with softmax activation, the stored
    model's output is that node's output, and its shape is
    [(None, n_classes)].  VGG(16) on (224, 224, 3) with 1000 classes returns,
    with output shape [(None, 1000)]. *)
Theorem VGG_output_layer :
  (forall n_layers input_shape n_classes st st',
      VGG.__init__ n_layers input_shape n_classes st = (st', Ok tt) ->
      exists m g x,
        self st' = {| _model := PyModel m |} /\
        nodes st' = g ++ [{| n_layer := Dense n_classes softmax VGG.init_weights;
                             n_inputs := [x]; n_output := outputs m |}] /\
        t_shape (outputs m) = [None; Some n_classes]) /\
  (exists st' m,
      VGG.__init__ 16 [Some 224; Some 224; Some 3]%N 1000 fresh = (st', Ok tt) /\
      self st' = {| _model := PyModel m |} /\
      t_shape (outputs m) = [None; Some 1000%N]).
Proof.
  split.
  - intros n_layers input_shape n_classes st st' H.
    assert (Hsel : exists blocks,
               (n_layers = 16%Z /\ blocks = VGG16_groups) \/
               (n_layers = 19%Z /\ blocks = VGG19_groups)).
    { unfold VGG.__init__ in H. cbn [existsb] in H.
      destruct (Z.eqb_spec n_layers 16) as [-> | _]; [eauto |].
      destruct (Z.eqb_spec n_layers 19) as [-> | _]; [eauto |].
      discriminate. }
    destruct Hsel as (blocks & Hsel).
    rewrite (VGG_init_valid _ _ _ blocks Hsel) in H.
    apply bind_ok_inv in H as (st1 & x0 & H0 & H).
    apply bind_ok_inv in H as (st2 & x1 & H1 & H).
    apply bind_ok_inv in H as (st3 & x2 & H2 & H).
    apply bind_ok_inv in H as (st4 & y & H3 & H4).
    rewrite Input_run in H0. injection H0 as _ <-.
    apply (call_batch_axis _ _ _ _ _ None) in H1;
      [| discriminate | now repeat constructor].
    apply VGG_learner_batch_axis with (b := None) in H2; [| exact H1].
    destruct (VGG_classifier_last _ _ _ _ _ None H2 H3) as (g & x' & Hn & _ & Hy).
    injection H4 as <-.
    exists {| inputs := {| t_id := length (nodes st); t_shape := None :: input_shape |};
              outputs := y |}, g, x'.
    repeat split; assumption.
  - do 2 eexists. split; [vm_compute; reflexivity |]. split; reflexivity.
Qed.

Lemma VGG_output_layer_witness :
  let st' := fst (VGG.__init__ 19 [Some 64; Some 96; Some 1]%N 10 fresh) in
  exists m g x,
    self st' = {| _model := PyModel m |} /\
    nodes st' = g ++ [{| n_layer := Dense 10 softmax VGG.init_weights;
                         n_inputs := [x]; n_output := outputs m |}] /\
    t_shape (outputs m) = [None; Some 10%N].
Proof.
  intros st'.
  apply (proj1 VGG_output_layer 19%Z [Some 64; Some 96; Some 1]%N 10%N fresh st').
  vm_compute. reflexivity.
Defined.

(** ** Running the Xception blocks *)

Lemma projection_block_run x n_filters iw g o b h w c :
  t_shape x = [b; h; w; Some c] ->
  (0 < c)%N -> fits 1 h -> fits 1 w -> (0 < n_filters)%N ->
  known_initializer (Xception.or_default iw) = true ->
  Xception.projection_block x n_filters iw {| nodes := g; self := o |} =
  ({| nodes := g ++ projection_nodes (length g) x n_filters (Xception.or_default iw) b h w;
      self := o |},
   Ok (T (length g + 9) [b; half h; half w; Some n_filters])).
Proof.
  intros Hx Hc Hh Hw Hn Hi. destruct x as [i s]. cbn in Hx. subst s.
  unfold Xception.projection_block. start_at g o.
  do 10 run_call. reflexivity.
Qed.

Lemma residual_block_run x n_filters iw g o b h w :
  t_shape x = [b; h; w; Some n_filters] ->
  fits 1 h -> fits 1 w -> (0 < n_filters)%N ->
  known_initializer (Xception.or_default iw) = true ->
  Xception.residual_block x n_filters iw {| nodes := g; self := o |} =
  ({| nodes := g ++ residual_nodes (length g) x n_filters (Xception.or_default iw) b h w;
      self := o |},
   Ok (T (length g + 9) [b; h; w; Some n_filters])).
Proof.
  intros Hx Hh Hw Hn Hi. destruct x as [i s]. cbn in Hx. subst s.
  unfold Xception.residual_block. start_at g o.
  do 10 run_call. reflexivity.
Qed.

Lemma exitFlow_run x n_classes iw g o b h w c :
  t_shape x = [b; h; w; Some c] ->
  (0 < c)%N -> fits 1 h -> fits 1 w ->
  known_initializer (Xception.or_default iw) = true ->
  Xception.exitFlow x n_classes iw {| nodes := g; self := o |} =
  ({| nodes := g ++ exit_nodes (length g) x n_classes (Xception.or_default iw) b h w;
      self := o |},
   Ok (T (length g + 16) [b; Some n_classes])).
Proof.
  intros Hx Hc Hh Hw Hi. destruct x as [i s]. cbn in Hx. subst s.
  unfold Xception.exitFlow, Xception.classifier. start_at g o.
  do 17 run_call. reflexivity.
Qed.

Lemma half_floor_bound n : (7 <= n)%N -> (3 <= (n - 1) / 2)%N.
Proof. intros H. apply N.div_le_lower_bound; lia. Qed.

Lemma fits_stem d :
  fits 7 d -> fits 3 d /\ fits 3 (option_map (fun n => ((n - 1) / 2)%N) d).
Proof.
  destruct d as [n |]; [| now split]. cbn [fits option_map]. intros H.
  split; [lia | now apply half_floor_bound].
Qed.

Lemma fits_stem_dim d : fits 7 d -> fits 1 (stem_dim d).
Proof.
  destruct d as [n |]; [| trivial]. cbn [fits stem_dim option_map]. intros H.
  unfold stem_side. pose proof (half_floor_bound n H). lia.
Qed.

Lemma stem_dim_split d :
  option_map (fun n => (n - 2)%N) (option_map (fun n => ((n - 1) / 2)%N) d) = stem_dim d.
Proof. now destruct d. Qed.

Lemma Xception_stem_dims x iw g o b h w c :
  t_shape x = [b; h; w; Some c] -> fits 7 h -> fits 7 w ->
  (0 < c)%N -> known_initializer iw = true ->
  exists d,
    Xception.stem x iw {| nodes := g; self := o |} =
    ({| nodes := g ++ d; self := o |},
     Ok (T (length g + 5) [b; stem_dim h; stem_dim w; Some 64%N])) /\
    map n_layer d = stem_layers iw.
Proof.
  intros Hx Hh Hw Hc Hi. destruct x as [i s]. cbn in Hx. subst s.
  destruct (fits_stem h Hh) as [Hh1 Hh2], (fits_stem w Hw) as [Hw1 Hw2].
  unfold Xception.stem. start_at g o.
  erewrite bind_ok.
  2:{ apply call_at. cbn [map t_shape].
      apply shape_Conv2D; try shape_side; cbn [fst snd];
        now apply conv_output_length_valid_3_2_dim. }
  cbn [app length]. do 2 run_call.
  erewrite bind_ok.
  2:{ apply call_at. cbn [map t_shape T].
      apply shape_Conv2D; try shape_side; cbn [fst snd];
        now apply conv_output_length_valid_3_1_dim. }
  rewrite !stem_dim_split.
  cbn [app length]. do 2 run_call.
  eexists. split; reflexivity.
Qed.

(** *** What a block that returns was called on *)

Lemma projection_block_ok_inv x n_filters iw st st' y :
  Xception.projection_block x n_filters iw st = (st', Ok y) ->
  (0 < n_filters)%N /\ known_initializer (Xception.or_default iw) = true /\
  nonempty_maps (t_shape x).
Proof.
  unfold Xception.projection_block. cbv zeta. intros H.
  apply bind_ok_inv in H as (s1 & x1 & _ & H).
  apply bind_ok_inv in H as (s2 & x2 & _ & H).
  apply bind_ok_inv in H as (s3 & x3 & H3 & _).
  apply call_ok_inv in H3 as (E & _). cbn [map] in E.
  apply SeparableConv2D_ok_inv in E
    as (Hn & Hi & b & h & w & c & h' & w' & Hx & Hc & Eh & Ew & Hh & Hw & _).
  cbn [fst snd] in Eh, Ew. rewrite conv_output_length_same_stride1 in Eh, Ew.
  injection Eh as <-. injection Ew as <-.
  split; [exact Hn |]. split; [exact Hi |]. now exists b, h, w, c.
Qed.

Lemma exitFlow_ok_inv x n_classes iw st st' y :
  Xception.exitFlow x n_classes iw st = (st', Ok y) ->
  known_initializer (Xception.or_default iw) = true /\ nonempty_maps (t_shape x).
Proof.
  unfold Xception.exitFlow. cbv zeta. intros H.
  apply bind_ok_inv in H as (s1 & x1 & _ & H).
  apply bind_ok_inv in H as (s2 & x2 & _ & H).
  apply bind_ok_inv in H as (s3 & x3 & H3 & _).
  apply call_ok_inv in H3 as (E & _). cbn [map] in E.
  apply SeparableConv2D_ok_inv in E
    as (Hn & Hi & b & h & w & c & h' & w' & Hx & Hc & Eh & Ew & Hh & Hw & _).
  cbn [fst snd] in Eh, Ew. rewrite conv_output_length_same_stride1 in Eh, Ew.
  injection Eh as <-. injection Ew as <-.
  split; [exact Hi |]. now exists b, h, w, c.
Qed.

(** ** Shapes at the merge of the residual blocks *)

Lemma ceil_div_2_bounds n : (n <= 2 * ceil_div n 2 < n + 2)%N.
Proof.
  unfold ceil_div.
  pose proof (N.div_mod n 2 ltac:(discriminate)) as E.
  pose proof (N.mod_lt n 2 ltac:(discriminate)) as L.
  destruct (N.eqb_spec (n mod 2) 0) as [Z | NZ];
    revert E L Z || revert E L NZ;
    generalize (n / 2)%N (n mod 2)%N; intros; lia.
Qed.

Lemma half_is_ceil_div n : ((n + 1) / 2)%N = ceil_div n 2.
Proof.
  unfold ceil_div.
  pose proof (N.div_mod n 2 ltac:(discriminate)) as E.
  pose proof (N.mod_lt n 2 ltac:(discriminate)) as L.
  destruct (N.eqb_spec (n mod 2) 0) as [Z | NZ]; symmetry.
  - apply N.div_unique with (r := 1%N); [lia |].
    revert E L Z. generalize (n / 2)%N (n mod 2)%N. intros. lia.
  - apply N.div_unique with (r := 0%N); [lia |].
    revert E L NZ. generalize (n / 2)%N (n mod 2)%N. intros. lia.
Qed.

(** C10: whenever the projection block returns on an input of shape
    [(h, w, c)] (any batch axis), for whatever [n_filters], its output has
    [n_filters] channels and spatial sides the ceilings of [h / 2] and
    [w / 2], whatever [c] is; and it does return when sides, channels and
    filter count are not zero and the initialiser is one the framework
    knows. *)
Theorem projection_block_output_shape :
  (forall x n_filters iw st st' y b h w c,
      t_shape x = [b; Some h; Some w; c] ->
      Xception.projection_block x n_filters iw st = (st', Ok y) ->
      t_shape y = [b; Some (ceil_div h 2); Some (ceil_div w 2); Some n_filters]) /\
  (forall x n_filters iw st b h w c,
      t_shape x = [b; Some h; Some w; Some c] ->
      (0 < h)%N -> (0 < w)%N -> (0 < c)%N -> (0 < n_filters)%N ->
      known_initializer (Xception.or_default iw) = true ->
      exists st' y,
        Xception.projection_block x n_filters iw st = (st', Ok y) /\
        t_shape y = [b; Some (ceil_div h 2); Some (ceil_div w 2); Some n_filters] /\
        (h <= 2 * ceil_div h 2 < h + 2)%N /\
        (w <= 2 * ceil_div w 2 < w + 2)%N).
Proof.
  split.
  - intros x n_filters iw st st' y b h w c Hx H.
    destruct (projection_block_ok_inv _ _ _ _ _ _ H)
      as (Hn & Hi & b' & h' & w' & c' & Hx' & Hc & Hh & Hw).
    rewrite Hx in Hx'. injection Hx' as <- <- <- ->. destruct st as [g o].
    rewrite (projection_block_run _ _ _ _ _ _ _ _ _ Hx Hc Hh Hw Hn Hi) in H.
    injection H as _ <-. cbn [t_shape T half option_map].
    now rewrite !half_is_ceil_div.
  - intros x n_filters iw [g o] b h w c Hx Hh Hw Hc Hn Hi.
    rewrite (projection_block_run _ _ _ _ _ _ _ _ _ Hx Hc) by (cbn [fits]; auto; lia).
    do 2 eexists. split; [reflexivity |].
    cbn [t_shape T half option_map]. rewrite !half_is_ceil_div.
    auto using ceil_div_2_bounds.
Qed.

Lemma projection_block_output_shape_witness :
  exists st' y,
    Xception.projection_block (T 0 [None; Some 7; Some 10; Some 3]%N) 128 None
      (fst (Input [Some 7; Some 10; Some 3]%N fresh)) = (st', Ok y) /\
    t_shape y = [None; Some 4; Some 5; Some 128]%N.
Proof.
  destruct (proj2 projection_block_output_shape
              (T 0 [None; Some 7; Some 10; Some 3]%N) 128%N None
              (fst (Input [Some 7; Some 10; Some 3]%N fresh))
              None 7%N 10%N 3%N eq_refl eq_refl eq_refl eq_refl eq_refl eq_refl)
    as (st' & y & Hr & Hy & _).
  exists st', y. split; [exact Hr |].
  exact (proj1 projection_block_output_shape
           (T 0 [None; Some 7; Some 10; Some 3]%N) _ _ _ _ _
           None 7%N 10%N (Some 3%N) eq_refl Hr).
Defined.

(** C4: whenever a projection block returns, the node it added last is the
    [Add] merge and its two operands (main branch first, shortcut second)
    have the same shape; it returns on every batch of feature maps without
    an empty side, when channels and filter count are not zero and the
    initialiser is known.  An identity residual block whose input has
    [n_filters] channels then returns as well, and the operands of its
    [Add], the main branch and the input itself, have the same shape. *)
Theorem residual_merge_shapes :
  (forall x n_filters iw st st' y,
      Xception.projection_block x n_filters iw st = (st', Ok y) ->
      exists g main shortcut,
        nodes st' = g ++ [{| n_layer := Add; n_inputs := [main; shortcut];
                             n_output := y |}] /\
        t_shape main = t_shape shortcut) /\
  (forall x n_filters iw st b h w c,
      t_shape x = [b; h; w; Some c] ->
      (0 < c)%N -> fits 1 h -> fits 1 w -> (0 < n_filters)%N ->
      known_initializer (Xception.or_default iw) = true ->
      exists st' y, Xception.projection_block x n_filters iw st = (st', Ok y)) /\
  (forall x n_filters iw st b h w c,
      t_shape x = [b; h; w; Some c] -> c = n_filters ->
      (0 < c)%N -> fits 1 h -> fits 1 w ->
      known_initializer (Xception.or_default iw) = true ->
      exists st' y g main,
        Xception.residual_block x n_filters iw st = (st', Ok y) /\
        nodes st' = g ++ [{| n_layer := Add; n_inputs := [main; x];
                             n_output := y |}] /\
        t_shape main = t_shape x).
Proof.
  split; [| split].
  - intros x n_filters iw st st' y H.
    destruct (projection_block_ok_inv _ _ _ _ _ _ H)
      as (Hn & Hi & b & h & w & c & Hx & Hc & Hh & Hw).
    destruct st as [g o].
    rewrite (projection_block_run _ _ _ _ _ _ _ _ _ Hx Hc Hh Hw Hn Hi) in H.
    injection H as <- <-. cbn [nodes].
    set (k := length g).
    exists (g ++ removelast (projection_nodes k x n_filters (Xception.or_default iw) b h w)).
    do 2 eexists. split.
    + rewrite <- app_assoc. reflexivity.
    + reflexivity.
  - intros x n_filters iw [g o] b h w c Hx Hc Hh Hw Hn Hi.
    rewrite (projection_block_run _ _ _ _ _ _ _ _ _ Hx Hc Hh Hw Hn Hi). eauto.
  - intros x n_filters iw [g o] b h w c Hx <- Hc Hh Hw Hi.
    rewrite (residual_block_run _ _ _ _ _ _ _ _ Hx Hh Hw Hc Hi).
    set (k := length g).
    exists {| nodes := g ++ residual_nodes k x c (Xception.or_default iw) b h w; self := o |}.
    eexists.
    exists (g ++ removelast (residual_nodes k x c (Xception.or_default iw) b h w)).
    eexists. split; [reflexivity |]. split.
    + cbn [nodes]. rewrite <- app_assoc. reflexivity.
    + now rewrite Hx.
Qed.

Lemma residual_merge_shapes_witness :
  let x := T 0 [None; Some 19; Some 19; Some 728]%N in
  let st := fst (Input [Some 19; Some 19; Some 728]%N fresh) in
  (exists g main shortcut,
      nodes (fst (Xception.projection_block x 1024 None st)) =
        g ++ [{| n_layer := Add; n_inputs := [main; shortcut];
                 n_output := T 10 [None; Some 10; Some 10; Some 1024]%N |}] /\
      t_shape main = t_shape shortcut) /\
  (exists st' y, Xception.projection_block x 1024 None st = (st', Ok y)) /\
  (exists st' y g main,
      Xception.residual_block x 728 None st = (st', Ok y) /\
      nodes st' = g ++ [{| n_layer := Add; n_inputs := [main; x]; n_output := y |}] /\
      t_shape main = t_shape x).
Proof.
  intros x st. split; [| split].
  - apply (proj1 residual_merge_shapes x 1024%N None st). vm_compute. reflexivity.
  - apply (proj1 (proj2 residual_merge_shapes) x 1024%N None st
             None (Some 19%N) (Some 19%N) 728%N); try reflexivity; discriminate.
  - apply (proj2 (proj2 residual_merge_shapes) x 728%N None st
             None (Some 19%N) (Some 19%N) 728%N); try reflexivity; discriminate.
Defined.

(** ** The Xception exit flow *)

(** C2, as the code has it: on a batch of feature maps (channels, no empty
    side, an initialiser the framework knows) the exit flow adds a shortcut
    branch of one strided 1x1 projection convolution (normalised), a main
    branch of two separable convolutions (728, then 1024 filters) and a
    strided max-pool, the [Add] of the two branch ends, and after the merge
    two more separable convolutions (1556, then 2048 filters), global
    average pooling and the dense softmax layer of [n_classes] units. *)
Theorem exitFlow_structure x n_classes iw st b h w c :
  t_shape x = [b; h; w; Some c] ->
  (0 < c)%N -> fits 1 h -> fits 1 w ->
  known_initializer (Xception.or_default iw) = true ->
  exists st' y shortcut main merged tail,
    Xception.exitFlow x n_classes iw st = (st', Ok y) /\
    nodes st' = nodes st ++ shortcut ++ main ++ [merged] ++ tail /\
    chain x shortcut /\
    map n_layer shortcut = exit_shortcut_layers (Xception.or_default iw) /\
    chain x main /\
    map n_layer main = exit_main_layers (Xception.or_default iw) /\
    count_sepconvs (map n_layer main) = 2%nat /\
    n_layer merged = Add /\
    n_inputs merged = [chain_end x main; chain_end x shortcut] /\
    chain (n_output merged) tail /\
    map n_layer tail = exit_tail_layers n_classes (Xception.or_default iw) /\
    count_sepconvs (map n_layer tail) = 2%nat /\
    y = chain_end (n_output merged) tail /\
    t_shape y = [b; Some n_classes].
Proof.
  intros Hx Hc Hh Hw Hi. destruct st as [g o].
  rewrite (exitFlow_run _ _ _ _ _ _ _ _ _ Hx Hc Hh Hw Hi).
  set (d := exit_nodes (length g) x n_classes (Xception.or_default iw) b h w).
  exists {| nodes := g ++ d; self := o |}, (T (length g + 16) [b; Some n_classes]).
  exists (firstn 2 d), (firstn 6 (skipn 2 d)), (nth 8 d (mk Add [] 0 [])), (skipn 9 d).
  cbn. repeat split; auto.
Qed.

Lemma exitFlow_structure_witness :
  let x := T 0 [None; Some 19; Some 19; Some 728]%N in
  let st := fst (Input [Some 19; Some 19; Some 728]%N fresh) in
  exists st' y, Xception.exitFlow x 1000 None st = (st', Ok y) /\
                t_shape y = [None; Some 1000%N].
Proof.
  intros x st.
  destruct (exitFlow_structure x 1000 None st None (Some 19%N) (Some 19%N) 728%N
              eq_refl eq_refl)
    as (st' & y & sc & mn & mg & tl & Hr & _ & _ & _ & _ & _ & _ & _ & _ & _ & _ & _ & _ & Hy);
    [discriminate | discriminate | reflexivity |].
  exists st', y. split; assumption.
Defined.

(** C2, as stated, fails: in the exit flow built on a (19, 19, 728)
    placeholder the main branch that reaches the [Add] holds two separable
    convolutions, not four; the shortcut holds the one projection
    convolution. *)
Lemma exitFlow_main_branch_not_four_sepconvs :
  let x := T 0 [None; Some 19; Some 19; Some 728]%N in
  let g := nodes (fst (Xception.exitFlow x 1000 None
                         (fst (Input [Some 19; Some 19; Some 728]%N fresh)))) in
  option_map count_sepconvs (main_branch g x) = Some 2%nat /\
  option_map count_sepconvs (main_branch g x) <> Some 4%nat /\
  shortcut_branch g x = Some (exit_shortcut_layers Xception.init_weights).
Proof. vm_compute. repeat split. discriminate. Qed.

(** ** The Xception entry and middle flows *)

Lemma Xception_stem_appended x iw st st' y :
  Xception.stem x iw st = (st', Ok y) -> appended (stem_layers iw) st st'.
Proof. unfold Xception.stem. intros H. invert_calls H. Qed.

Lemma projection_block_appended x n iw st st' y :
  Xception.projection_block x n iw st = (st', Ok y) ->
  appended (projection_layers (Xception.or_default iw) n) st st'.
Proof. unfold Xception.projection_block. intros H. invert_calls H. Qed.

Lemma residual_block_appended x n iw st st' y :
  Xception.residual_block x n iw st = (st', Ok y) ->
  appended (residual_layers (Xception.or_default iw) n) st st'.
Proof. unfold Xception.residual_block. intros H. invert_calls H. Qed.


Lemma entryFlow_appended x blocks iw st st' y :
  Xception.entryFlow x blocks iw st = (st', Ok y) ->
  appended (stem_layers (Xception.or_default iw)
              ++ flat_map (projection_layers (Xception.or_default iw)) blocks) st st'.
Proof.
  unfold Xception.entryFlow. intros H.
  apply bind_ok_inv in H as (st1 & x1 & H1 & H2).
  eapply appended_app; [eapply Xception_stem_appended; eassumption |].
  revert H2. apply appended_for_each.
  intros n b s s' b' Hb. now apply projection_block_appended in Hb.
Qed.

Lemma middleFlow_appended x blocks iw st st' y :
  Xception.middleFlow x blocks iw st = (st', Ok y) ->
  appended (flat_map (residual_layers (Xception.or_default iw)) blocks) st st'.
Proof.
  unfold Xception.middleFlow. apply appended_for_each.
  intros n b s s' b' Hb. now apply residual_block_appended in Hb.
Qed.

Lemma last_cons_positive (n : N) blocks c :
  last (n :: blocks) c = last blocks n.
Proof.
  destruct blocks as [| n0 bl]; [reflexivity |].
  change (last (n :: n0 :: bl) c) with (last (n0 :: bl) c).
  apply last_default_irrelevant. discriminate.
Qed.

Lemma projection_loop_dims blocks x iw st b h w c :
  t_shape x = [b; h; w; Some c] ->
  (0 < c)%N -> fits 1 h -> fits 1 w ->
  Forall (fun n => (0 < n)%N) blocks ->
  known_initializer (Xception.or_default iw) = true ->
  exists st' y,
    for_each blocks (fun n x => Xception.projection_block x n iw) x st = (st', Ok y) /\
    t_shape y = [b; Nat.iter (length blocks) half h; Nat.iter (length blocks) half w;
                 Some (last blocks c)] /\
    self st' = self st.
Proof.
  intros Hx Hc Hh Hw Hall Hi. revert x st h w c Hx Hc Hh Hw.
  induction Hall as [| n blocks Hn _ IH]; intros x st h w c Hx Hc Hh Hw.
  - now exists st, x.
  - cbn [for_each]. destruct st as [g o].
    erewrite bind_ok by (eapply projection_block_run; eassumption).
    match goal with
    | |- context [for_each blocks _ ?x1 ?s1] =>
        destruct (IH x1 s1 (half h) (half w) n eq_refl Hn)
          as (st' & y & Hr & Hy & Hs); [now apply fits_half | now apply fits_half |]
    end.
    exists st', y. split; [exact Hr |]. split; [| exact Hs]. rewrite Hy.
    cbn [length]. now rewrite !Nat.iter_succ_r, last_cons_positive.
Qed.

Lemma residual_loop_ok blocks x iw st b h w c :
  t_shape x = [b; h; w; Some c] ->
  (0 < c)%N -> fits 1 h -> fits 1 w ->
  Forall (eq c) blocks ->
  known_initializer (Xception.or_default iw) = true ->
  exists st' y,
    for_each blocks (fun n x => Xception.residual_block x n iw) x st = (st', Ok y) /\
    t_shape y = [b; h; w; Some c].
Proof.
  intros Hx Hc Hh Hw Hall Hi. revert x st Hx.
  induction Hall as [| n blocks <- _ IH]; intros x st Hx.
  - now exists st, x.
  - cbn [for_each]. destruct st as [g o].
    erewrite bind_ok by (eapply residual_block_run; eassumption).
    apply IH. reflexivity.
Qed.

Lemma middleFlow_ok x blocks iw st b h w c :
  t_shape x = [b; h; w; Some c] ->
  (0 < c)%N -> fits 1 h -> fits 1 w ->
  Forall (eq c) blocks ->
  known_initializer (Xception.or_default iw) = true ->
  exists st' y,
    Xception.middleFlow x blocks iw st = (st', Ok y) /\
    t_shape y = [b; h; w; Some c].
Proof.
  intros Hx Hc Hh Hw Hall Hi. unfold Xception.middleFlow.
  now apply residual_loop_ok.
Qed.

Lemma entryFlow_dims x blocks iw st b h w c :
  t_shape x = [b; h; w; Some c] -> fits 7 h -> fits 7 w ->
  (0 < c)%N -> Forall (fun n => (0 < n)%N) blocks ->
  known_initializer (Xception.or_default iw) = true ->
  exists st' y,
    Xception.entryFlow x blocks iw st = (st', Ok y) /\
    t_shape y = [b; Nat.iter (length blocks) half (stem_dim h);
                 Nat.iter (length blocks) half (stem_dim w);
                 Some (last blocks 64%N)] /\
    self st' = self st.
Proof.
  intros Hx Hh Hw Hc Hall Hi. destruct st as [g o].
  destruct (Xception_stem_dims x (Xception.or_default iw) g o b h w c Hx Hh Hw Hc Hi)
    as (d & Hstem & _).
  unfold Xception.entryFlow. cbv zeta. erewrite bind_ok by exact Hstem.
  match goal with
  | |- context [for_each blocks _ ?x1 ?s1] =>
      destruct (projection_loop_dims blocks x1 (Some (Xception.or_default iw)) s1
                  b (stem_dim h) (stem_dim w) 64 eq_refl) as (st' & y & Hr & Hy & Hs);
        auto using fits_stem_dim; [reflexivity |]
  end.
  exists st', y. split; [exact Hr |]. split; [exact Hy | exact Hs].
Qed.

Lemma entry_blocks_positive : Forall (fun n => (0 < n)%N) entry_blocks.
Proof. repeat constructor. Qed.

Lemma Xception_init_run h w c n_classes st :
  fits 7 h -> fits 7 w -> (0 < c)%N ->
  exists g x,
    Xception.__init__ [h; w; Some c] n_classes st =
    ({| nodes := g ++ exit_nodes (length g) x n_classes Xception.init_weights None
                        (Nat.iter 3 half (stem_dim h)) (Nat.iter 3 half (stem_dim w));
        self := {| _model := PyModel
                     {| inputs := {| t_id := length (nodes st);
                                     t_shape := [None; h; w; Some c] |};
                        outputs := T (length g + 16) [None; Some n_classes] |} |} |},
     Ok tt) /\
    exists d, g = nodes st ++ d.
Proof.
  intros Hh Hw Hc. unfold Xception.__init__.
  erewrite bind_ok by apply Input_run.
  match goal with
  | |- context [bind (Xception.entryFlow ?x0 _ _) _ ?s] =>
      destruct (entryFlow_dims x0 entry_blocks None s None h w c eq_refl Hh Hw Hc
                  entry_blocks_positive eq_refl) as (st1 & x1 & HE & Hx1 & _)
  end.
  erewrite bind_ok by exact HE.
  destruct (middleFlow_ok x1 middle_blocks None st1 _ _ _ _ Hx1) as (st2 & x2 & HM & Hx2);
    [reflexivity | now apply fits_iter_half, fits_stem_dim
     | now apply fits_iter_half, fits_stem_dim | repeat constructor | reflexivity |].
  erewrite bind_ok by exact HM.
  apply entryFlow_appended in HE as (dE & HnE & HsE & _).
  apply middleFlow_appended in HM as (dM & HnM & HsM & _).
  destruct st2 as [g2 o2].
  erewrite bind_ok.
  2:{ eapply exitFlow_run; [exact Hx2 | reflexivity | | | reflexivity];
        now apply fits_iter_half, fits_stem_dim. }
  exists g2, x2. split; [reflexivity |].
  cbn [nodes self] in *. rewrite HnM, HnE. cbn [nodes].
  eexists. rewrite <- !app_assoc. reflexivity.
Qed.

(** [Xception()] with the default arguments: output shape [(None, 1000)]. *)
Example Xception_default_output_shape :
  exists st' m,
    Xception.__init__ Xception.default_input_shape Xception.default_n_classes fresh
      = (st', Ok tt) /\
    self st' = {| _model := PyModel m |} /\
    t_shape (outputs m) = [None; Some 1000%N].
Proof.
  destruct (Xception_init_run (Some 229%N) (Some 229%N) 3 1000 fresh) as (g & x & Hr & _);
    [discriminate | discriminate | reflexivity |].
  do 2 eexists. split; [exact Hr |]. split; reflexivity.
Qed.





(** ** Two constructions compared *)

Section Simulation.

(** Two runs, one on top of the graph [g1] and one on top of [g2]. *)
Variables (g1 g2 : graph) (k : nat).
Hypothesis offset : length g2 = length g1 + k.

Local Abbreviation related := (tensor_sim k).
Local Abbreviation simulates := (sim g1 g2 k).

Lemma sim_ret {A} (R : A -> A -> Prop) a b : R a b -> simulates R (ret a) (ret b).
Proof. intros H st1 st2 Hs. now split. Qed.

Lemma sim_raise {A} (R : A -> A -> Prop) e : simulates R (raise e) (raise e).
Proof. intros st1 st2 Hs. now split. Qed.

Lemma sim_bind {A B} (R : A -> A -> Prop) (R' : B -> B -> Prop)
    (m1 m2 : M A) (f1 f2 : A -> M B) :
  simulates R m1 m2 -> (forall a b, R a b -> simulates R' (f1 a) (f2 b)) ->
  simulates R' (bind m1 f1) (bind m2 f2).
Proof.
  intros Hm Hf st1 st2 Hs. unfold bind.
  destruct (Hm st1 st2 Hs) as [Hs' Hr].
  destruct (m1 st1) as [st1' [a | e1]], (m2 st2) as [st2' [b | e2]];
    cbn in Hs', Hr; try contradiction.
  - now apply Hf.
  - now split.
Qed.

Lemma Forall2_related_map xs1 xs2 :
  Forall2 related xs1 xs2 -> xs2 = map (shift k) xs1.
Proof.
  induction 1 as [| t1 t2 xs1 xs2 Ht _ IH]; [reflexivity |].
  cbn. now rewrite IH, Ht.
Qed.

Lemma map_shift_shapes xs : map t_shape (map (shift k) xs) = map t_shape xs.
Proof. rewrite map_map. reflexivity. Qed.

Lemma sim_call l xs1 xs2 :
  Forall2 related xs1 xs2 -> simulates related (call l xs1) (call l xs2).
Proof.
  intros Hxs st1 st2 (d & N1 & N2 & Ho). unfold call.
  apply Forall2_related_map in Hxs as ->. rewrite map_shift_shapes.
  destruct (compute_output_shape l (map t_shape xs1)) as [s |]; cbn [fst snd].
  - assert (Hid : {| t_id := length (nodes st2); t_shape := s |} =
                  shift k {| t_id := length (nodes st1); t_shape := s |}).
    { unfold shift. cbn [t_id t_shape].
      rewrite N1, N2, !length_app, length_map, offset. f_equal. lia. }
    split; [| exact Hid].
    exists (d ++ [{| n_layer := l; n_inputs := xs1;
                     n_output := {| t_id := length (nodes st1); t_shape := s |} |}]).
    cbn [nodes self]. rewrite N1 at 1. rewrite N2 at 1.
    rewrite <- !app_assoc, map_app. repeat split; [| exact Ho].
    do 2 f_equal. cbn [map]. unfold shift_node.
    cbn [n_layer n_inputs n_output]. now rewrite Hid.
  - split; [| reflexivity]. now exists d.
Qed.

Lemma sim_for_each {A B} (R : B -> B -> Prop) (xs : list A)
    (body1 body2 : A -> B -> M B) :
  (forall a b1 b2, R b1 b2 -> simulates R (body1 a b1) (body2 a b2)) ->
  forall acc1 acc2, R acc1 acc2 ->
    simulates R (for_each xs body1 acc1) (for_each xs body2 acc2).
Proof.
  intros Hb. induction xs as [| a xs IH]; intros acc1 acc2 Hacc; cbn [for_each].
  - now apply sim_ret.
  - eapply sim_bind; [now apply Hb | exact IH].
Qed.

Lemma sim_set_model i1 i2 o1 o2 :
  related i1 i2 -> related o1 o2 ->
  simulates eq (set_model (PyModel {| inputs := i1; outputs := o1 |}))
         (set_model (PyModel {| inputs := i2; outputs := o2 |})).
Proof.
  intros -> -> st1 st2 (d & N1 & N2 & _). split; [| reflexivity].
  exists d. cbn. auto.
Qed.

Lemma sim_getitem {V} (d : list (Z * V)) key :
  simulates eq (VGG.getitem d key) (VGG.getitem d key).
Proof.
  induction d as [| [key' v] d IH]; cbn [VGG.getitem].
  - apply sim_raise.
  - destruct (key' =? key)%Z; [now apply sim_ret | exact IH].
Qed.

(** One step of a simulation proof over a sequence of layer calls. *)
Ltac sim_step :=
  first
    [ apply sim_call; repeat constructor; assumption
    | eapply sim_bind; [| intros ? ? ?] ].

Lemma sim_VGG_learner blocks x1 x2 :
  related x1 x2 -> simulates related (VGG.learner x1 blocks) (VGG.learner x2 blocks).
Proof.
  unfold VGG.learner. apply sim_for_each. intros [n f] b1 b2 Hb.
  unfold VGG.group. eapply sim_bind.
  - apply sim_for_each; [| exact Hb]. intros _ c1 c2 Hc. sim_step.
  - intros c1 c2 Hc. sim_step.
Qed.

Lemma sim_VGG_classifier n x1 x2 :
  related x1 x2 -> simulates related (VGG.classifier x1 n) (VGG.classifier x2 n).
Proof. intros Hx. unfold VGG.classifier. repeat sim_step. Qed.

Lemma sim_VGG_init n_layers input_shape n_classes :
  simulates eq (VGG.__init__ n_layers input_shape n_classes)
         (VGG.__init__ n_layers input_shape n_classes).
Proof.
  unfold VGG.__init__.
  destruct (negb (existsb (Z.eqb n_layers) [16%Z; 19%Z])); [apply sim_raise |].
  eapply sim_bind; [apply sim_call; constructor | intros i1 i2 Hi].
  eapply sim_bind; [unfold VGG.stem; sim_step | intros x1 x2 Hx].
  eapply sim_bind; [apply sim_getitem | intros bl ? <-].
  eapply sim_bind; [now apply sim_VGG_learner | intros y1 y2 Hy].
  eapply sim_bind; [now apply sim_VGG_classifier | intros z1 z2 Hz].
  now apply sim_set_model.
Qed.

Lemma sim_projection_block n iw x1 x2 :
  related x1 x2 ->
  simulates related (Xception.projection_block x1 n iw) (Xception.projection_block x2 n iw).
Proof. intros Hx. unfold Xception.projection_block. repeat sim_step. Qed.

Lemma sim_residual_block n iw x1 x2 :
  related x1 x2 ->
  simulates related (Xception.residual_block x1 n iw) (Xception.residual_block x2 n iw).
Proof. intros Hx. unfold Xception.residual_block. repeat sim_step. Qed.

Lemma sim_entryFlow blocks iw x1 x2 :
  related x1 x2 ->
  simulates related (Xception.entryFlow x1 blocks iw) (Xception.entryFlow x2 blocks iw).
Proof.
  intros Hx. unfold Xception.entryFlow. cbv zeta. eapply sim_bind.
  - unfold Xception.stem. repeat sim_step.
  - intros y1 y2 Hy. apply sim_for_each; [| exact Hy].
    intros n b1 b2 Hb. now apply sim_projection_block.
Qed.

Lemma sim_middleFlow blocks iw x1 x2 :
  related x1 x2 ->
  simulates related (Xception.middleFlow x1 blocks iw) (Xception.middleFlow x2 blocks iw).
Proof.
  intros Hx. unfold Xception.middleFlow. cbv zeta.
  apply sim_for_each; [| exact Hx].
  intros n b1 b2 Hb. now apply sim_residual_block.
Qed.

Lemma sim_exitFlow n iw x1 x2 :
  related x1 x2 ->
  simulates related (Xception.exitFlow x1 n iw) (Xception.exitFlow x2 n iw).
Proof.
  intros Hx. unfold Xception.exitFlow, Xception.classifier. repeat sim_step.
Qed.

Lemma sim_Xception_init input_shape n_classes :
  simulates eq (Xception.__init__ input_shape n_classes)
         (Xception.__init__ input_shape n_classes).
Proof.
  unfold Xception.__init__.
  eapply sim_bind; [apply sim_call; constructor | intros i1 i2 Hi].
  eapply sim_bind; [now apply sim_entryFlow | intros x1 x2 Hx].
  eapply sim_bind; [now apply sim_middleFlow | intros y1 y2 Hy].
  eapply sim_bind; [now apply sim_exitFlow | intros z1 z2 Hz].
  now apply sim_set_model.
Qed.

End Simulation.

(** A run started anywhere builds the renumbered copy of what the run from
    the fresh state builds. *)
Lemma sim_built (m : M unit) st :
  sim [] (nodes st) (length (nodes st)) eq m m ->
  built st (new m st) (nodes (fst (new m fresh)))
        (_model (self (fst (new m fresh)))) (snd (new m fresh)).
Proof.
  intros Hm. unfold built, new. cbn [nodes fresh].
  destruct (Hm {| nodes := []; self := new_instance |}
               {| nodes := nodes st; self := new_instance |})
    as [(d & N1 & N2 & Ho) Hr].
  { exists []. cbn. now rewrite app_nil_r. }
  cbn [app] in N1. rewrite N1, N2, Ho. repeat split.
  destruct (snd (m _)) as [[] | e1], (snd (m _)) as [[] | e2];
    cbn in Hr; try contradiction; congruence.
Qed.

(** C8: for each builder and every choice of parameters, two constructions
    with the same parameters, started in any two states of the graph (in
    particular one after the other), build the same thing: there is one list
    of nodes (layers with their hyper-parameters, in order, with their wiring
    and shapes) and one model of which each construction adds a copy,
    renumbered by the size of the graph it started with, and both end the
    same way. *)
Theorem construction_deterministic :
  (forall n_layers input_shape n_classes st1 st2,
      exists d0 m0 r0,
        built st1 (new (VGG.__init__ n_layers input_shape n_classes) st1) d0 m0 r0 /\
        built st2 (new (VGG.__init__ n_layers input_shape n_classes) st2) d0 m0 r0) /\
  (forall input_shape n_classes st1 st2,
      exists d0 m0 r0,
        built st1 (new (Xception.__init__ input_shape n_classes) st1) d0 m0 r0 /\
        built st2 (new (Xception.__init__ input_shape n_classes) st2) d0 m0 r0).
Proof.
  split; intros; do 3 eexists; split; apply sim_built;
    first [apply sim_VGG_init | apply sim_Xception_init]; reflexivity.
Qed.

(** The second of two constructions in a row gets other node numbers than
    the first: it is the copy shifted by the 23 nodes of the first. *)
Example second_construction_renumbered :
  let build := new (VGG.__init__ 16 [Some 32; Some 32; Some 3]%N 10) in
  let st1 := fst (build fresh) in
  let st2 := fst (build st1) in
  length (nodes st1) = 23%nat /\ length (nodes st2) = 46%nat /\
  _model (self st1) <> _model (self st2) /\
  nodes st2 = nodes st1 ++ map (shift_node 23) (nodes st1) /\
  _model (self st2) = shift_obj 23 (_model (self st1)).
Proof. vm_compute. repeat split. discriminate. Qed.

(** * Further properties of the builders *)

(** ** The VGG group and learner on sides that may be unknown *)

(** X1: on a batch of feature maps with channels whose known sides are at
    least 2, a VGG group returns a tensor with both sides halved (rounding
    down) and adds one node per convolution plus the pool; its width is
    [n_filters] when [n_layers] is positive, in which case the filter count
    must not be zero and the initialiser must be known.  With
    [n_layers <= 0] the loop body never runs: the group is the max-pool
    alone, [n_filters] and the initialiser are ignored and the width stays
    that of the input. *)
Theorem VGG_group_output x n_layers n_filters iw st b h w c :
  t_shape x = [b; h; w; Some c] -> fits 2 h -> fits 2 w -> (0 < c)%N ->
  ((0 < n_layers)%Z ->
   (0 < n_filters)%N /\ known_initializer (group_initializer iw) = true) ->
  (exists st' y,
      VGG.group x n_layers n_filters iw st = (st', Ok y) /\
      t_shape y = [b; scale_down 2 h; scale_down 2 w;
                   Some (if (0 <? n_layers)%Z then n_filters else c)] /\
      length (nodes st') = (length (nodes st) + Z.to_nat n_layers + 1)%nat) /\
  ((n_layers <= 0)%Z ->
   VGG.group x n_layers n_filters iw st =
   call (MaxPooling2D (2, 2)%N (2, 2)%N valid) [x] st).
Proof.
  intros Hx Hh Hw Hc Hpos. split.
  - destruct (VGG_group_dims x n_layers n_filters iw st b h w c Hx Hh Hw)
      as (st' & y & Hr & Hy & Hl & _).
    { intros Hn. destruct (Hpos Hn) as [Hf Hi]. auto. }
    now exists st', y.
  - intros Hn. unfold VGG.group. now rewrite range_nonpositive.
Qed.

Lemma VGG_group_output_witness :
  let x := T 0 [None; Some 9; None; Some 3]%N in
  let st := fst (Input [Some 9; None; Some 3]%N fresh) in
  (exists st' y,
      VGG.group x 2 64 None st = (st', Ok y) /\
      t_shape y = [None; Some 4; None; Some 64]%N /\
      length (nodes st') = 4%nat) /\
  VGG.group x (-1) 0 (Some "none"%string) st =
  call (MaxPooling2D (2, 2)%N (2, 2)%N valid) [x] st.
Proof.
  intros x st.
  destruct (VGG_group_output x 2 64 None st None (Some 9%N) None 3%N eq_refl)
    as [H1 _]; [discriminate | exact I | reflexivity | intros _; split; reflexivity |].
  destruct (VGG_group_output x (-1) 0 (Some "none"%string) st None (Some 9%N) None 3%N eq_refl)
    as [_ H2]; [discriminate | exact I | reflexivity | intros H; discriminate H |].
  split; [exact H1 | apply H2; discriminate].
Defined.

(** X2: on feature maps with channels whose known sides are at least
    [2^k], the learner with a table of [k] stages, each with filters for
    its convolutions, returns a tensor with both sides divided by [2^k]
    (rounding down) and the width of the last stage that has a convolution.
    For the two tables of the class that is a division by 32 and a width
    of 512 (selector 16) or 256 (selector 19), whatever the input width. *)
Theorem VGG_learner_output_shape :
  (forall blocks x st b h w c,
      t_shape x = [b; h; w; Some c] -> (0 < c)%N ->
      Forall stage_has_filters blocks ->
      fits (2 ^ N.of_nat (length blocks)) h -> fits (2 ^ N.of_nat (length blocks)) w ->
      exists st' y,
        VGG.learner x blocks st = (st', Ok y) /\
        t_shape y = [b; scale_down (2 ^ N.of_nat (length blocks)) h;
                     scale_down (2 ^ N.of_nat (length blocks)) w;
                     Some (learner_width blocks c)]) /\
  (forall c, learner_width VGG16_groups c = 512%N /\
             learner_width VGG19_groups c = 256%N) /\
  (2 ^ N.of_nat (length VGG16_groups) = 32 /\ 2 ^ N.of_nat (length VGG19_groups) = 32)%N.
Proof.
  split; [| split; [intros c; split; reflexivity | split; reflexivity]].
  intros blocks x st b h w c Hx Hc Hall Hh Hw.
  destruct (VGG_learner_dims blocks x st b h w c Hx Hc Hall Hh Hw) as (st' & y & Hr & Hy & _).
  now exists st', y.
Qed.

Lemma VGG_learner_output_shape_witness :
  let x := T 0 [None; Some 224; None; Some 64]%N in
  exists st' y,
    VGG.learner x VGG16_groups (fst (Input [Some 224; None; Some 64]%N fresh)) = (st', Ok y) /\
    t_shape y = [None; Some 7; None; Some 512]%N.
Proof.
  intros x.
  destruct (proj1 VGG_learner_output_shape VGG16_groups x
              (fst (Input [Some 224; None; Some 64]%N fresh))
              None (Some 224%N) None 64%N eq_refl eq_refl (proj1 groups_have_filters))
    as (st' & y & Hr & Hy); [discriminate | exact I |].
  exists st', y. split; [exact Hr | exact Hy].
Defined.

(** ** Counting the layers of a VGG model *)

Lemma count_layers (p : layer -> bool) (d : list node) :
  length (filter (fun n => p (n_layer n)) d) = length (filter p (map n_layer d)).
Proof.
  induction d as [| n d IH]; [reflexivity |].
  cbn [filter map]. destruct (p (n_layer n)); cbn [length]; now rewrite IH.
Qed.

(** X3: a VGG construction that returns added exactly as many layers with
    weights (convolutions and dense layers) as its selector says: 13
    convolutions and 3 dense layers for 16, 16 and 3 for 19, whatever the
    input shape and the number of classes. *)
Theorem VGG_weight_layers_match_selector n_layers blocks input_shape n_classes st st' :
  In (n_layers, blocks) VGG.groups ->
  VGG.__init__ n_layers input_shape n_classes st = (st', Ok tt) ->
  exists d,
    nodes st' = nodes st ++ d /\
    Z.of_nat (count_weight_layers d) = n_layers /\
    length (filter (fun n => match n_layer n with Dense _ _ _ => true | _ => false end) d)
      = 3%nat.
Proof.
  intros Hin H.
  assert (Hsel : (n_layers = 16%Z /\ blocks = VGG16_groups) \/
                 (n_layers = 19%Z /\ blocks = VGG19_groups)).
  { destruct Hin as [[= <- <-] | [[= <- <-] | []]]; auto. }
  destruct (VGG_init_appended n_layers blocks input_shape n_classes st st' Hsel H)
    as (d & Hn & Hl).
  exists d. split; [exact Hn |].
  unfold count_weight_layers.
  rewrite (count_layers is_weight_layer),
    (count_layers (fun l => match l with Dense _ _ _ => true | _ => false end)), Hl.
  destruct Hsel as [[-> ->] | [-> ->]]; split; reflexivity.
Qed.

Lemma VGG_weight_layers_match_selector_witness :
  exists d,
    nodes (fst (VGG.__init__ 19 [Some 32; Some 32; Some 3]%N 10 fresh)) = nodes fresh ++ d /\
    Z.of_nat (count_weight_layers d) = 19%Z.
Proof.
  destruct (VGG_weight_layers_match_selector 19 VGG19_groups [Some 32; Some 32; Some 3]%N 10
              fresh (fst (VGG.__init__ 19 [Some 32; Some 32; Some 3]%N 10 fresh)))
    as (d & Hn & Hc & _).
  - right. left. reflexivity.
  - vm_compute. reflexivity.
  - exists d. split; [exact Hn | exact Hc].
Defined.

(** ** Inputs the VGG classifier cannot take *)

Lemma prod_dims_unknown h w c :
  h = None \/ w = None -> prod_dims [h; w; c] = None.
Proof.
  intros [-> | ->]; [reflexivity |]. cbn [prod_dims]. now destruct h.
Qed.

Lemma VGG_classifier_unknown x n_classes st b h w c :
  t_shape x = [b; h; w; c] -> prod_dims [h; w; c] = None ->
  VGG.classifier x n_classes st =
  ({| nodes := nodes st ++
        [{| n_layer := Flatten; n_inputs := [x];
            n_output := {| t_id := length (nodes st); t_shape := [b; None] |} |}];
      self := self st |},
   Raise (ValueError (Dense 4096 relu VGG.init_weights))).
Proof.
  intros Hx Hp. unfold VGG.classifier.
  erewrite bind_ok.
  2:{ apply call_ok. cbn [map]. rewrite Hx. unfold compute_output_shape.
      cbn [constructible call_output_shape]. rewrite Hp. reflexivity. }
  erewrite bind_raise; [reflexivity |]. now apply call_raise.
Qed.

(** X4: VGG cannot be built for inputs of unknown height or width.  With
    selector 16 or 19 and an input shape with channels whose height or
    width is [None] (the known one being at least 32), the constructor
    builds the placeholder, the stem, all five stages and the [Flatten]
    node, and then raises in the first dense layer, whose input size is
    unknown; [_model] is left as it was. *)
Theorem VGG_init_unknown_side n_layers blocks h w c n_classes st :
  (n_layers = 16%Z /\ blocks = VGG16_groups) \/
  (n_layers = 19%Z /\ blocks = VGG19_groups) ->
  h = None \/ w = None -> fits 32 h -> fits 32 w -> (0 < c)%N ->
  exists st' d,
    VGG.__init__ n_layers [h; w; Some c] n_classes st
      = (st', Raise (ValueError (Dense 4096 relu VGG.init_weights))) /\
    self st' = self st /\
    nodes st' = nodes st ++ d /\
    map n_layer d =
      InputLayer [None; h; w; Some c] :: conv3x3 64
        :: flat_map stage_layers blocks ++ [Flatten].
Proof.
  intros Hsel Hnone Hh Hw Hc. rewrite (VGG_init_valid _ _ _ blocks Hsel).
  assert (Hmin : min_side blocks = 32%N /\ Forall stage_has_filters blocks).
  { destruct Hsel as [[_ ->] | [_ ->]]; (split; [reflexivity | apply groups_have_filters]). }
  destruct Hmin as [Hmin Hall].
  erewrite bind_ok by apply Input_run.
  erewrite bind_ok by (eapply VGG_stem_dims; [reflexivity | exact Hc]).
  cbn [nodes self].
  match goal with
  | |- context [bind (VGG.learner ?x0 _) _ ?s] =>
      destruct (VGG_learner_dims blocks x0 s None h w 64 eq_refl)
        as (st2 & y & H2 & Hy & Hs2)
  end; [reflexivity | exact Hall | now rewrite Hmin | now rewrite Hmin |].
  erewrite bind_ok by exact H2.
  erewrite bind_raise.
  2:{ eapply VGG_classifier_unknown; [exact Hy |].
      apply prod_dims_unknown. destruct Hnone as [-> | ->]; auto. }
  apply VGG_learner_sequential, sequential_appended in H2 as (d & Hn & _ & Hl).
  do 2 eexists. split; [reflexivity |]. cbn [nodes self].
  split; [exact Hs2 |]. split.
  - rewrite Hn. cbn [nodes]. rewrite <- !app_assoc. reflexivity.
  - cbn [app map n_layer]. rewrite map_app, Hl. reflexivity.
Qed.

Lemma VGG_init_unknown_side_witness :
  exists st' d,
    VGG.__init__ 16 [None; None; Some 3%N] 1000 fresh
      = (st', Raise (ValueError (Dense 4096 relu VGG.init_weights))) /\
    self st' = self fresh /\
    nodes st' = nodes fresh ++ d /\
    map n_layer d =
      InputLayer [None; None; None; Some 3%N] :: conv3x3 64
        :: flat_map stage_layers VGG16_groups ++ [Flatten].
Proof.
  apply (VGG_init_unknown_side 16 VGG16_groups None None 3 1000 fresh).
  - left. split; reflexivity.
  - left. reflexivity.
  - exact I.
  - exact I.
  - reflexivity.
Defined.

(** ** Inputs a layer refuses *)

Lemma shape_BatchNormalization_batch (batch : shape) h w c :
  compute_output_shape BatchNormalization [batch ++ [h; w; Some c]] =
  Some (batch ++ [h; w; Some c]).
Proof.
  unfold compute_output_shape. cbn [constructible call_output_shape].
  now rewrite last_app_default.
Qed.

Lemma Conv2D_rejects f k st p a i s :
  (f = 0%N \/ ~ conv_input s) ->
  compute_output_shape (Conv2D f k st p a i) [s] = None.
Proof.
  intros H. destruct (compute_output_shape _ _) as [s' |] eqn:E; [| reflexivity].
  apply Conv2D_ok_inv in E
    as (Hf & _ & batch & h & w & c & h' & w' & Hs & Hb & Hc & _).
  destruct H as [-> | H]; [lia |]. destruct H. now exists batch, h, w, c.
Qed.

Lemma SeparableConv2D_same_rejects f k a i s :
  (f = 0%N \/ ~ nonempty_maps s) ->
  compute_output_shape (SeparableConv2D f k (1, 1)%N same a i) [s] = None.
Proof.
  intros H. destruct (compute_output_shape _ _) as [s' |] eqn:E; [| reflexivity].
  apply SeparableConv2D_ok_inv in E
    as (Hf & _ & b & h & w & c & h' & w' & Hs & Hc & Eh & Ew & Hh & Hw & _).
  cbn [fst snd] in Eh, Ew. rewrite conv_output_length_same_stride1 in Eh, Ew.
  injection Eh as <-. injection Ew as <-.
  destruct H as [-> | H]; [lia |]. destruct H. now exists b, h, w, c.
Qed.

Lemma MaxPooling2D_ok_rank k st p s s' :
  compute_output_shape (MaxPooling2D k st p) [s] = Some s' -> length s = 4%nat.
Proof.
  intros E. apply compute_output_shape_inv in E as [_ E]. cbn [call_output_shape] in E.
  now destruct s as [| ? [| ? [| ? [| ? [| ? ?]]]]].
Qed.

Lemma Conv2D_valid_small f k st a i b h w c :
  (h < fst k)%N \/ (w < snd k)%N ->
  compute_output_shape (Conv2D f k st valid a i) [[b; Some h; Some w; c]] = None.
Proof.
  intros H. destruct (compute_output_shape _ _) as [s' |] eqn:E; [| reflexivity].
  apply compute_output_shape_inv in E as [_ E].
  cbn [call_output_shape] in E. unfold conv2d_output_shape in E.
  cbn [length Nat.sub firstn skipn] in E.
  destruct c as [c |]; [| discriminate]. destruct (c =? 0)%N; [discriminate |].
  destruct H as [H | H].
  - now rewrite conv_output_length_valid_small in E.
  - rewrite (conv_output_length_valid_small w) in E by exact H.
    now destruct (conv_output_length (Some h) _ _ _).
Qed.

Lemma more_batch_axes_not_maps (batch : shape) h w c :
  (2 <= length batch)%nat -> ~ nonempty_maps (batch ++ [h; w; c]).
Proof.
  intros Hb (b0 & h0 & w0 & c0 & E & _).
  apply (f_equal (@length _)) in E. rewrite length_app in E. cbn [length] in E. lia.
Qed.

(** ** Where the blocks stop *)

Lemma VGG_group_rejects_batch x n f st batch h w c :
  t_shape x = batch ++ [h; w; Some c] -> (2 <= length batch)%nat ->
  (0 < f)%N -> (0 < c)%N ->
  exists st',
    VGG.group x n f None st = (st', Raise (ValueError pool2x2)) /\
    appended (repeat (conv3x3 f) (Z.to_nat n)) st st'.
Proof.
  intros Hx Hb Hf Hc. unfold VGG.group.
  edestruct (conv_loop_dims (range n) f (3, 3)%N relu VGG.init_weights x st batch)
    as (st1 & x1 & H1 & Hx1 & _); [exact Hx | | auto |].
  { intros ->. cbn in Hb. lia. }
  erewrite bind_ok by exact H1.
  rewrite call_raise.
  - exists st1. split; [reflexivity |].
    apply for_each_call_sequential, sequential_appended in H1.
    now rewrite range_length in H1.
  - cbn [map]. rewrite Hx1.
    destruct (compute_output_shape _ _) as [s' |] eqn:E; [| reflexivity].
    apply MaxPooling2D_ok_rank in E. rewrite length_app in E. cbn [length] in E. lia.
Qed.

Lemma Xception_stem_batch x iw st batch h w c :
  t_shape x = batch ++ [h; w; Some c] -> batch <> [] ->
  fits 7 h -> fits 7 w -> (0 < c)%N -> known_initializer iw = true ->
  exists st' y,
    Xception.stem x iw st = (st', Ok y) /\
    t_shape y = batch ++ [stem_dim h; stem_dim w; Some 64%N] /\
    appended (stem_layers iw) st st'.
Proof.
  intros Hx Hb Hh Hw Hc Hi.
  destruct (fits_stem h Hh) as [Hh1 Hh2], (fits_stem w Hw) as [Hw1 Hw2].
  assert (Hrun : exists st' y,
             Xception.stem x iw st = (st', Ok y) /\
             t_shape y = batch ++ [stem_dim h; stem_dim w; Some 64%N]).
  { unfold Xception.stem.
    erewrite bind_ok.
    2:{ apply call_ok. cbn [map]. rewrite Hx.
        apply shape_Conv2D_batch; try shape_side; cbn [fst snd];
          now apply conv_output_length_valid_3_2_dim. }
    erewrite bind_ok by (apply call_ok; apply shape_BatchNormalization_batch).
    erewrite bind_ok by (apply call_ok; apply shape_ReLU).
    erewrite bind_ok.
    2:{ apply call_ok. cbn [map t_shape].
        apply shape_Conv2D_batch; try shape_side; cbn [fst snd];
          now apply conv_output_length_valid_3_1_dim. }
    rewrite !stem_dim_split.
    erewrite bind_ok by (apply call_ok; apply shape_BatchNormalization_batch).
    erewrite call_ok by apply shape_ReLU.
    do 2 eexists. split; reflexivity. }
  destruct Hrun as (st' & y & Hr & Hy). exists st', y.
  split; [exact Hr |]. split; [exact Hy |]. now apply Xception_stem_appended in Hr.
Qed.

(** A block with a projection shortcut on an input that its convolution
    takes but its separable convolution does not: the shortcut is built,
    then the block raises. *)
Lemma shortcut_then_stops (f f' : N) iw x st (rest : tensor -> tensor -> M tensor) :
  conv_input (t_shape x) -> ~ nonempty_maps (t_shape x) ->
  (0 < f)%N -> known_initializer iw = true ->
  let conv := Conv2D f (1, 1)%N (2, 2)%N same linear iw in
  let sep := SeparableConv2D f' (3, 3)%N (1, 1)%N same linear iw in
  exists st',
    bind (call conv [x])
      (fun shortcut => bind (call BatchNormalization [shortcut])
         (fun shortcut => bind (call sep [x]) (rest shortcut))) st
    = (st', Raise (ValueError sep)) /\
    appended [conv; BatchNormalization] st st'.
Proof.
  intros (batch & h & w & c & Hx & Hb & Hc) Hne Hf Hi conv sep.
  erewrite bind_ok.
  2:{ apply call_ok. cbn [map]. rewrite Hx.
      apply shape_Conv2D_batch; auto using conv_output_length_same_stride2. }
  erewrite bind_ok by (apply call_ok; apply shape_BatchNormalization_batch).
  erewrite bind_raise.
  2:{ apply call_raise. cbn [map]. apply SeparableConv2D_same_rejects. now right. }
  eexists. split; [reflexivity |]. eexists. cbn [nodes self].
  split; [rewrite <- app_assoc; reflexivity |]. split; reflexivity.
Qed.

Lemma projection_block_stops x n_filters iw st :
  conv_input (t_shape x) -> ~ nonempty_maps (t_shape x) ->
  (0 < n_filters)%N -> known_initializer (Xception.or_default iw) = true ->
  exists st',
    Xception.projection_block x n_filters iw st =
      (st', Raise (ValueError (SeparableConv2D n_filters (3, 3)%N (1, 1)%N same linear
                                               (Xception.or_default iw)))) /\
    appended [Conv2D n_filters (1, 1)%N (2, 2)%N same linear (Xception.or_default iw);
              BatchNormalization] st st'.
Proof.
  intros Hx Hne Hn Hi. unfold Xception.projection_block. cbv zeta.
  exact (shortcut_then_stops n_filters n_filters _ x st _ Hx Hne Hn Hi).
Qed.

Lemma exitFlow_stops x n_classes iw st :
  conv_input (t_shape x) -> ~ nonempty_maps (t_shape x) ->
  known_initializer (Xception.or_default iw) = true ->
  exists st',
    Xception.exitFlow x n_classes iw st =
      (st', Raise (ValueError (SeparableConv2D 728 (3, 3)%N (1, 1)%N same linear
                                               (Xception.or_default iw)))) /\
    appended [Conv2D 1024 (1, 1)%N (2, 2)%N same linear (Xception.or_default iw);
              BatchNormalization] st st'.
Proof.
  intros Hx Hne Hi. unfold Xception.exitFlow. cbv zeta.
  exact (shortcut_then_stops 1024 728 _ x st _ Hx Hne eq_refl Hi).
Qed.

(** ** Input shapes that are not images *)

(** X5: what the constructors do with an input shape that is not a height,
    a width and a number of channels.  When the placeholder is nothing a
    convolution takes (fewer than three entries, or a channel count that is
    unknown or zero), both constructors raise in their first convolution:
    the graph has gained the placeholder and nothing else.  When the shape
    has entries before height, width and channels, the convolutions take
    them for batch axes: VGG raises in its first max-pool, after the stem
    and the convolution of the first stage, and Xception, on sides of at
    least 7, raises in the first separable convolution, after the stem and
    the shortcut of the first projection block.  [_model] is left as it
    was. *)
Theorem init_rejects_non_image_shape input_shape n_classes st :
  (~ conv_input (None :: input_shape) ->
   let st' :=
     {| nodes := nodes st ++
          [{| n_layer := InputLayer (None :: input_shape); n_inputs := [];
              n_output := {| t_id := length (nodes st);
                             t_shape := None :: input_shape |} |}];
        self := self st |} in
   (forall n_layers, n_layers = 16%Z \/ n_layers = 19%Z ->
      VGG.__init__ n_layers input_shape n_classes st =
      (st', Raise (ValueError (Conv2D 64 (3, 3)%N (1, 1)%N same relu VGG.init_weights)))) /\
   Xception.__init__ input_shape n_classes st =
   (st', Raise (ValueError (Conv2D 32 (3, 3)%N (2, 2)%N valid linear Xception.init_weights)))) /\
  (forall extra h w c,
      input_shape = extra ++ [h; w; Some c] -> extra <> [] -> (0 < c)%N ->
      (forall n_layers, n_layers = 16%Z \/ n_layers = 19%Z ->
         exists st' d,
           VGG.__init__ n_layers input_shape n_classes st =
             (st', Raise (ValueError (MaxPooling2D (2, 2)%N (2, 2)%N valid))) /\
           self st' = self st /\ nodes st' = nodes st ++ d /\
           map n_layer d =
             [InputLayer (None :: input_shape); conv3x3 64; conv3x3 64]) /\
      (fits 7 h -> fits 7 w ->
       exists st' d,
         Xception.__init__ input_shape n_classes st =
           (st', Raise (ValueError (SeparableConv2D 128 (3, 3)%N (1, 1)%N same linear
                                                    Xception.init_weights))) /\
         self st' = self st /\ nodes st' = nodes st ++ d /\
         map n_layer d =
           InputLayer (None :: input_shape) :: stem_layers Xception.init_weights
             ++ [Conv2D 128 (1, 1)%N (2, 2)%N same linear Xception.init_weights;
                 BatchNormalization])).
Proof.
  split.
  - intros Himg st'. split.
    + intros n_layers Hn.
      assert (Hsel : exists blocks,
                 (n_layers = 16%Z /\ blocks = VGG16_groups) \/
                 (n_layers = 19%Z /\ blocks = VGG19_groups)).
      { destruct Hn as [-> | ->]; eauto. }
      destruct Hsel as (blocks & Hsel). rewrite (VGG_init_valid _ _ _ blocks Hsel).
      erewrite bind_ok by apply Input_run.
      erewrite bind_raise; [reflexivity |].
      apply call_raise. apply Conv2D_rejects. now right.
    + unfold Xception.__init__.
      erewrite bind_ok by apply Input_run.
      erewrite bind_raise; [reflexivity |].
      unfold Xception.entryFlow, Xception.stem. cbv zeta.
      erewrite bind_raise; [reflexivity |].
      erewrite bind_raise; [reflexivity |].
      apply call_raise. apply Conv2D_rejects. now right.
  - intros extra h w c -> Hne Hc.
    assert (Hlen : (2 <= length (None :: extra))%nat).
    { destruct extra; [contradiction | cbn; lia]. }
    split.
    + intros n_layers Hn.
      assert (Hsel : exists blocks,
                 (n_layers = 16%Z /\ blocks = VGG16_groups) \/
                 (n_layers = 19%Z /\ blocks = VGG19_groups)).
      { destruct Hn as [-> | ->]; eauto. }
      destruct Hsel as (blocks & Hsel). rewrite (VGG_init_valid _ _ _ blocks Hsel).
      erewrite bind_ok by apply Input_run.
      erewrite bind_ok.
      2:{ apply call_ok. cbn [map t_shape].
          apply (shape_Conv2D_batch 64 _ _ _ _ _ (None :: extra) h w c);
            try shape_side; [discriminate | |]; apply conv_output_length_same_stride1. }
      match goal with
      | |- context [bind (VGG.learner ?x0 _) _ ?s] =>
          destruct (VGG_group_rejects_batch x0 1 64 s (None :: extra) h w 64 eq_refl Hlen)
            as (st2 & H2 & d2 & Hn2 & Hs2 & Hl2); [reflexivity | reflexivity |]
      end.
      erewrite bind_raise.
      2:{ unfold VGG.learner.
          destruct Hsel as [[_ ->] | [_ ->]]; cbn [for_each VGG16_groups VGG19_groups];
            erewrite bind_raise by exact H2; reflexivity. }
      exists st2. eexists (_ :: _ :: d2). split; [reflexivity |].
      split; [exact Hs2 |]. split.
      * rewrite Hn2. cbn [nodes]. rewrite <- !app_assoc. reflexivity.
      * cbn [map n_layer]. rewrite Hl2. reflexivity.
    + intros Hh Hw. unfold Xception.__init__.
      erewrite bind_ok by apply Input_run.
      match goal with
      | |- context [bind (Xception.entryFlow ?x0 _ _) _ ?s] =>
          destruct (Xception_stem_batch x0 Xception.init_weights s (None :: extra) h w c
                      eq_refl) as (st1 & x1 & H1 & Hx1 & d1 & Hn1 & Hs1 & Hl1);
            [discriminate | exact Hh | exact Hw | exact Hc | reflexivity |]
      end.
      destruct (projection_block_stops x1 128 (Some Xception.init_weights) st1)
        as (st2 & H2 & d2 & Hn2 & Hs2 & Hl2).
      { rewrite Hx1. exists (None :: extra), (stem_dim h), (stem_dim w), 64%N.
        split; [reflexivity | split; [discriminate | reflexivity]]. }
      { rewrite Hx1. now apply more_batch_axes_not_maps. }
      { reflexivity. }
      { reflexivity. }
      erewrite bind_raise.
      2:{ unfold Xception.entryFlow. cbv zeta. erewrite bind_ok by exact H1.
          cbn [for_each]. erewrite bind_raise by exact H2. reflexivity. }
      exists st2. eexists (_ :: d1 ++ d2). split; [reflexivity |].
      split; [now rewrite Hs2, Hs1 |]. split.
      * rewrite Hn2, Hn1. cbn [nodes]. rewrite <- !app_assoc. reflexivity.
      * cbn [map n_layer]. rewrite map_app, Hl1, Hl2. reflexivity.
Qed.

Lemma init_rejects_non_image_shape_witness :
  (let st' :=
     {| nodes := [{| n_layer := InputLayer [None; Some 224%N; Some 224%N]; n_inputs := [];
                     n_output := {| t_id := 0; t_shape := [None; Some 224%N; Some 224%N] |} |}];
        self := new_instance |} in
   VGG.__init__ 16 [Some 224%N; Some 224%N] 1000 fresh =
     (st', Raise (ValueError (Conv2D 64 (3, 3)%N (1, 1)%N same relu VGG.init_weights))) /\
   Xception.__init__ [Some 224%N; Some 224%N] 1000 fresh =
     (st', Raise (ValueError (Conv2D 32 (3, 3)%N (2, 2)%N valid linear Xception.init_weights)))) /\
  (exists st' d,
      VGG.__init__ 16 [Some 2; Some 64; Some 64; Some 3]%N 1000 fresh =
        (st', Raise (ValueError (MaxPooling2D (2, 2)%N (2, 2)%N valid))) /\
      length d = 3%nat /\ nodes st' = d) /\
  (exists st' d,
      Xception.__init__ [Some 2; Some 64; Some 64; Some 3]%N 1000 fresh =
        (st', Raise (ValueError (SeparableConv2D 128 (3, 3)%N (1, 1)%N same linear
                                                 Xception.init_weights))) /\
      length d = 9%nat /\ nodes st' = d).
Proof.
  split; [| split].
  - intros st'.
    destruct (proj1 (init_rejects_non_image_shape [Some 224%N; Some 224%N] 1000 fresh))
      as [HV HX].
    + intros (batch & h & w & c & E & Hb & _).
      apply (f_equal (@length _)) in E. rewrite length_app in E.
      destruct batch; [contradiction | cbn [length] in E; lia].
    + split; [apply HV; now left | exact HX].
  - destruct (proj2 (init_rejects_non_image_shape [Some 2; Some 64; Some 64; Some 3]%N
                       1000 fresh) [Some 2%N] (Some 64%N) (Some 64%N) 3%N eq_refl)
      as [HV _]; [discriminate | reflexivity |].
    destruct (HV 16%Z (or_introl eq_refl)) as (st' & d & Hr & _ & Hn & Hl).
    exists st', d. split; [exact Hr |]. split; [| exact Hn].
    apply (f_equal (@length _)) in Hl. now rewrite length_map in Hl.
  - destruct (proj2 (init_rejects_non_image_shape [Some 2; Some 64; Some 64; Some 3]%N
                       1000 fresh) [Some 2%N] (Some 64%N) (Some 64%N) 3%N eq_refl)
      as [_ HX]; [discriminate | reflexivity |].
    destruct HX as (st' & d & Hr & _ & Hn & Hl); [discriminate | discriminate |].
    exists st', d. split; [exact Hr |]. split; [| exact Hn].
    apply (f_equal (@length _)) in Hl. now rewrite length_map in Hl.
Defined.

(** ** The Xception flows on sides that may be unknown *)

Lemma length_flat_map_const {A B} (f : A -> list B) (k : nat) (xs : list A) :
  (forall a, length (f a) = k) -> length (flat_map f xs) = (k * length xs)%nat.
Proof.
  intros Hf. induction xs as [| a xs IH]; cbn [flat_map length]; [lia |].
  rewrite length_app, Hf, IH. lia.
Qed.

Lemma appended_length ls st st' :
  appended ls st st' -> length (nodes st') = (length (nodes st) + length ls)%nat.
Proof.
  intros (d & Hn & _ & Hl). rewrite Hn, length_app, <- Hl. now rewrite length_map.
Qed.

(** X6: on an input with channels whose known sides are at least 7, with
    widths that are not zero and a known initialiser, the entry flow
    returns; the stem maps a side [n] to [(n - 1) / 2 - 2], every projection
    block halves it again (rounding up), and the width is the last entry of
    the width list (64, the stem's, when the list is empty).  It adds the 6
    nodes of the stem and 10 per entry. *)
Theorem entryFlow_output_shape x blocks iw st b h w c :
  t_shape x = [b; h; w; Some c] -> fits 7 h -> fits 7 w ->
  (0 < c)%N -> Forall (fun n => (0 < n)%N) blocks ->
  known_initializer (Xception.or_default iw) = true ->
  exists st' y,
    Xception.entryFlow x blocks iw st = (st', Ok y) /\
    t_shape y = [b; Nat.iter (length blocks) half (stem_dim h);
                 Nat.iter (length blocks) half (stem_dim w);
                 Some (last blocks 64%N)] /\
    length (nodes st') = (length (nodes st) + 6 + 10 * length blocks)%nat.
Proof.
  intros Hx Hh Hw Hc Hall Hi.
  destruct (entryFlow_dims x blocks iw st b h w c Hx Hh Hw Hc Hall Hi)
    as (st' & y & Hr & Hy & _).
  exists st', y. split; [exact Hr |]. split; [exact Hy |].
  apply entryFlow_appended, appended_length in Hr. rewrite Hr, length_app.
  rewrite (length_flat_map_const _ 10) by reflexivity.
  cbn [stem_layers length nodes]. lia.
Qed.

Lemma entryFlow_output_shape_witness :
  exists st' y,
    Xception.entryFlow (T 0 [None; Some 299; None; Some 3]%N) [128; 256; 728]%N None
      (fst (Input [Some 299; None; Some 3]%N fresh)) = (st', Ok y) /\
    t_shape y = [None; Some 19; None; Some 728]%N /\
    length (nodes st') = 37%nat.
Proof.
  apply (entryFlow_output_shape (T 0 [None; Some 299; None; Some 3]%N) [128; 256; 728]%N None
           (fst (Input [Some 299; None; Some 3]%N fresh)) None (Some 299%N) None 3%N eq_refl).
  - discriminate.
  - exact I.
  - reflexivity.
  - exact entry_blocks_positive.
  - reflexivity.
Defined.

(** X7: on feature maps without an empty side, when every entry of the
    width list equals the channel count of the input, which is not zero,
    the middle flow returns a tensor of the very shape of its input,
    whatever the length of the list, and adds 10 nodes per entry. *)
Theorem middleFlow_preserves_shape x blocks iw st b h w c :
  t_shape x = [b; h; w; Some c] ->
  (0 < c)%N -> fits 1 h -> fits 1 w ->
  Forall (eq c) blocks ->
  known_initializer (Xception.or_default iw) = true ->
  exists st' y,
    Xception.middleFlow x blocks iw st = (st', Ok y) /\
    t_shape y = t_shape x /\
    length (nodes st') = (length (nodes st) + 10 * length blocks)%nat.
Proof.
  intros Hx Hc Hh Hw Hall Hi.
  destruct (middleFlow_ok x blocks iw st b h w c Hx Hc Hh Hw Hall Hi) as (st' & y & Hr & Hy).
  exists st', y. split; [exact Hr |]. split; [congruence |].
  apply middleFlow_appended, appended_length in Hr. rewrite Hr.
  now rewrite (length_flat_map_const _ 10).
Qed.

Lemma middleFlow_preserves_shape_witness :
  let x := T 0 [None; Some 19; Some 19; Some 728]%N in
  exists st' y,
    Xception.middleFlow x [728; 728]%N None
      (fst (Input [Some 19; Some 19; Some 728]%N fresh)) = (st', Ok y) /\
    t_shape y = t_shape x /\
    length (nodes st') = 21%nat.
Proof.
  intros x.
  apply (middleFlow_preserves_shape x [728; 728]%N None
           (fst (Input [Some 19; Some 19; Some 728]%N fresh))
           None (Some 19%N) (Some 19%N) 728%N eq_refl).
  - reflexivity.
  - discriminate.
  - discriminate.
  - repeat constructor.
  - reflexivity.
Defined.

(** ** Whole Xception constructions *)

(** X8: Xception can be built for inputs of unknown height or width.  On an
    input shape with channels whose known sides are at least 7 (a side may
    be [None]) the constructor returns and stores a model whose input is
    the placeholder and whose output has shape [(None, n_classes)]; the
    feature maps that reach global average pooling have 2048 channels and
    sides equal to the stem's side halved four times, rounding up: 10 by 10
    for a 299 by 299 input, 7 by 7 for the default 229 by 229. *)
Theorem Xception_init_feature_maps :
  (forall h w c n_classes st,
      fits 7 h -> fits 7 w -> (0 < c)%N ->
      exists st' m g gap tail,
        Xception.__init__ [h; w; Some c] n_classes st = (st', Ok tt) /\
        self st' = {| _model := PyModel m |} /\
        inputs m = {| t_id := length (nodes st); t_shape := [None; h; w; Some c] |} /\
        t_shape (outputs m) = [None; Some n_classes] /\
        nodes st' = g ++ gap :: tail /\
        n_layer gap = GlobalAveragePooling2D /\
        map t_shape (n_inputs gap) =
          [[None; Nat.iter 4 half (stem_dim h); Nat.iter 4 half (stem_dim w);
            Some 2048%N]]) /\
  Nat.iter 4 half (stem_dim (Some 299%N)) = Some 10%N /\
  Nat.iter 4 half (stem_dim (Some 229%N)) = Some 7%N /\
  Nat.iter 4 half (stem_dim None) = None.
Proof.
  split; [| repeat split].
  intros h w c n_classes st Hh Hw Hc.
  destruct (Xception_init_run h w c n_classes st Hh Hw Hc) as (g & x & Hr & _).
  rewrite Hr.
  set (d := exit_nodes _ _ _ _ _ _ _).
  eexists _, _, (g ++ firstn 15 d), (nth 15 d (mk Add [] 0 [])), (skipn 16 d).
  split; [reflexivity |]. cbn [self nodes inputs outputs t_shape T].
  repeat split. rewrite <- app_assoc. reflexivity.
Qed.

Lemma Xception_init_feature_maps_witness :
  exists st' m,
    Xception.__init__ [None; Some 100%N; Some 1%N] 5 fresh = (st', Ok tt) /\
    self st' = {| _model := PyModel m |} /\
    t_shape (outputs m) = [None; Some 5%N].
Proof.
  destruct (proj1 Xception_init_feature_maps None (Some 100%N) 1%N 5%N fresh)
    as (st' & m & g & gap & tail & Hr & Hs & _ & Ho & _).
  - exact I.
  - discriminate.
  - reflexivity.
  - exists st', m. split; [exact Hr |]. split; [exact Hs | exact Ho].
Defined.

(** ** Inputs too small for the Xception stem *)

(** X9: on an input with channels and a side below 7 the Xception
    constructor raises in the stem and leaves [_model] as it was: in the
    first convolution, with only the placeholder built, when a side is
    below 3, and otherwise in the second convolution, after the first one
    with its normalisation and activation. *)
Theorem Xception_init_small_input h w c n_classes st :
  (h < 7)%N \/ (w < 7)%N -> (0 < c)%N ->
  exists st' d,
    self st' = self st /\ nodes st' = nodes st ++ d /\
    (((h < 3)%N \/ (w < 3)%N) /\
     Xception.__init__ [Some h; Some w; Some c] n_classes st =
       (st', Raise (ValueError
                      (Conv2D 32 (3, 3)%N (2, 2)%N valid linear Xception.init_weights))) /\
     map n_layer d = [InputLayer [None; Some h; Some w; Some c]]
     \/
     ((3 <= h)%N /\ (3 <= w)%N) /\
     Xception.__init__ [Some h; Some w; Some c] n_classes st =
       (st', Raise (ValueError
                      (Conv2D 64 (3, 3)%N (1, 1)%N valid linear Xception.init_weights))) /\
     map n_layer d =
       [InputLayer [None; Some h; Some w; Some c];
        Conv2D 32 (3, 3)%N (2, 2)%N valid linear Xception.init_weights;
        BatchNormalization; ReLU]).
Proof.
  intros Hsmall Hc.
  destruct (N.ltb_spec h 3) as [Hh | Hh]; [| destruct (N.ltb_spec w 3) as [Hw | Hw]].
  1,2: do 2 eexists; split; [| split; [| left; split; [auto | split]]];
    [| | unfold Xception.__init__; erewrite bind_ok by apply Input_run;
         apply bind_raise; unfold Xception.entryFlow; cbv zeta; apply bind_raise;
         unfold Xception.stem; apply bind_raise; apply call_raise;
         cbn [map t_shape];
         apply Conv2D_valid_small; cbn [fst snd]; auto |];
    reflexivity.
  do 2 eexists. split; [| split; [| right; split; [auto | split]]].
  3:{ unfold Xception.__init__. erewrite bind_ok by apply Input_run.
      apply bind_raise. unfold Xception.entryFlow. cbv zeta. apply bind_raise.
      unfold Xception.stem.
      erewrite bind_ok.
      2:{ apply call_ok. cbn [map t_shape].
          apply shape_Conv2D; try shape_side; cbn [fst snd];
            now apply conv_output_length_valid_3_2. }
      erewrite bind_ok by (apply call_ok; reflexivity).
      erewrite bind_ok by (apply call_ok; reflexivity).
      apply bind_raise. apply call_raise. cbn [map t_shape].
      apply Conv2D_valid_small. cbn [fst snd].
      destruct Hsmall as [H | H]; [left | right];
        apply N.Div0.div_lt_upper_bound; lia. }
  - reflexivity.
  - cbn [nodes]. rewrite <- !app_assoc. reflexivity.
  - reflexivity.
Qed.

Lemma Xception_init_small_input_witness :
  exists st' d,
    self st' = self fresh /\ nodes st' = nodes fresh ++ d /\
    Xception.__init__ [Some 6%N; Some 200%N; Some 3%N] 10 fresh =
      (st', Raise (ValueError
                     (Conv2D 64 (3, 3)%N (1, 1)%N valid linear Xception.init_weights))) /\
    length d = 4%nat.
Proof.
  destruct (Xception_init_small_input 6 200 3 10 fresh) as (st' & d & Hs & Hn & H).
  - left. reflexivity.
  - reflexivity.
  - exists st', d. split; [exact Hs |]. split; [exact Hn |].
    destruct H as [([H | H] & _) | (_ & Hr & Hl)]; [discriminate H | discriminate H |].
    split; [exact Hr |].
    apply (f_equal (@length _)) in Hl. now rewrite length_map in Hl.
Defined.

(** ** How the blocks fail *)

Lemma projection_block_refused x n_filters iw st :
  n_filters = 0%N \/ ~ conv_input (t_shape x) ->
  Xception.projection_block x n_filters iw st =
  (st, Raise (ValueError (Conv2D n_filters (1, 1)%N (2, 2)%N same linear
                                 (Xception.or_default iw)))).
Proof.
  intros H. unfold Xception.projection_block. cbv zeta.
  apply bind_raise, call_raise. now apply Conv2D_rejects.
Qed.

Lemma exitFlow_refused x n_classes iw st :
  ~ conv_input (t_shape x) ->
  Xception.exitFlow x n_classes iw st =
  (st, Raise (ValueError (Conv2D 1024 (1, 1)%N (2, 2)%N same linear
                                 (Xception.or_default iw)))).
Proof.
  intros H. unfold Xception.exitFlow. cbv zeta.
  apply bind_raise, call_raise. apply Conv2D_rejects. now right.
Qed.

(** Whether a shape is one a convolution, or a separable convolution,
    takes can be told from what the layer does with it. *)
Lemma conv_input_dec s : conv_input s \/ ~ conv_input s.
Proof.
  destruct (compute_output_shape
              (Conv2D 1 (1, 1)%N (1, 1)%N same linear "glorot_uniform") [s]) as [s' |] eqn:E.
  - left. apply Conv2D_ok_inv in E
      as (_ & _ & batch & h & w & c & _ & _ & Hs & Hb & Hc & _).
    now exists batch, h, w, c.
  - right. intros (batch & h & w & c & -> & Hb & Hc).
    rewrite (shape_Conv2D_batch _ _ _ _ _ _ batch h w c h w) in E;
      auto using conv_output_length_same_stride1; [discriminate | reflexivity].
Qed.

Lemma nonempty_maps_dec s : nonempty_maps s \/ ~ nonempty_maps s.
Proof.
  destruct (compute_output_shape
              (SeparableConv2D 1 (1, 1)%N (1, 1)%N same linear "glorot_uniform") [s])
    as [s' |] eqn:E.
  - left. apply SeparableConv2D_ok_inv in E
      as (_ & _ & b & h & w & c & h' & w' & Hs & Hc & Eh & Ew & Hh & Hw & _).
    cbn [fst snd] in Eh, Ew. rewrite conv_output_length_same_stride1 in Eh, Ew.
    injection Eh as <-. injection Ew as <-. now exists b, h, w, c.
  - right. intros (b & h & w & c & -> & Hc & Hh & Hw).
    rewrite shape_SeparableConv2D_same_stride1 in E by (assumption || reflexivity).
    discriminate.
Qed.

(** X10: the three ways a projection block and the exit flow can end, for
    an initialiser the framework knows.  Called on any tensor in any state,
    each either returns, having added all its nodes (10, and 17), which
    happens exactly on one batch of feature maps with channels and without
    an empty side (and, for the projection block, a filter count that is
    not zero); or raises in its first layer, the shortcut's projection
    convolution, with the state exactly as it was, exactly when the filter
    count is zero or the input is nothing a convolution takes; or, on the
    remaining inputs (more than one batch axis, or an empty side), builds
    the shortcut's convolution and normalisation and then raises in the
    first separable convolution, leaving these two nodes behind. *)
Theorem projection_and_exit_outcomes x iw st :
  known_initializer (Xception.or_default iw) = true ->
  (forall n_filters,
      (exists st' y,
          Xception.projection_block x n_filters iw st = (st', Ok y) /\
          length (nodes st') = (length (nodes st) + 10)%nat /\
          (0 < n_filters)%N /\ nonempty_maps (t_shape x))
      \/
      (Xception.projection_block x n_filters iw st =
         (st, Raise (ValueError (Conv2D n_filters (1, 1)%N (2, 2)%N same linear
                                        (Xception.or_default iw)))) /\
       (n_filters = 0%N \/ ~ conv_input (t_shape x)))
      \/
      (exists st' d,
          Xception.projection_block x n_filters iw st =
            (st', Raise (ValueError (SeparableConv2D n_filters (3, 3)%N (1, 1)%N same
                                       linear (Xception.or_default iw)))) /\
          nodes st' = nodes st ++ d /\ self st' = self st /\
          map n_layer d =
            [Conv2D n_filters (1, 1)%N (2, 2)%N same linear (Xception.or_default iw);
             BatchNormalization] /\
          (0 < n_filters)%N /\ conv_input (t_shape x) /\ ~ nonempty_maps (t_shape x))) /\
  (forall n_classes,
      (exists st' y,
          Xception.exitFlow x n_classes iw st = (st', Ok y) /\
          length (nodes st') = (length (nodes st) + 17)%nat /\
          nonempty_maps (t_shape x))
      \/
      (Xception.exitFlow x n_classes iw st =
         (st, Raise (ValueError (Conv2D 1024 (1, 1)%N (2, 2)%N same linear
                                        (Xception.or_default iw)))) /\
       ~ conv_input (t_shape x))
      \/
      (exists st' d,
          Xception.exitFlow x n_classes iw st =
            (st', Raise (ValueError (SeparableConv2D 728 (3, 3)%N (1, 1)%N same
                                       linear (Xception.or_default iw)))) /\
          nodes st' = nodes st ++ d /\ self st' = self st /\
          map n_layer d =
            [Conv2D 1024 (1, 1)%N (2, 2)%N same linear (Xception.or_default iw);
             BatchNormalization] /\
          conv_input (t_shape x) /\ ~ nonempty_maps (t_shape x))).
Proof.
  intros Hi. split.
  - intros n.
    destruct (N.eq_dec n 0) as [Hn | Hn];
      [right; left; split; [apply projection_block_refused |]; auto |].
    destruct (conv_input_dec (t_shape x)) as [Hc | Hc];
      [| right; left; split; [apply projection_block_refused |]; auto].
    destruct (nonempty_maps_dec (t_shape x)) as [Hm | Hm].
    + left. destruct Hm as (b & h & w & c & Hx & Hc' & Hh & Hw).
      destruct st as [g o].
      rewrite (projection_block_run _ _ _ _ _ _ _ _ _ Hx Hc' Hh Hw) by (lia || assumption).
      do 2 eexists. split; [reflexivity |]. cbn [nodes]. rewrite length_app.
      split; [reflexivity |]. split; [lia | now exists b, h, w, c].
    + right. right.
      destruct (projection_block_stops x n iw st Hc Hm) as (st' & Hr & d & Hd & Hs & Hl);
        [lia | exact Hi |].
      exists st', d. repeat split; auto. lia.
  - intros n.
    destruct (conv_input_dec (t_shape x)) as [Hc | Hc];
      [| right; left; split; [apply exitFlow_refused |]; auto].
    destruct (nonempty_maps_dec (t_shape x)) as [Hm | Hm].
    + left. destruct Hm as (b & h & w & c & Hx & Hc' & Hh & Hw).
      destruct st as [g o].
      rewrite (exitFlow_run _ _ _ _ _ _ _ _ _ Hx Hc' Hh Hw Hi).
      do 2 eexists. split; [reflexivity |]. cbn [nodes]. rewrite length_app.
      split; [reflexivity | now exists b, h, w, c].
    + right. right.
      destruct (exitFlow_stops x n iw st Hc Hm Hi) as (st' & Hr & d & Hd & Hs & Hl).
      exists st', d. repeat split; auto.
Qed.

Lemma projection_and_exit_outcomes_witness :
  let x := T 0 [None; Some 19; Some 0; Some 728]%N in
  let st := fst (Input [Some 19; Some 0; Some 728]%N fresh) in
  (exists st',
      Xception.projection_block x 128 None st =
        (st', Raise (ValueError (SeparableConv2D 128 (3, 3)%N (1, 1)%N same linear
                                                 Xception.init_weights))) /\
      length (nodes st') = 3%nat) /\
  Xception.projection_block x 0 None st =
    (st, Raise (ValueError (Conv2D 0 (1, 1)%N (2, 2)%N same linear Xception.init_weights))).
Proof.
  intros x st.
  destruct (projection_and_exit_outcomes x None st eq_refl) as [HP _].
  split.
  - destruct (HP 128%N) as [(st' & y & Hr & _) | [(Hr & _) | (st' & d & Hr & Hn & _ & Hl & _)]].
    + vm_compute in Hr. discriminate Hr.
    + vm_compute in Hr. discriminate Hr.
    + exists st'. split; [exact Hr |].
      apply (f_equal (@length _)) in Hl. rewrite length_map in Hl.
      rewrite Hn, length_app, Hl. reflexivity.
  - destruct (HP 0%N) as [(st' & y & _ & _ & H0 & _) | [(Hr & _) | (st' & d & _ & _ & _ & _ & H0 & _)]].
    + discriminate H0.
    + exact Hr.
    + discriminate H0.
Defined.

(** X11: an identity residual block can stop half way.  On feature maps
    without an empty side whose channel count differs from [n_filters],
    neither being 0 or 1, it builds its three separable convolutions with
    their normalisations and activations, nine nodes, and then raises in
    the [Add], whose operands cannot be broadcast together; with a filter
    count of zero, or on a tensor that is not one batch of feature maps
    with channels and without an empty side, it raises in its first layer
    with the state as it was. *)
Theorem residual_block_failures x n_filters iw st :
  (forall b h w c,
      t_shape x = [b; h; w; Some c] ->
      c <> n_filters -> c <> 1%N -> n_filters <> 1%N ->
      (0 < c)%N -> (0 < n_filters)%N -> fits 1 h -> fits 1 w ->
      known_initializer (Xception.or_default iw) = true ->
      exists st' d,
        Xception.residual_block x n_filters iw st = (st', Raise (ValueError Add)) /\
        nodes st' = nodes st ++ d /\ self st' = self st /\
        map n_layer d = removelast (residual_layers (Xception.or_default iw) n_filters)) /\
  (n_filters = 0%N \/ ~ nonempty_maps (t_shape x) ->
   Xception.residual_block x n_filters iw st =
   (st, Raise (ValueError (SeparableConv2D n_filters (3, 3)%N (1, 1)%N same linear
                                           (Xception.or_default iw))))).
Proof.
  split.
  - intros b h w c Hx Hcn Hc1 Hn1 Hc Hn Hh Hw Hi. destruct x as [i s]. cbn in Hx. subst s.
    destruct st as [g o]. unfold Xception.residual_block. cbv zeta. start_at g o.
    do 9 run_call.
    rewrite call_raise.
    2:{ cbn [map t_shape T nodes]. apply shape_Add_width_mismatch; auto. }
    do 2 eexists. split; [reflexivity |]. cbn [nodes self].
    split; [rewrite (app_nil_r g); reflexivity |]. split; reflexivity.
  - intros Hx. unfold Xception.residual_block. cbv zeta.
    apply bind_raise, call_raise. now apply SeparableConv2D_same_rejects.
Qed.

Lemma residual_block_failures_witness :
  let x := T 0 [None; Some 19; Some 19; Some 64]%N in
  let st := fst (Input [Some 19; Some 19; Some 64]%N fresh) in
  (exists st',
      Xception.residual_block x 728 None st = (st', Raise (ValueError Add)) /\
      length (nodes st') = 10%nat) /\
  Xception.residual_block x 0 None st =
   (st, Raise (ValueError (SeparableConv2D 0 (3, 3)%N (1, 1)%N same linear
                                           Xception.init_weights))).
Proof.
  intros x st. split.
  - destruct (proj1 (residual_block_failures x 728 None st)
                None (Some 19%N) (Some 19%N) 64%N eq_refl)
      as (st' & d & Hr & Hn & _ & Hl); try discriminate; try reflexivity.
    exists st'. split; [exact Hr |].
    apply (f_equal (@length _)) in Hl. rewrite length_map in Hl.
    rewrite Hn, length_app, Hl. reflexivity.
  - apply (proj2 (residual_block_failures x 0 None st)). left. reflexivity.
Defined.

(** ** The output layer of an Xception model *)

Lemma Xception_stem_batch_axis x iw st st' y b :
  batch_axis b x -> Xception.stem x iw st = (st', Ok y) -> batch_axis b y.
Proof. intros Hx H. unfold Xception.stem in H. batch_calls H b. Qed.

Lemma projection_block_batch_axis x n iw st st' y b :
  batch_axis b x -> Xception.projection_block x n iw st = (st', Ok y) -> batch_axis b y.
Proof.
  intros Hx H. unfold Xception.projection_block in H. cbv zeta in H. batch_calls H b.
Qed.

Lemma residual_block_batch_axis x n iw st st' y b :
  batch_axis b x -> Xception.residual_block x n iw st = (st', Ok y) -> batch_axis b y.
Proof.
  intros Hx H. unfold Xception.residual_block in H. cbv zeta in H. batch_calls H b.
Qed.

Lemma entryFlow_batch_axis x blocks iw st st' y b :
  batch_axis b x -> Xception.entryFlow x blocks iw st = (st', Ok y) -> batch_axis b y.
Proof.
  intros Hx H. unfold Xception.entryFlow in H. cbv zeta in H.
  apply bind_ok_inv in H as (st1 & x1 & H1 & H2).
  apply (Xception_stem_batch_axis _ _ _ _ _ b Hx) in H1.
  revert H2. apply for_each_invariant; [| exact H1].
  intros n x0 s s' x0' Hx0. now apply projection_block_batch_axis.
Qed.

Lemma middleFlow_batch_axis x blocks iw st st' y b :
  batch_axis b x -> Xception.middleFlow x blocks iw st = (st', Ok y) -> batch_axis b y.
Proof.
  intros Hx. unfold Xception.middleFlow. cbv zeta.
  apply for_each_invariant; [| exact Hx].
  intros n x0 s s' x0' Hx0. now apply residual_block_batch_axis.
Qed.

(** Whenever the exit flow returns, the node it added last is the dense
    softmax layer, and its output has shape [(b, n_classes)]. *)
Lemma exitFlow_last x n_classes iw st st' y b :
  batch_axis b x ->
  Xception.exitFlow x n_classes iw st = (st', Ok y) ->
  exists g x',
    nodes st' = g ++ [{| n_layer := Dense n_classes softmax (Xception.or_default iw);
                         n_inputs := [x']; n_output := y |}] /\
    t_shape y = [b; Some n_classes].
Proof.
  intros Hb H.
  destruct (exitFlow_ok_inv _ _ _ _ _ _ H) as (Hi & b' & h & w & c & Hx & Hc & Hh & Hw).
  unfold batch_axis in Hb. rewrite Hx in Hb. injection Hb as ->.
  destruct st as [g o].
  rewrite (exitFlow_run _ _ _ _ _ _ _ _ _ Hx Hc Hh Hw Hi) in H.
  injection H as <- <-. cbn [nodes].
  set (d := exit_nodes _ _ _ _ _ _ _).
  exists (g ++ removelast d). eexists. split; [| reflexivity].
  rewrite <- app_assoc. reflexivity.
Qed.

(** X12: whenever the Xception constructor returns, for whatever input
    shape, the node it added last is a dense layer of [n_classes] units with
    softmax activation, the stored model's output is that node's output
    with shape [(None, n_classes)], and the stored model's input is the
    placeholder, the first node the construction added. *)
Theorem Xception_output_layer input_shape n_classes st st' :
  Xception.__init__ input_shape n_classes st = (st', Ok tt) ->
  exists m g x,
    self st' = {| _model := PyModel m |} /\
    nodes st' = g ++ [{| n_layer := Dense n_classes softmax Xception.init_weights;
                         n_inputs := [x]; n_output := outputs m |}] /\
    t_shape (outputs m) = [None; Some n_classes] /\
    inputs m = {| t_id := length (nodes st); t_shape := None :: input_shape |}.
Proof.
  intros H. unfold Xception.__init__ in H.
  apply bind_ok_inv in H as (st1 & x0 & H0 & H).
  apply bind_ok_inv in H as (st2 & x1 & H1 & H).
  apply bind_ok_inv in H as (st3 & x2 & H2 & H).
  apply bind_ok_inv in H as (st4 & x3 & H3 & H4).
  rewrite Input_run in H0. injection H0 as <- <-.
  apply (entryFlow_batch_axis _ _ _ _ _ _ None) in H1; [| reflexivity].
  apply (middleFlow_batch_axis _ _ _ _ _ _ None H1) in H2.
  destruct (exitFlow_last _ _ _ _ _ _ None H2 H3) as (g & x' & Hn & Hy).
  injection H4 as <-. cbn [self nodes].
  eexists _, g, x'. split; [reflexivity |]. cbn [outputs inputs].
  split; [exact Hn |]. split; [exact Hy | reflexivity].
Qed.

Lemma Xception_output_layer_witness :
  let st' := fst (Xception.__init__ [Some 64; Some 96; Some 1]%N 10 fresh) in
  exists m g x,
    self st' = {| _model := PyModel m |} /\
    nodes st' = g ++ [{| n_layer := Dense 10 softmax Xception.init_weights;
                         n_inputs := [x]; n_output := outputs m |}] /\
    t_shape (outputs m) = [None; Some 10%N].
Proof.
  intros st'.
  destruct (Xception_output_layer [Some 64; Some 96; Some 1]%N 10%N fresh st')
    as (m & g & x & Hs & Hn & Ho & _).
  - vm_compute. reflexivity.
  - exists m, g, x. split; [exact Hs |]. split; [exact Hn | exact Ho].
Defined.

(** ** The graph stays consistent *)

Lemma extends_refl g : extends g g.
Proof. exists []. now rewrite app_nil_r. Qed.

Lemma extends_trans g1 g2 g3 : extends g1 g2 -> extends g2 g3 -> extends g1 g3.
Proof. intros (d1 & ->) (d2 & ->). exists (d1 ++ d2). now rewrite app_assoc. Qed.

Lemma known_lt g t : known g t -> (t_id t < length g)%nat.
Proof.
  unfold known. intros H. apply nth_error_Some.
  destruct (nth_error g (t_id t)); [discriminate | discriminate H].
Qed.

Lemma known_extends g g' t : extends g g' -> known g t -> known g' t.
Proof.
  intros (d & ->) H. pose proof (known_lt _ _ H) as Hlt.
  unfold known in *. now rewrite nth_error_app1.
Qed.

Lemma consistent_nil : consistent [].
Proof. intros i n H. destruct i; discriminate. Qed.

Lemma consistent_snoc g n :
  consistent g -> t_id (n_output n) = length g -> Forall (known g) (n_inputs n) ->
  consistent (g ++ [n]).
Proof.
  intros Hg Hid Hin i m H.
  destruct (Nat.lt_ge_cases i (length g)) as [Hlt | Hge].
  - rewrite nth_error_app1 in H by exact Hlt.
    rewrite firstn_app. replace (i - length g)%nat with 0%nat by lia.
    cbn [firstn]. rewrite app_nil_r. now apply Hg.
  - rewrite nth_error_app2 in H by exact Hge.
    destruct (i - length g)%nat as [| j] eqn:E; [| destruct j; discriminate].
    injection H as <-. assert (i = length g) by lia. subst i.
    rewrite firstn_app, firstn_all, Nat.sub_diag. cbn [firstn].
    rewrite app_nil_r. now split.
Qed.

Lemma known_new g n :
  t_id (n_output n) = length g -> known (g ++ [n]) (n_output n).
Proof.
  intros H. unfold known. rewrite H, nth_error_app2, Nat.sub_diag by lia. reflexivity.
Qed.

Lemma keeps_ret {A} g0 (a : A) (Q : graph -> A -> Prop) :
  (forall g, extends g0 g -> Q g a) -> keeps_from g0 (ret a) Q.
Proof.
  intros HQ st Hc He. cbn [ret fst snd].
  split; [exact Hc |]. split; [apply extends_refl |]. split; [reflexivity |].
  intros a' [= <-]. now apply HQ.
Qed.

Lemma keeps_raise {A} g0 e (Q : graph -> A -> Prop) : keeps_from g0 (raise e) Q.
Proof.
  intros st Hc He. cbn [raise fst snd].
  split; [exact Hc |]. split; [apply extends_refl |]. split; [reflexivity |].
  discriminate.
Qed.

Lemma keeps_bind {A B} g0 (m : M A) (f : A -> M B) (Q : graph -> A -> Prop)
    (Q' : graph -> B -> Prop) :
  keeps_from g0 m Q ->
  (forall a g1, extends g0 g1 -> Q g1 a -> keeps_from g1 (f a) Q') ->
  keeps_from g0 (bind m f) Q'.
Proof.
  intros Hm Hf st Hc He. destruct (Hm st Hc He) as (Hc1 & He1 & Hs1 & HQ1).
  unfold bind. destruct (m st) as [st1 [a | e]]; cbn [fst snd] in *.
  - destruct (Hf a (nodes st1) (extends_trans _ _ _ He He1) (HQ1 a eq_refl)
                st1 Hc1 (extends_refl _)) as (Hc2 & He2 & Hs2 & HQ2).
    split; [exact Hc2 |]. split; [eauto using extends_trans |].
    split; [congruence | exact HQ2].
  - split; [exact Hc1 |]. split; [exact He1 |]. split; [exact Hs1 |]. discriminate.
Qed.

Lemma keeps_for_each {A B} g0 (xs : list A) (body : A -> B -> M B)
    (Q : graph -> B -> Prop) acc :
  (forall g g' b, extends g g' -> Q g b -> Q g' b) ->
  (forall a b g, extends g0 g -> Q g b -> keeps_from g (body a b) Q) ->
  Q g0 acc -> keeps_from g0 (for_each xs body acc) Q.
Proof.
  intros Hmono Hb. revert g0 acc Hb.
  induction xs as [| a xs IH]; intros g0 acc Hb Hacc; cbn [for_each].
  - apply keeps_ret. intros g Hg. eauto.
  - eapply keeps_bind; [apply Hb; auto using extends_refl |].
    intros b g1 Hg1 Hq. apply IH; [| exact Hq].
    intros a' b' g Hg. apply Hb. eauto using extends_trans.
Qed.

Lemma keeps_call g0 l xs :
  Forall (known g0) xs -> keeps_from g0 (call l xs) known.
Proof.
  intros Hxs st Hc He. unfold call.
  destruct (compute_output_shape l (map t_shape xs)) as [s |]; cbn [fst snd nodes self].
  - split; [| split; [| split; [reflexivity |]]].
    + apply consistent_snoc; [exact Hc | reflexivity |].
      cbn [n_inputs]. revert Hxs. apply Forall_impl. intros t. now apply known_extends.
    + now eexists.
    + intros a [= <-].
      apply (known_new (nodes st)
               {| n_layer := l; n_inputs := xs;
                  n_output := {| t_id := length (nodes st); t_shape := s |} |}).
      reflexivity.
  - split; [exact Hc |]. split; [apply extends_refl |]. split; [reflexivity |].
    discriminate.
Qed.

(** Bring every [known] fact up to the current graph, then discharge a call
    or open the next bind. *)
Ltac keeps_step :=
  first
    [ apply keeps_call; repeat constructor; assumption
    | eapply keeps_bind;
      [| let He := fresh "He" in
         intros ? ? He ?;
         repeat match goal with
                | H : known ?g ?t |- _ =>
                    match type of He with
                    | extends g _ => apply (known_extends _ _ _ He) in H
                    end
                end;
         clear He ] ].

Lemma keeps_block (m : M tensor) st :
  keeps_from (nodes st) m known -> consistent (nodes st) -> block_outcome st (m st).
Proof. intros Hm Hc. exact (Hm st Hc (extends_refl _)). Qed.

Lemma known_mono g g' (t : tensor) : extends g g' -> known g t -> known g' t.
Proof. apply known_extends. Qed.

Lemma keeps_VGG_stem g0 x : known g0 x -> keeps_from g0 (VGG.stem x) known.
Proof. intros Hx. unfold VGG.stem. keeps_step. Qed.

Lemma keeps_VGG_group g0 x n f iw :
  known g0 x -> keeps_from g0 (VGG.group x n f iw) known.
Proof.
  intros Hx. unfold VGG.group. cbv zeta. eapply keeps_bind.
  - apply keeps_for_each; [exact known_mono | | exact Hx].
    intros _ b g _ Hb. keeps_step.
  - intros y g1 _ Hy. keeps_step.
Qed.

Lemma keeps_VGG_learner g0 x blocks :
  known g0 x -> keeps_from g0 (VGG.learner x blocks) known.
Proof.
  intros Hx. unfold VGG.learner.
  apply keeps_for_each; [exact known_mono | | exact Hx].
  intros [n f] b g _ Hb. now apply keeps_VGG_group.
Qed.

Lemma keeps_VGG_classifier g0 x n :
  known g0 x -> keeps_from g0 (VGG.classifier x n) known.
Proof. intros Hx. unfold VGG.classifier. repeat keeps_step. Qed.

Lemma keeps_Xception_stem g0 x iw :
  known g0 x -> keeps_from g0 (Xception.stem x iw) known.
Proof. intros Hx. unfold Xception.stem. repeat keeps_step. Qed.

Lemma keeps_projection_block g0 x n iw :
  known g0 x -> keeps_from g0 (Xception.projection_block x n iw) known.
Proof. intros Hx. unfold Xception.projection_block. cbv zeta. repeat keeps_step. Qed.

Lemma keeps_residual_block g0 x n iw :
  known g0 x -> keeps_from g0 (Xception.residual_block x n iw) known.
Proof. intros Hx. unfold Xception.residual_block. cbv zeta. repeat keeps_step. Qed.

Lemma keeps_entryFlow g0 x blocks iw :
  known g0 x -> keeps_from g0 (Xception.entryFlow x blocks iw) known.
Proof.
  intros Hx. unfold Xception.entryFlow. cbv zeta. eapply keeps_bind.
  - now apply keeps_Xception_stem.
  - intros y g1 _ Hy. apply keeps_for_each; [exact known_mono | | exact Hy].
    intros n b g _ Hb. now apply keeps_projection_block.
Qed.

Lemma keeps_middleFlow g0 x blocks iw :
  known g0 x -> keeps_from g0 (Xception.middleFlow x blocks iw) known.
Proof.
  intros Hx. unfold Xception.middleFlow. cbv zeta.
  apply keeps_for_each; [exact known_mono | | exact Hx].
  intros n b g _ Hb. now apply keeps_residual_block.
Qed.

Lemma keeps_exitFlow g0 x n iw :
  known g0 x -> keeps_from g0 (Xception.exitFlow x n iw) known.
Proof.
  intros Hx. unfold Xception.exitFlow, Xception.classifier. cbv zeta.
  repeat keeps_step.
Qed.

(** X13: every block of the two builders, called on a tensor of a
    consistent graph, with whatever arguments and whether it returns or
    raises, leaves a consistent graph (nodes numbered by position, every
    input the recorded output of an earlier node) that is the old graph
    with nodes added after it, does not touch the instance, and returns, if
    it returns, a tensor of the new graph. *)
Theorem blocks_keep_graph_consistent st x :
  consistent (nodes st) -> known (nodes st) x ->
  block_outcome st (VGG.stem x st) /\
  (forall n_layers n_filters iw, block_outcome st (VGG.group x n_layers n_filters iw st)) /\
  (forall blocks, block_outcome st (VGG.learner x blocks st)) /\
  (forall n_classes, block_outcome st (VGG.classifier x n_classes st)) /\
  (forall n_filters iw, block_outcome st (Xception.projection_block x n_filters iw st)) /\
  (forall n_filters iw, block_outcome st (Xception.residual_block x n_filters iw st)) /\
  (forall blocks iw, block_outcome st (Xception.entryFlow x blocks iw st)) /\
  (forall blocks iw, block_outcome st (Xception.middleFlow x blocks iw st)) /\
  (forall n_classes iw, block_outcome st (Xception.exitFlow x n_classes iw st)).
Proof.
  intros Hc Hx. repeat match goal with |- _ /\ _ => split end;
    intros; apply keeps_block; try exact Hc;
    auto using keeps_VGG_stem, keeps_VGG_group, keeps_VGG_learner, keeps_VGG_classifier,
      keeps_projection_block, keeps_residual_block, keeps_entryFlow, keeps_middleFlow,
      keeps_exitFlow.
Qed.

Lemma blocks_keep_graph_consistent_witness :
  let st := fst (Input [Some 19; Some 19; Some 64]%N fresh) in
  let x := T 0 [None; Some 19; Some 19; Some 64]%N in
  block_outcome st (Xception.residual_block x 728 None st) /\
  block_outcome st (VGG.learner x VGG16_groups st).
Proof.
  intros st x.
  assert (Hc : consistent (nodes st)).
  { apply (consistent_snoc []); [apply consistent_nil | reflexivity | constructor]. }
  destruct (blocks_keep_graph_consistent st x Hc eq_refl)
    as (_ & _ & HL & _ & _ & HR & _).
  split; [apply HR | apply HL].
Defined.

Lemma finishes_raise g0 e : finishes_from g0 (raise e).
Proof.
  intros st Hc He. split; [exact Hc |]. split; [apply extends_refl | reflexivity].
Qed.

Lemma finishes_set_model g0 i o :
  known g0 i -> known g0 o ->
  finishes_from g0 (set_model (PyModel {| inputs := i; outputs := o |})).
Proof.
  intros Hi Ho st Hc He. split; [exact Hc |]. split; [apply extends_refl |].
  cbn. eexists. split; [reflexivity |]. cbn. eauto using known_extends.
Qed.

Lemma finishes_bind {A} g0 (m : M A) (f : A -> M unit) (Q : graph -> A -> Prop) :
  keeps_from g0 m Q ->
  (forall a g1, extends g0 g1 -> Q g1 a -> finishes_from g1 (f a)) ->
  finishes_from g0 (bind m f).
Proof.
  intros Hm Hf st Hc He. destruct (Hm st Hc He) as (Hc1 & He1 & Hs1 & HQ1).
  unfold constructed, bind. destruct (m st) as [st1 [a | e]]; cbn [fst snd] in *.
  - destruct (Hf a (nodes st1) (extends_trans _ _ _ He He1) (HQ1 a eq_refl)
                st1 Hc1 (extends_refl _)) as (Hc2 & He2 & Hr).
    split; [exact Hc2 |]. split; [eauto using extends_trans |].
    destruct (snd (f a st1)); [exact Hr | congruence].
  - split; [exact Hc1 |]. split; [exact He1 | exact Hs1].
Qed.

Lemma keeps_getitem {V} g0 (d : list (Z * V)) key :
  keeps_from g0 (VGG.getitem d key) (fun _ _ => True).
Proof.
  induction d as [| [k v] d IH]; cbn [VGG.getitem].
  - apply keeps_raise.
  - destruct (k =? key)%Z; [now apply keeps_ret | exact IH].
Qed.

(** One step of a constructor: a bind whose later steps may use every
    tensor known so far. *)
Ltac finishes_step :=
  eapply finishes_bind;
  [| let He := fresh "He" in
     intros ? ? He ?;
     repeat match goal with
            | H : known ?g ?t |- _ =>
                match type of He with
                | extends g _ => apply (known_extends _ _ _ He) in H
                end
            end;
     clear He ].

(** X14: started in a consistent graph, each constructor, with whatever
    arguments and whether it returns or raises, leaves a consistent graph
    that is the old graph with nodes added after it.  When it returns,
    [_model] holds a model whose input and output are tensors of that
    graph; when it raises, [_model] is what it was: no partly built model
    is ever stored. *)
Theorem constructors_keep_graph_consistent st :
  consistent (nodes st) ->
  (forall n_layers input_shape n_classes,
      constructed st (VGG.__init__ n_layers input_shape n_classes st)) /\
  (forall input_shape n_classes,
      constructed st (Xception.__init__ input_shape n_classes st)).
Proof.
  intros Hc. split; intros.
  - revert st Hc.
    cut (finishes_from [] (VGG.__init__ n_layers input_shape n_classes)).
    { intros H st Hc. apply H; [exact Hc | now exists (nodes st)]. }
    unfold VGG.__init__.
    destruct (negb (existsb (Z.eqb n_layers) [16%Z; 19%Z])); [apply finishes_raise |].
    finishes_step; [apply keeps_call; constructor |].
    finishes_step; [now apply keeps_VGG_stem |].
    finishes_step; [apply keeps_getitem |].
    finishes_step; [now apply keeps_VGG_learner |].
    finishes_step; [now apply keeps_VGG_classifier |].
    now apply finishes_set_model.
  - revert st Hc.
    cut (finishes_from [] (Xception.__init__ input_shape n_classes)).
    { intros H st Hc. apply H; [exact Hc | now exists (nodes st)]. }
    unfold Xception.__init__.
    finishes_step; [apply keeps_call; constructor |].
    finishes_step; [now apply keeps_entryFlow |].
    finishes_step; [now apply keeps_middleFlow |].
    finishes_step; [now apply keeps_exitFlow |].
    now apply finishes_set_model.
Qed.

Lemma constructors_keep_graph_consistent_witness :
  constructed fresh (VGG.__init__ 16 VGG.default_input_shape 1000 fresh) /\
  constructed fresh (Xception.__init__ [Some 5%N; Some 5%N; Some 3%N] 1000 fresh).
Proof.
  destruct (constructors_keep_graph_consistent fresh consistent_nil) as [HV HX].
  split; [apply HV | apply HX].
Defined.

(** ** The size of the VGG feature vector *)

(** X15: for selector 16 or 19 and an input with channels of known height
    and width of at least 32, the construction returns, and the [Flatten]
    node it builds hands the dense layers a vector of
    [(h / 32) * (w / 32) * C] features, [C] being 512 for selector 16 and
    256 for selector 19; the three dense layers follow it and nothing else
    does. *)
Theorem VGG_init_feature_vector n_layers blocks C h w c n_classes st :
  (n_layers = 16%Z /\ blocks = VGG16_groups /\ C = 512%N) \/
  (n_layers = 19%Z /\ blocks = VGG19_groups /\ C = 256%N) ->
  (32 <= h)%N -> (32 <= w)%N -> (0 < c)%N ->
  exists st' g flatten tail,
    VGG.__init__ n_layers [Some h; Some w; Some c] n_classes st = (st', Ok tt) /\
    nodes st' = g ++ flatten :: tail /\
    n_layer flatten = Flatten /\
    t_shape (n_output flatten) = [None; Some ((h / 32) * (w / 32) * C)%N] /\
    map n_layer tail =
      [Dense 4096 relu VGG.init_weights; Dense 4096 relu VGG.init_weights;
       Dense n_classes softmax VGG.init_weights].
Proof.
  intros Hsel Hh Hw Hc.
  assert (Hsel' : (n_layers = 16%Z /\ blocks = VGG16_groups) \/
                  (n_layers = 19%Z /\ blocks = VGG19_groups)).
  { destruct Hsel as [(? & ? & _) | (? & ? & _)]; auto. }
  assert (Hfacts : min_side blocks = 32%N /\ learner_width blocks 64 = C /\
                   Forall stage_has_filters blocks).
  { destruct Hsel as [(_ & -> & ->) | (_ & -> & ->)];
      (split; [reflexivity | split; [reflexivity | apply groups_have_filters]]). }
  destruct Hfacts as (Hmin & HC & Hall).
  rewrite (VGG_init_valid _ _ _ blocks Hsel').
  erewrite bind_ok by apply Input_run.
  erewrite bind_ok by (eapply VGG_stem_dims; [reflexivity | exact Hc]).
  cbn [nodes self].
  match goal with
  | |- context [bind (VGG.learner ?x0 _) _ ?s] =>
      destruct (VGG_learner_dims blocks x0 s None (Some h) (Some w) 64 eq_refl)
        as (st2 & y & H2 & Hy & _)
  end; [reflexivity | exact Hall | now rewrite Hmin | now rewrite Hmin |].
  erewrite bind_ok by exact H2.
  rewrite Hmin, HC in Hy. cbn [scale_down option_map] in Hy.
  destruct (VGG_classifier_run y n_classes st2 _ _ _ _ Hy) as (tail & H3 & Htail).
  erewrite bind_ok by exact H3.
  do 4 eexists. split; [reflexivity |]. cbn [nodes].
  split; [reflexivity |]. split; [reflexivity |]. split; [reflexivity | exact Htail].
Qed.

Lemma VGG_init_feature_vector_witness :
  exists st' g flatten tail,
    VGG.__init__ 16 [Some 224; Some 224; Some 3]%N 1000 fresh = (st', Ok tt) /\
    nodes st' = g ++ flatten :: tail /\
    n_layer flatten = Flatten /\
    t_shape (n_output flatten) = [None; Some 25088%N].
Proof.
  destruct (VGG_init_feature_vector 16 VGG16_groups 512 224 224 3 1000 fresh)
    as (st' & g & fl & tail & Hr & Hn & Hl & Hs & _).
  - left. repeat split.
  - discriminate.
  - discriminate.
  - reflexivity.
  - exists st', g, fl, tail. split; [exact Hr |]. split; [exact Hn |].
    split; [exact Hl | exact Hs].
Defined.

(** ** What the number of classes changes *)

Lemma differ_bind_common {A B} nc1 nc2 iw (m : M A) (f1 f2 : A -> M B) st :
  (forall a st1, m st = (st1, Ok a) ->
     differ_in_output_layer nc1 nc2 iw (f1 a st1) (f2 a st1)) ->
  differ_in_output_layer nc1 nc2 iw (bind m f1 st) (bind m f2 st).
Proof.
  intros H. unfold bind. destruct (m st) as [st1 [a | e]].
  - now apply H.
  - now split.
Qed.

Lemma differ_last_dense nc1 nc2 iw x st b c :
  known_initializer iw = true ->
  t_shape x = [b; Some c] ->
  differ_in_output_layer nc1 nc2 iw
    (call (Dense nc1 softmax iw) [x] st) (call (Dense nc2 softmax iw) [x] st).
Proof.
  intros Hi Hx.
  rewrite !(call_ok _ _ [b; Some _])
    by (cbn [map]; rewrite Hx; now apply shape_Dense).
  cbn. now exists (nodes st), x, (length (nodes st)), b.
Qed.

Lemma Flatten_ok_inv s s' :
  compute_output_shape Flatten [s] = Some s' ->
  exists b rest, s' = [b; prod_dims rest].
Proof.
  intros E. apply compute_output_shape_inv in E as [_ E].
  destruct s as [| b rest]; [discriminate |]. injection E as <-. now exists b, rest.
Qed.

Lemma differ_VGG_classifier nc1 nc2 x st :
  differ_in_output_layer nc1 nc2 VGG.init_weights
    (VGG.classifier x nc1 st) (VGG.classifier x nc2 st).
Proof.
  unfold VGG.classifier.
  apply differ_bind_common. intros a s1 H1.
  apply differ_bind_common. intros b s2 H2.
  apply differ_bind_common. intros c s3 H3.
  apply call_ok_inv in H1 as (E1 & _), H2 as (E2 & _), H3 as (E3 & _).
  cbn [map] in *.
  apply Flatten_ok_inv in E1 as (bb & rest & E1). rewrite E1 in E2.
  apply Dense_ok_inv in E2 as (_ & _ & E2). rewrite E2 in E3.
  apply Dense_ok_inv in E3 as (_ & _ & E3).
  now apply differ_last_dense with (b := bb) (c := 4096%N).
Qed.

Lemma differ_exitFlow nc1 nc2 iw x st :
  differ_in_output_layer nc1 nc2 (Xception.or_default iw)
    (Xception.exitFlow x nc1 iw st) (Xception.exitFlow x nc2 iw st).
Proof.
  unfold Xception.exitFlow, Xception.classifier. cbv zeta.
  do 16 (apply differ_bind_common; intros ? ? ?).
  match goal with
  | HG : call GlobalAveragePooling2D [?r] _ = (_, Ok ?z),
    HR : call ReLU [?q] _ = (_, Ok ?r),
    HB : call BatchNormalization [?p] _ = (_, Ok ?q),
    HS : call (SeparableConv2D 2048 _ _ _ _ _) _ _ = (_, Ok ?p) |- _ =>
      apply call_ok_inv in HG as (EG & _), HR as (ER & _), HB as (EB & _),
        HS as (ES & _)
  end.
  cbn [map] in *.
  apply SeparableConv2D_ok_inv in ES as (_ & Hi & _).
  apply BatchNormalization_shape in EB as (EB & c & Hc).
  apply compute_output_shape_inv in ER as [_ ER]. injection ER as ER.
  apply compute_output_shape_inv in EG as [_ EG]. rewrite <- ER, EB in EG.
  match type of EG with
  | context [t_shape ?p] =>
      destruct (t_shape p) as [| b [| h [| w [| c' [| ? ?]]]]]; try discriminate
  end.
  cbn in Hc. subst c'. injection EG as EG.
  now apply differ_last_dense with (b := b) (c := c).
Qed.

Lemma differ_init_tail {A} nc1 nc2 iw (m1 m2 : M A) (v1 v2 : A -> pyobj) st :
  differ_in_output_layer nc1 nc2 iw (m1 st) (m2 st) ->
  differ_in_output_layer nc1 nc2 iw
    (bind m1 (fun a => set_model (v1 a)) st) (bind m2 (fun a => set_model (v2 a)) st).
Proof.
  intros H. unfold differ_in_output_layer, bind in *.
  destruct (m1 st) as [s1 [a1 | e1]], (m2 st) as [s2 [a2 | e2]];
    cbn [fst snd set_model nodes] in *; try contradiction; exact H.
Qed.

(** X16: the number of classes changes nothing but the last layer.  Two
    constructions of the same builder from the same state that differ only
    in [n_classes] either both raise, with the same exception and the same
    graph, or both return, with graphs that agree on every node but the
    last, the dense softmax layer, which has the requested number of units
    in each and the same input. *)
Theorem n_classes_only_sets_output_layer nc1 nc2 st :
  (forall n_layers input_shape,
      differ_in_output_layer nc1 nc2 VGG.init_weights
        (VGG.__init__ n_layers input_shape nc1 st)
        (VGG.__init__ n_layers input_shape nc2 st)) /\
  (forall input_shape,
      differ_in_output_layer nc1 nc2 Xception.init_weights
        (Xception.__init__ input_shape nc1 st)
        (Xception.__init__ input_shape nc2 st)).
Proof.
  split.
  - intros n_layers input_shape. unfold VGG.__init__.
    destruct (negb (existsb (Z.eqb n_layers) [16%Z; 19%Z])); [now split |].
    do 4 (apply differ_bind_common; intros ? ? ?).
    apply differ_init_tail, differ_VGG_classifier.
  - intros input_shape. unfold Xception.__init__.
    do 3 (apply differ_bind_common; intros ? ? ?).
    apply differ_init_tail. apply (differ_exitFlow nc1 nc2 None).
Qed.
